(** * PushshiftDumps, [analyze_ai/analyze_subreddit.py]: a shallow embedding

    The script reads a compressed archive of Reddit records, estimates how
    many records it holds, ingests a bounded prefix, cuts it into chunks,
    sends one prompt per chunk to a completion service and folds the
    answers into per-type and combined summaries.

    Part I embeds the program: Python's primitives first (exceptions,
    truthiness, [str.split], [os.path], [int()], binary64 arithmetic),
    then the functions of the script in source order, then the batch
    driver [analyze_ai/analyze_all_subreddits.py] that calls it.  Part II
    states and proves the properties; Part III adds further properties of
    the same code. *)

From Stdlib Require Import ZArith Lia List Ascii String Sorted.
From Stdlib Require Import Floats.SpecFloat.
From stdpp Require Import gmap strings list pretty sorting.

#[local] Set Warnings "-clear-no-such-hyp".

Local Open Scope string_scope.
Local Open Scope list_scope.
Local Open Scope Z_scope.

(* ===================================================================== *)
(** * Part I: the embedding                                               *)
(* ===================================================================== *)

(** ** Exceptions

    A Python call either returns or raises.  Only the exception classes
    the script can meet are listed. *)

Inductive exn :=
  | ValueError
  | TypeError
  | OverflowError
  | OSError
  | ZeroDivisionError
  | SystemExit
  | ReadError.          (* whatever the record source raises while decoding *)

Inductive result (A : Type) :=
  | Ok (a : A)
  | Raise (e : exn).
Arguments Ok {A} a.
Arguments Raise {A} e.

#[global] Instance exn_eq_dec : EqDecision exn.
Proof. solve_decision. Defined.

#[global] Instance result_ret : MRet result := fun _ a => Ok a.
#[global] Instance result_bind : MBind result := fun _ _ f r =>
  match r with
  | Ok a => f a
  | Raise e => Raise e
  end.
#[global] Instance result_fmap : FMap result := fun _ _ f r =>
  match r with
  | Ok a => Ok (f a)
  | Raise e => Raise e
  end.

(** [except (ValueError, TypeError): pass] around a computation. *)
Definition caught_by (classes : list exn) (e : exn) : bool :=
  bool_decide (e ∈ classes).

(** [except Exception]: every class listed but [SystemExit], which derives
    from [BaseException] only. *)
Definition is_Exception (e : exn) : bool :=
  negb (bool_decide (e = SystemExit)).

(** ** Sequences *)

(** [len(l)], a Python integer. *)
Definition len {A} (l : list A) : Z := Z.of_nat (length l).

(** [l[:k]] for a Python integer [k]: a negative bound counts from the
    end. *)
Definition py_slice_to {A} (l : list A) (k : Z) : list A :=
  if 0 <=? k then take (Z.to_nat k) l
  else take (length l - Z.to_nat (- k))%nat l.

(** ** The chunker *)

(** Modelled from the spec: the number of batches [chunk_list] yields.
    Section 4.3 has batches of exactly [chunk_size] records, the final one
    possibly shorter, so [n] records make [ceil(n / chunk_size)] batches.
    The spec is silent about a chunk size that is not positive; no batch
    is counted then. *)
Definition chunk_count (n chunk_size : Z) : Z :=
  if 0 <? chunk_size then (n + chunk_size - 1) / chunk_size else 0.

(** Modelled from the spec: [chunk_list], which the script imports from
    [personal/utils.py]; that module lies outside [analyze_ai/].  Section
    4.3: the buffer is split into contiguous, order-preserving batches of
    exactly [chunk_size] records, the final batch possibly shorter.  Batch
    [k] therefore starts at offset [k * chunk_size] and runs for
    [chunk_size] records or to the end of the buffer. *)
Definition chunk_list {A} (items : list A) (chunk_size : Z) : list (list A) :=
  (λ k, take (Z.to_nat chunk_size) (drop (k * Z.to_nat chunk_size)%nat items))
    <$> seq 0 (Z.to_nat (chunk_count (len items) chunk_size)).

(** [process_subreddit_file], lines 370-377:
    [chunks = list(chunk_list(all_items, chunk_size))] followed by
    [chunks_to_process = chunks[:max_chunks]]. *)
Definition chunks_to_process {A} (all_items : list A) (chunk_size max_chunks : Z)
  : list (list A) :=
  py_slice_to (chunk_list all_items chunk_size) max_chunks.

(** ** Strings *)

Definition newline : string := String (ascii_of_nat 10) "".

(** [sep.join(parts)]. *)
Fixpoint join (sep : string) (parts : list string) : string :=
  match parts with
  | [] => ""
  | [p] => p
  | p :: rest => p +:+ sep +:+ join sep rest
  end.

(** [s.split(sep)] for a one-character separator: never empty, the pieces
    hold no separator. *)
Fixpoint split (sep : ascii) (s : string) : list string :=
  match s with
  | "" => [""]
  | String c s' =>
      if Ascii.eqb c sep then "" :: split sep s'
      else match split sep s' with
           | piece :: rest => String c piece :: rest
           | [] => [String c ""]
           end
  end.

(** [s.split(sep)[0]]. *)
Definition split_first (sep : ascii) (s : string) : string :=
  match split sep s with
  | piece :: _ => piece
  | [] => ""
  end.

(** [s.startswith(c)] and [s.endswith(c)] for one character. *)
Definition startswith (c : ascii) (s : string) : bool :=
  match s with
  | String c' _ => Ascii.eqb c' c
  | "" => false
  end.

Fixpoint endswith (c : ascii) (s : string) : bool :=
  match s with
  | "" => false
  | String c' "" => Ascii.eqb c' c
  | String _ s' => endswith c s'
  end.

(** [needle in haystack]. *)
Fixpoint contains (needle haystack : string) : bool :=
  String.prefix needle haystack ||
  match haystack with
  | "" => false
  | String _ rest => contains needle rest
  end.

(** ** [os.path] (posixpath) *)

(** [os.path.basename(p)]: what follows the last slash. *)
Definition basename (p : string) : string :=
  List.last (split "/" p) "".

(** [os.path.join(a, b)]. *)
Definition path_join (a b : string) : string :=
  if startswith "/" b then b
  else if bool_decide (a = "") || endswith "/" a then a +:+ b
  else a +:+ "/" +:+ b.

(** ** Record fields

    A record is the dictionary [json.loads] returns for one line of the
    archive.  The fields the script reads hold [null], an integer or a
    string. *)

Inductive value :=
  | VNone
  | VInt (z : Z)
  | VStr (s : string).

#[global] Instance value_eq_dec : EqDecision value.
Proof. solve_decision. Defined.

Abbreviation item := (gmap string value).

(** [bool(v)]. *)
Definition truthy (v : value) : bool :=
  match v with
  | VNone => false
  | VInt z => negb (z =? 0)
  | VStr s => negb (bool_decide (s = ""))
  end.

(** [str(v)], which is also how an f-string renders [v]. *)
Definition py_str (v : value) : string :=
  match v with
  | VNone => "None"
  | VInt z => pretty z
  | VStr s => s
  end.

(** [item.get(key, default)]. *)
Definition get (it : item) (key : string) (default : value) : value :=
  match it !! key with
  | Some v => v
  | None => default
  end.

(** [key in item]. *)
Definition has_key (it : item) (key : string) : bool :=
  bool_decide (is_Some (it !! key)).

(** *** [int(v)]

    On a string (read as ASCII text): surrounding white space is dropped,
    one sign is allowed, then decimal digits, single underscores allowed
    between digits. *)

Definition is_space (c : ascii) : bool :=
  let n := nat_of_ascii c in
  ((9 <=? n)%nat && (n <=? 13)%nat) || (n =? 32)%nat.

Definition digit_of (c : ascii) : option Z :=
  let n := Z.of_nat (nat_of_ascii c) in
  if (48 <=? n) && (n <=? 57) then Some (n - 48) else None.

Fixpoint strip_left (l : list ascii) : list ascii :=
  match l with
  | c :: l' => if is_space c then strip_left l' else l
  | [] => []
  end.

Definition strip (l : list ascii) : list ascii :=
  rev (strip_left (rev (strip_left l))).

Fixpoint parse_digits (acc : Z) (after_digit : bool) (l : list ascii) : option Z :=
  match l with
  | [] => if after_digit then Some acc else None
  | c :: l' =>
      match digit_of c with
      | Some d => parse_digits (10 * acc + d) true l'
      | None =>
          if Ascii.eqb c "_" && after_digit then parse_digits acc false l'
          else None
      end
  end.

Definition parse_int (s : string) : option Z :=
  match strip (list_ascii_of_string s) with
  | "-"%char :: l => Z.opp <$> parse_digits 0 false l
  | "+"%char :: l => parse_digits 0 false l
  | l => parse_digits 0 false l
  end.

Definition py_int (v : value) : result Z :=
  match v with
  | VNone => Raise TypeError
  | VInt z => Ok z
  | VStr s =>
      match parse_int s with
      | Some z => Ok z
      | None => Raise ValueError
      end
  end.

(** ** Floating point

    A Python [float] is an IEEE 754 binary64 number; [spec_float] at
    precision 53 and maximal exponent 1024 is its model, and every
    operation below rounds to nearest, ties to even, as the hardware
    does. *)

Abbreviation float := spec_float.

(** [float(z)], the conversion Python applies to the integer operand of a
    mixed operation. *)
Definition float_of_int (z : Z) : result float :=
  match binary_normalize 53 1024 z 0 false with
  | S754_infinity _ => Raise OverflowError
  | f => Ok f
  end.

(** [a / b] on two integers: the quotient correctly rounded. *)
Definition int_truediv (a b : Z) : result float :=
  if b =? 0 then Raise ZeroDivisionError
  else if a =? 0 then Ok (S754_zero (b <? 0))
  else
    match SFdiv 53 1024 (S754_finite (a <? 0) (Z.to_pos (Z.abs a)) 0)
                        (S754_finite (b <? 0) (Z.to_pos (Z.abs b)) 0) with
    | S754_infinity _ => Raise OverflowError
    | f => Ok f
    end.

(** [x * z] for a float [x] and an integer [z]. *)
Definition float_mul_int (x : float) (z : Z) : result float :=
  y ← float_of_int z; Ok (SFmul 53 1024 x y).

(** [int(x)]: truncation toward zero. *)
Definition int_of_float (x : float) : result Z :=
  match x with
  | S754_zero _ => Ok 0
  | S754_infinity _ => Raise OverflowError
  | S754_nan => Raise ValueError
  | S754_finite s m e => Ok (cond_Zopp s (Z.shiftl (Z.pos m) e))
  end.

(** The integer nearest to [m * 2^e * 100], ties to even: the two-decimal
    rounding shared by [round(x, 2)] and the [.2f] format. *)
Definition hundredths (m : positive) (e : Z) : Z :=
  if 0 <=? e then Z.pos m * 100 * 2 ^ e
  else
    let d := 2 ^ (- e) in
    let q := (Z.pos m * 100) / d in
    let r := (Z.pos m * 100) mod d in
    match 2 * r ?= d with
    | Lt => q
    | Gt => q + 1
    | Eq => if Z.even q then q else q + 1
    end.

(** [round(x, 2)] on a float: the double nearest to the two-decimal
    rounding of [x]. *)
Definition round2 (x : float) : float :=
  match x with
  | S754_finite s m e =>
      match hundredths m e with
      | Z.pos k => SFdiv 53 1024 (S754_finite s k 0) (S754_finite false 100 0)
      | _ => S754_zero s
      end
  | _ => x
  end.

(** A number that is an [int] on some paths and a [float] on others. *)
Inductive num :=
  | NInt (z : Z)
  | NFloat (x : float).

Definition round2_num (v : num) : num :=
  match v with
  | NInt z => NInt z
  | NFloat x => NFloat (round2 x)
  end.

Definition pad2 (n : Z) : string :=
  if n <? 10 then "0" +:+ pretty n else pretty n.

(** [f"{v:.2f}"]. *)
Definition format_2f (v : num) : string :=
  match v with
  | NInt z => pretty z +:+ ".00"
  | NFloat (S754_zero s) => (if s then "-" else "") +:+ "0.00"
  | NFloat (S754_infinity s) => (if s then "-" else "") +:+ "inf"
  | NFloat S754_nan => "nan"
  | NFloat (S754_finite s m e) =>
      let k := hundredths m e in
      (if s then "-" else "") +:+ pretty (k / 100) +:+ "." +:+ pad2 (k mod 100)
  end.

(** ** Dates

    A [datetime] built by [utcfromtimestamp] from an integer is that
    number of seconds since the epoch. *)

Definition min_datetime : Z := -62135596800.    (* 0001-01-01 00:00:00 *)
Definition max_datetime : Z := 253402300799.    (* 9999-12-31 23:59:59 *)

(** [datetime.utcfromtimestamp(t)] on 64-bit Linux: a timestamp outside
    [time_t] overflows, one that [gmtime] rejects is an [OSError], and a
    year outside 1..9999 is a [ValueError]. *)
Definition utcfromtimestamp (t : Z) : result Z :=
  if (t <? - 2 ^ 63) || (2 ^ 63 <=? t) then Raise OverflowError
  else if (t <? -67768040609740800) || (67768036191676799 <? t) then Raise OSError
  else if (t <? min_datetime) || (max_datetime <? t) then Raise ValueError
  else Ok t.

(** Year, month and day of a day number counted from 1970-01-01
    (proleptic Gregorian calendar). *)
Definition civil_from_days (days : Z) : Z * Z * Z :=
  let z := days + 719468 in
  let era := z / 146097 in
  let doe := z - era * 146097 in
  let yoe := (doe - doe / 1460 + doe / 36524 - doe / 146096) / 365 in
  let doy := doe - (365 * yoe + yoe / 4 - yoe / 100) in
  let mp := (5 * doy + 2) / 153 in
  let d := doy - (153 * mp + 2) / 5 + 1 in
  let m := if mp <? 10 then mp + 3 else mp - 9 in
  let y := yoe + era * 400 + (if m <=? 2 then 1 else 0) in
  (y, m, d).

(** [dt.strftime('%Y-%m-%d')]; glibc does not pad the year. *)
Definition strftime_ymd (dt : Z) : string :=
  let '(y, m, d) := civil_from_days (dt / 86400) in
  pretty y +:+ "-" +:+ pad2 m +:+ "-" +:+ pad2 d.

#[global] Instance value_countable : Countable value.
Proof.
  refine (inj_countable'
    (λ v, match v with
          | VNone => inl ()
          | VInt z => inr (inl z)
          | VStr s => inr (inr s)
          end)
    (λ x, match x with
          | inl _ => VNone
          | inr (inl z) => VInt z
          | inr (inr s) => VStr s
          end) _).
  by intros [].
Defined.

(** [fold] with early exit on the first exception: a [for] loop whose
    body may raise. *)
Fixpoint for_each {A S} (body : S → A → result S) (s : S) (l : list A) : result S :=
  match l with
  | [] => Ok s
  | x :: l' => s' ← body s x; for_each body s' l'
  end.

(** ** [extract_metadata] *)

(** The dictionary under construction, lines 92-98: the two ends of the
    date range as [datetime]s, the set of authors and the running score.
    [post_count] is fixed at the start and [avg_score] is only set after
    the loop. *)
Record meta_acc := {
  acc_earliest : option Z;
  acc_latest : option Z;
  acc_authors : gset value;
  acc_total_score : Z;
}.

Definition meta_init : meta_acc :=
  {| acc_earliest := None; acc_latest := None;
     acc_authors := ∅; acc_total_score := 0 |}.

(** Line 103: [datetime.utcfromtimestamp(int(item.get('created_utc', 0)))]. *)
Definition created_time (it : item) : result Z :=
  t ← py_int (get it "created_utc" (VInt 0)); utcfromtimestamp t.

(** Lines 104-107. *)
Definition widen (acc : meta_acc) (created : Z) : meta_acc :=
  let e := match acc_earliest acc with
           | None => Some created
           | Some e0 => if created <? e0 then Some created else Some e0
           end in
  let l := match acc_latest acc with
           | None => Some created
           | Some l0 => if l0 <? created then Some created else Some l0
           end in
  {| acc_earliest := e; acc_latest := l;
     acc_authors := acc_authors acc; acc_total_score := acc_total_score acc |}.

(** Lines 102-109: the [try] block with its
    [except (ValueError, TypeError): pass]. *)
Definition scan_date (acc : meta_acc) (it : item) : result meta_acc :=
  match created_time it with
  | Ok created => Ok (widen acc created)
  | Raise e => if caught_by [ValueError; TypeError] e then Ok acc else Raise e
  end.

Definition excluded_authors : list value :=
  [VStr "[deleted]"; VStr "AutoModerator"].

(** Lines 112-113. *)
Definition scan_author (acc : meta_acc) (it : item) : meta_acc :=
  match it !! "author" with
  | Some a =>
      if bool_decide (a ∉ excluded_authors)
      then {| acc_earliest := acc_earliest acc; acc_latest := acc_latest acc;
              acc_authors := acc_authors acc ∪ {[a]};
              acc_total_score := acc_total_score acc |}
      else acc
  | None => acc
  end.

(** Lines 116-117. *)
Definition scan_score (acc : meta_acc) (it : item) : result meta_acc :=
  if has_key it "score" then
    sc ← py_int (get it "score" (VInt 0));
    Ok {| acc_earliest := acc_earliest acc; acc_latest := acc_latest acc;
          acc_authors := acc_authors acc;
          acc_total_score := acc_total_score acc + sc |}
  else Ok acc.

(** One turn of the loop of lines 100-117. *)
Definition scan_item (acc : meta_acc) (it : item) : result meta_acc :=
  acc1 ← scan_date acc it;
  scan_score (scan_author acc1 it) it.

(** The dictionary [extract_metadata] returns.  The date range holds the
    formatted dates (or [None]); [authors] is the list the set was turned
    into, in whatever order the set yields its members. *)
Record metadata := {
  post_count : Z;
  date_earliest : option string;
  date_latest : option string;
  authors : list value;
  avg_score : num;
  total_score : Z;
  unique_authors : Z;
}.

Definition extract_metadata (subreddit_data : list item) : result metadata :=
  acc ← for_each scan_item meta_init subreddit_data;
  let count := len subreddit_data in
  avg ← (if 0 <? count then NFloat <$> int_truediv (acc_total_score acc) count
         else Ok (NInt 0));
  let authors_list := elements (acc_authors acc) in
  Ok {| post_count := count;
        date_earliest := strftime_ymd <$> acc_earliest acc;
        date_latest := strftime_ymd <$> acc_latest acc;
        authors := authors_list;
        avg_score := avg;
        total_score := acc_total_score acc;
        unique_authors := len authors_list |}.

(** *** Vocabulary for the metadata properties *)

(** The timestamp an item brings to the date range, if any: the value of
    line 103 when it evaluates. *)
Definition timestamp_of (it : item) : option Z :=
  match created_time it with
  | Ok t => Some t
  | Raise _ => None
  end.

(** [o] is the least (greatest) element of [ts], or nothing when [ts] is
    empty. *)
Definition is_min (o : option Z) (ts : list Z) : Prop :=
  match o with
  | None => ts = []
  | Some e => e ∈ ts ∧ Forall (Z.le e) ts
  end.

Definition is_max (o : option Z) (ts : list Z) : Prop :=
  match o with
  | None => ts = []
  | Some l => l ∈ ts ∧ Forall (Z.ge l) ts
  end.

(** An item the metadata loop gets through: its timestamp converts or
    fails with an exception the loop catches, and its score, if any, is
    an integer in [int()]'s eyes. *)
Definition scannable (it : item) : Prop :=
  (∀ e, created_time it = Raise e → e = ValueError ∨ e = TypeError)
  ∧ (has_key it "score" = true →
     ∃ sc, py_int (get it "score" (VInt 0)) = Ok sc).

(** ** The record source *)

(** Modelled from the spec: [read_obj_zst_meta], which the script imports
    from [personal/utils.py]; that module lies outside [analyze_ai/].
    Section 6: a lazy, restartable producer of
    [(record, raw_bytes, cumulative_bytes_consumed)] triples over a
    compressed archive.  One pass is the finite sequence of triples it
    yields, closed either by exhaustion or by the exception that
    interrupts the decoding; being restartable, every pass over the same
    archive yields the same sequence. *)
Record source := {
  yields : list (item * string * Z);
  failure : option exn;
}.

(** An archive on disk: its size ([os.stat(path).st_size]) and what
    reading it yields. *)
Record archive := {
  st_size : Z;
  contents : source;
}.

(** A [for] loop over a pass of the source.  The body may [break]; an
    exception of the body or of the source ends the loop. *)
Inductive flow (S : Type) :=
  | Continue (s : S)
  | Break (s : S).
Arguments Continue {S} s.
Arguments Break {S} s.

Fixpoint for_yields {S} (body : S → item * string * Z → result (flow S))
    (s : S) (l : list (item * string * Z)) (fail : option exn) : result S :=
  match l with
  | [] => match fail with
          | Some e => Raise e
          | None => Ok s
          end
  | t :: l' =>
      match body s t with
      | Raise e => Raise e
      | Ok (Break s') => Ok s'
      | Ok (Continue s') => for_yields body s' l' fail
      end
  end.

Definition for_source {S} (body : S → item * string * Z → result (flow S))
    (s : S) (src : source) : result S :=
  for_yields body s (yields src) (failure src).

(** ** [process_subreddit_file]: the size estimate, lines 296-336 *)

Definition size_threshold : Z := 500 * 1024 * 1024.
Definition sample_size : Z := 1000.
Definition bytes_per_item : Z := 500.

(** Lines 302-305: the counting pass. *)
Definition count_items (src : source) : result Z :=
  for_source (λ total _, Ok (Continue (total + 1))) 0 src.

(** Lines 321-325: the sampling pass; the state is
    [(sample_items, sample_bytes)]. *)
Definition sample_pass (src : source) : result (Z * Z) :=
  for_source (λ st t,
      let sample_items := st.1 + 1 in
      if sample_size <=? sample_items then Ok (Break (sample_items, t.2))
      else Ok (Continue (sample_items, st.2)))
    (0, 0) src.

(** Lines 329-330: [int((sample_items / sample_bytes) * file_size)]. *)
Definition extrapolate (sample_items sample_bytes file_size : Z) : result Z :=
  items_per_byte ← int_truediv sample_items sample_bytes;
  product ← float_mul_int items_per_byte file_size;
  int_of_float product.

Definition estimate_total_items (file_size : Z) (src : source) : result Z :=
  if file_size <? size_threshold then
    match count_items src with                  (* try *)
    | Ok total => Ok total
    | Raise e =>                                (* except Exception *)
        if is_Exception e then Ok (file_size / bytes_per_item) else Raise e
    end
  else
    sampled ← sample_pass src;
    if (0 <? sampled.1) && (0 <? sampled.2)
    then extrapolate sampled.1 sampled.2 file_size
    else Ok (file_size / bytes_per_item).

(** ** The bounded read, lines 338-352

    The state is [(all_items, items_processed)].  Every 10000 items the
    progress [(file_bytes_processed / file_size) * 100] is computed for
    the log. *)
Definition ingest (file_size chunk_size max_chunks : Z) (src : source)
  : result (list item * Z) :=
  for_source (λ st t,
      let all_items := st.1 ++ [t.1.1] in
      let items_processed := st.2 + 1 in
      _ ← (if items_processed mod 10000 =? 0
           then ratio ← int_truediv t.2 file_size; float_mul_int ratio 100
           else Ok (S754_zero false));
      if chunk_size * max_chunks <=? items_processed
      then Ok (Break (all_items, items_processed))
      else Ok (Continue (all_items, items_processed)))
    ([], 0) src.

(** ** Coverage, lines 354-368 *)

Record coverage := {
  items_processed : Z;
  total_items_estimate : Z;
  coverage_percentage : num;
  file_size_bytes : Z;
}.

(** Lines 355-357: [coverage_pct]. *)
Definition coverage_pct (items_processed total_items_estimate : Z) : result num :=
  if 0 <? total_items_estimate then
    ratio ← int_truediv items_processed total_items_estimate;
    NFloat <$> float_mul_int ratio 100
  else Ok (NInt 0).

(** Lines 363-368: [file_coverage]. *)
Definition file_coverage (items_processed total_items_estimate : Z)
    (pct : num) (file_size : Z) : coverage :=
  {| items_processed := items_processed;
     total_items_estimate := total_items_estimate;
     coverage_percentage := round2_num pct;
     file_size_bytes := file_size |}.

(** ** [main]: the overall coverage, lines 547-591

    [overall_coverage] starts at zero, each processed archive adds its
    two counts, and the percentage is computed from the totals. *)
Record overall := {
  overall_total_items_estimate : Z;
  overall_items_processed : Z;
  overall_coverage_percentage : num;
}.

Definition add_coverage (acc : Z * Z) (c : option coverage) : Z * Z :=
  match c with
  | Some cov => (acc.1 + total_items_estimate cov, acc.2 + items_processed cov)
  | None => acc
  end.

Definition overall_coverage (submission_coverage comment_coverage : option coverage)
  : result overall :=
  let totals := add_coverage (add_coverage (0, 0) submission_coverage)
                  comment_coverage in
  pct ← (if 0 <? totals.1 then
           ratio ← int_truediv totals.2 totals.1;
           product ← float_mul_int ratio 100;
           Ok (NFloat (round2 product))
         else Ok (NInt 0));
  Ok {| overall_total_items_estimate := totals.1;
        overall_items_processed := totals.2;
        overall_coverage_percentage := pct |}.

(** *** Vocabulary for the coverage properties *)

(** The exact value of the float [x] is the ratio [a / b] ([b] not
    zero); infinities and NaN are no ratio. *)
Definition is_ratio (x : float) (a b : Z) : Prop :=
  match x with
  | S754_zero _ => a = 0
  | S754_finite s m e =>
      if 0 <=? e then cond_Zopp s (Z.pos m) * 2 ^ e * b = a
      else cond_Zopp s (Z.pos m) * b = a * 2 ^ (- e)
  | _ => False
  end.

(** ** [repr] of strings and lists of strings *)

Definition backslash : ascii := ascii_of_nat 92.
Definition single_quote : ascii := ascii_of_nat 39.
Definition double_quote : ascii := ascii_of_nat 34.

Definition hex_digit (n : nat) : ascii :=
  if (n <? 10)%nat then ascii_of_nat (48 + n) else ascii_of_nat (87 + n).

(** One character inside the quotes.  Bytes above 127 are parts of UTF-8
    sequences, which [repr] leaves as they are when the character is
    printable. *)
Definition repr_char (quote c : ascii) : string :=
  let n := nat_of_ascii c in
  if Ascii.eqb c backslash then String backslash (String backslash "")
  else if Ascii.eqb c quote then String backslash (String quote "")
  else if (n =? 9)%nat then String backslash "t"
  else if (n =? 10)%nat then String backslash "n"
  else if (n =? 13)%nat then String backslash "r"
  else if (n <? 32)%nat || (n =? 127)%nat
  then String backslash (String "x" (String (hex_digit (n / 16))
                                       (String (hex_digit (n mod 16)) "")))
  else String c "".

Fixpoint repr_chars (quote : ascii) (s : string) : string :=
  match s with
  | "" => ""
  | String c s' => repr_char quote c +:+ repr_chars quote s'
  end.

Fixpoint has_char (c : ascii) (s : string) : bool :=
  match s with
  | "" => false
  | String c' s' => Ascii.eqb c' c || has_char c s'
  end.

(** [repr(s)]: single quotes unless the string holds a single quote and
    no double quote. *)
Definition py_repr (s : string) : string :=
  let quote := if has_char single_quote s && negb (has_char double_quote s)
               then double_quote else single_quote in
  String quote (repr_chars quote s) +:+ String quote "".

(** [repr(l)] of a list of strings, which is also [str(l)]. *)
Definition py_repr_list (l : list string) : string :=
  "[" +:+ join ", " (py_repr <$> l) +:+ "]".

(** ** [format_content_for_ai] *)

(** [x != "..."] for a field value [x]. *)
Definition differs (v : value) (s : string) : bool :=
  negb (bool_decide (v = VStr s)).

(** Lines 149 and 159. *)
Definition created_date (it : item) : result string :=
  strftime_ymd <$> created_time it.

(** One turn of the loop of lines 142-167: the text appended for the
    item, or nothing when the loop [continue]s. *)
Definition format_item (is_submission : bool) (it : item) : result (option string) :=
  if is_submission then
    let title := get it "title" (VStr "No Title") in
    let selftext := get it "selftext" (VStr "") in
    let score := get it "score" (VInt 0) in
    let num_comments := get it "num_comments" (VInt 0) in
    created ← created_date it;
    let formatted_text :=
      "POST [Score: " +:+ py_str score +:+ ", Comments: " +:+ py_str num_comments
        +:+ ", Date: " +:+ created +:+ "]" +:+ newline
        +:+ "TITLE: " +:+ py_str title +:+ newline in
    if truthy selftext && differs selftext "[deleted]" && differs selftext "[removed]"
    then Ok (Some (formatted_text +:+ "CONTENT: " +:+ py_str selftext +:+ newline))
    else Ok (Some formatted_text)
  else
    let body := get it "body" (VStr "") in
    let score := get it "score" (VInt 0) in
    created ← created_date it;
    if truthy body && differs body "[deleted]" && differs body "[removed]"
    then Ok (Some ("COMMENT [Score: " +:+ py_str score +:+ ", Date: " +:+ created
                     +:+ "]" +:+ newline
                     +:+ "CONTENT: " +:+ py_str body +:+ newline))
    else Ok None.

Definition format_content_for_ai (items : list item) (is_submission : bool)
  : result string :=
  formatted_items ←
    for_each (λ acc it,
        text ← format_item is_submission it;
        Ok (match text with
            | Some t => acc ++ [t]
            | None => acc
            end)) [] items;
  Ok (join (newline +:+ newline) formatted_items).
(** ** Prompts *)

(** How an f-string renders a value that is a string or [None]. *)
Definition str_or_none (o : option string) : string :=
  match o with
  | Some s => s
  | None => "None"
  end.

(** [prepare_ai_prompt], lines 172-220.  The template is given line by
    line; [join newline] puts the line breaks back. *)
Definition prepare_ai_prompt (subreddit_name content : string) (md : metadata)
  : string :=
  join newline
    [ "";
      "# Subreddit Community Analysis: r/" +:+ subreddit_name;
      "";
      "## Context";
      "- Subreddit: r/" +:+ subreddit_name;
      "- Time period: " +:+ str_or_none (date_earliest md) +:+ " to " +:+ str_or_none (date_latest md);
      "- Sample size: " +:+ pretty (post_count md) +:+ " posts/comments";
      "- Unique authors: " +:+ pretty (unique_authors md);
      "";
      "## Your Task";
      "You are a cultural anthropologist and user researcher analyzing this community to identify pain points, challenges, and recurring themes. Based on the content provided, conduct a thorough analysis of the community conversations.";
      "";
      "## Analysis Framework";
      "Please analyze the following content from r/" +:+ subreddit_name +:+ " and provide insights in these categories:";
      "";
      "0. **General Information**";
      "   - What is the community about?";
      "   - What are the main topics discussed?";
      "   - What is popular to chat about, what isn't?";
      "";
      "1. **Primary Pain Points and Problems**";
      "   - Identify the most significant challenges, frustrations, or problems faced by community members";
      "   - Rank these issues by apparent frequency and emotional intensity";
      "   - Include specific examples or quotes that illustrate each pain point";
      "";
      "2. **Recurring Questions and Information Gaps**";
      "   - Note patterns of questions that appear repeatedly";
      "   - Identify topics where users seem to lack information or clarity";
      "   - Highlight areas where the community struggles to find consensus or clear answers";
      "";
      "3. **Most Popular Solutions, Products, or Services**";
      "   - Identify the most frequently discussed solutions, products, or services";
      "   - Analyze the frequency and intensity of discussion around these topics";
      "   - Consider the emotional tone and sentiment associated with each topic";
      "";
      "4. **Least Popular Solutions, Products, or Services**";
      "   - Identify the least frequently discussed solutions, products, or services";
      "   - Analyze the frequency and intensity of discussion around these topics";
      "   - Consider the emotional tone and sentiment associated with each topic";
      "";
      "## Content For Analysis:";
      "";
      content;
      "" ].

(** The meta-analysis request, lines 439-461: [all_analyses] is the text
    of line 439, [count] is [len(chunk_results)] and [pct] the unrounded
    [coverage_pct]. *)
Definition meta_prompt_text (subreddit_name : string) (count : Z) (pct : num)
    (all_analyses : string) : string :=
  join newline
    [ "";
      "# Meta-Analysis of r/" +:+ subreddit_name;
      "";
      "You have been provided with " +:+ pretty count +:+ " separate analyses of different chunks of content from the subreddit r/" +:+ subreddit_name +:+ ".";
      "Your task is to synthesize these analyses into a coherent summary that identifies:";
      "";
      "1. The most consistent pain points and problems across all analyses";
      "2. The most common questions and information gaps";
      "3. The most frequently discussed solutions, products, or services";
      "4. Overall themes and patterns in the community";
      "";
      "Please provide a comprehensive summary that brings together the insights from all chunks, highlighting both consistencies and any notable differences between chunks.";
      "";
      "## Analysis Coverage";
      "This analysis covers approximately " +:+ format_2f pct +:+ "% of the total content in the subreddit file.";
      "";
      "## Individual Chunk Analyses";
      "";
      all_analyses;
      "" ].

(** The combined request, lines 617-635.  [all_analyses] is a Python
    list there, so the f-string renders its [repr]. *)
Definition combined_prompt_text (subreddit_name : string)
    (all_analyses : list string) : string :=
  join newline
    [ "";
      "# Combined Analysis of r/" +:+ subreddit_name;
      "";
      "You have been provided with separate analyses of submissions and comments from the subreddit r/" +:+ subreddit_name +:+ ".";
      "Your task is to synthesize these analyses into a coherent summary that provides a complete picture of the community.";
      "";
      "Please provide a comprehensive summary that brings together the insights from all analyses, highlighting:";
      "";
      "1. The primary characteristics and purpose of this subreddit community";
      "2. The most significant pain points and problems faced by community members";
      "3. The most common questions and information gaps";
      "4. The most popular solutions, products, or services discussed";
      "5. The least popular solutions, products, or services discussed";
      "6. Overall themes, patterns, and dynamics in the community";
      "";
      "## Individual Analyses";
      "";
      py_repr_list all_analyses;
      "" ].

(** ** The world of a run

    What the script reads is fixed for the run: the credential taken from
    the environment when the module is loaded, the archives on disk, the
    completion service, the date and the JSON serializer.  The service is
    a function of the request's rank and its prompt; it answers with a
    text or fails with a [RequestException], which [analyze_with_openai]
    turns into [None]. *)

#[local] Set Warnings "-register-all".
Inductive json :=
  | JNull
  | JInt (z : Z)
  | JNum (v : num)
  | JStr (s : string)
  | JArr (l : list json)
  | JObj (fields : list (string * json)).
#[local] Set Warnings "register-all".

Record env := {
  OPENAI_API_KEY : option string;
  archives : gmap string archive;
  completion : nat → string → option string;
  today : string;                 (* [datetime.now().strftime("%Y-%m-%d")] *)
  json_dump : json → string;      (* [json.dump(obj, f, indent=2)] *)
}.

(** What the script changes: the files it writes, the directories it
    creates, and the requests it sends (oldest first).  The log that
    [logging] keeps in [analyze_subreddit.log] is no part of it. *)
Record world := {
  files : gmap string string;
  dirs : gset string;
  requests : list string;
}.

(** A computation that may change the world and may raise; what was done
    before an exception stays done. *)
Definition run (A : Type) : Type := world → result A * world.

#[global] Instance run_ret : MRet run := λ _ a w, (Ok a, w).
#[global] Instance run_bind : MBind run := λ _ _ f m w,
  match m w with
  | (Ok a, w') => f a w'
  | (Raise e, w') => (Raise e, w')
  end.

Definition lift {A} (r : result A) : run A := λ w, (r, w).

Definition raise {A} (e : exn) : run A := λ w, (Raise e, w).

(** [os.path.exists(path)]. *)
Definition path_exists (E : env) (path : string) : run bool := λ w,
  (Ok (bool_decide (is_Some (archives E !! path))
       || bool_decide (is_Some (files w !! path))
       || bool_decide (path ∈ dirs w)), w).

(** The ancestors of a path: what stands before each of its slashes,
    the empty text before a leading slash left out.  [seen] is the part
    of the path already gone through. *)
Fixpoint ancestors_from (seen rest : string) : list string :=
  match rest with
  | "" => []
  | String c rest' =>
      (if Ascii.eqb c "/" && negb (bool_decide (seen = "")) then [seen] else [])
        ++ ancestors_from (seen +:+ String c "") rest'
  end.

Definition ancestors (path : string) : list string := ancestors_from "" path.

(** [os.makedirs(path)]: the directory and every ancestor it lacks. *)
Definition makedirs (path : string) : run unit := λ w,
  (Ok (), {| files := files w;
             dirs := dirs w ∪ list_to_set (ancestors path) ∪ {[path]};
             requests := requests w |}).

(** [with open(path, 'w') as f: f.write(text)], on a POSIX system, where
    text mode writes line ends as they are. *)
Definition write_file (path text : string) : run unit := λ w,
  (Ok (), {| files := <[path := text]> (files w); dirs := dirs w;
             requests := requests w |}).

Definition carriage_return : ascii := ascii_of_nat 13.
Definition line_feed : ascii := ascii_of_nat 10.

(** What text mode makes of the line ends when reading: [\r\n] and a
    lone [\r] both come back as [\n]. *)
Fixpoint universal_newlines (text : string) : string :=
  match text with
  | "" => ""
  | String c rest =>
      if Ascii.eqb c carriage_return then
        String line_feed
          match rest with
          | String c' rest' =>
              if Ascii.eqb c' line_feed then universal_newlines rest'
              else universal_newlines rest
          | "" => ""
          end
      else String c (universal_newlines rest)
  end.

(** [with open(path, 'r') as f: f.read()], for a path known to exist. *)
Definition read_file (path : string) : run string := λ w,
  (Ok (universal_newlines (default "" (files w !! path))), w).

(** [not x] for a string that may be [None]. *)
Definition falsy (o : option string) : bool :=
  match o with
  | Some s => bool_decide (s = "")
  | None => true
  end.

(** ** [analyze_with_openai], lines 223-268 *)
Definition analyze_with_openai (E : env) (prompt : string) : run (option string) :=
  if falsy (OPENAI_API_KEY E) then raise ValueError
  else λ w,
    (Ok (completion E (length (requests w)) prompt),
     {| files := files w; dirs := dirs w; requests := requests w ++ [prompt] |}).

(** ** [process_subreddit_file]: the chunk loop and the summaries *)

Record chunk_result := {
  chunk_id : Z;
  result_metadata : metadata;
  analysis : string;
}.

Definition value_json (v : value) : json :=
  match v with
  | VNone => JNull
  | VInt z => JInt z
  | VStr s => JStr s
  end.

Definition option_json (o : option string) : json :=
  match o with
  | Some s => JStr s
  | None => JNull
  end.

Definition metadata_json (md : metadata) : json :=
  JObj [ ("post_count", JInt (post_count md));
         ("date_range", JObj [ ("earliest", option_json (date_earliest md));
                               ("latest", option_json (date_latest md)) ]);
         ("authors", JArr (value_json <$> authors md));
         ("avg_score", JNum (avg_score md));
         ("total_score", JInt (total_score md));
         ("unique_authors", JInt (unique_authors md)) ].

Definition chunk_result_json (r : chunk_result) : json :=
  JObj [ ("chunk_id", JInt (chunk_id r));
         ("metadata", metadata_json (result_metadata r));
         ("analysis", JStr (analysis r)) ].

Definition coverage_json (c : coverage) : json :=
  JObj [ ("items_processed", JInt (items_processed c));
         ("total_items_estimate", JInt (total_items_estimate c));
         ("coverage_percentage", JNum (coverage_percentage c));
         ("file_size_bytes", JInt (file_size_bytes c)) ].

(** [sum(result["metadata"]["post_count"] for result in results)]. *)
Definition posts_analyzed (results : list chunk_result) : Z :=
  foldr (λ r total, post_count (result_metadata r) + total) 0 results.

Definition chunk_file (output_dir subreddit_name : string) (ordinal : Z)
    (suffix : string) : string :=
  path_join output_dir
    (subreddit_name +:+ "_chunk_" +:+ pretty ordinal +:+ suffix).

(** One turn of the loop of lines 379-424, for the chunk of index [i];
    the result is [chunk_results] after the turn.  The pause of lines
    422-424 changes nothing that is modelled. *)
Definition process_chunk (E : env) (output_dir subreddit_name : string)
    (is_submission : bool) (i : Z) (chunk : list item)
    (chunk_results : list chunk_result) : run (list chunk_result) :=
  md ← lift (extract_metadata chunk);
  formatted_content ← lift (format_content_for_ai chunk is_submission);
  let prompt := prepare_ai_prompt subreddit_name formatted_content md in
  write_file (chunk_file output_dir subreddit_name (i + 1) "_prompt.txt") prompt;;
  response ← analyze_with_openai E prompt;
  if falsy response then mret chunk_results
  else
    let text := default "" response in
    write_file (chunk_file output_dir subreddit_name (i + 1) "_analysis.md") text;;
    mret (chunk_results ++ [ {| chunk_id := i + 1; result_metadata := md;
                                analysis := text |} ]).

Fixpoint process_chunks (E : env) (output_dir subreddit_name : string)
    (is_submission : bool) (i : Z) (chunks : list (list item))
    (chunk_results : list chunk_result) : run (list chunk_result) :=
  match chunks with
  | [] => mret chunk_results
  | chunk :: rest =>
      chunk_results' ← process_chunk E output_dir subreddit_name is_submission
                         i chunk chunk_results;
      process_chunks E output_dir subreddit_name is_submission (i + 1) rest
        chunk_results'
  end.

(** Line 439: the chunk analyses under their headings. *)
Definition labelled (r : chunk_result) : string :=
  "## Chunk " +:+ pretty (chunk_id r) +:+ " Analysis" +:+ newline +:+ newline
    +:+ analysis r.

Definition all_analyses_text (chunk_results : list chunk_result) : string :=
  join (newline +:+ newline) (labelled <$> chunk_results).

Definition summary_file (output_dir subreddit_name : string) : string :=
  path_join output_dir (subreddit_name +:+ "_analysis_summary.json").

(** Lines 482-489 and 497-504: the summary object; [key] is
    ["meta_analysis"] or ["analysis"]. *)
Definition summary_json (E : env) (subreddit_name : string) (chunks_analyzed : Z)
    (total_posts : Z) (cov : coverage) (key text : string) : json :=
  JObj [ ("subreddit", JStr subreddit_name);
         ("chunks_analyzed", JInt chunks_analyzed);
         ("total_posts_analyzed", JInt total_posts);
         ("coverage_data", coverage_json cov);
         ("analysis_date", JStr (today E));
         (key, JStr text) ].

(** Lines 426-505. *)
Definition summarize (E : env) (output_dir subreddit_name : string)
    (chunk_results : list chunk_result) (pct : num) (cov : coverage) : run unit :=
  match chunk_results with
  | [] => mret ()
  | first :: _ =>
      write_file (path_join output_dir (subreddit_name +:+ "_all_analyses.json"))
        (json_dump E (JArr (chunk_result_json <$> chunk_results)));;
      if 1 <? len chunk_results then
        let meta_prompt :=
          meta_prompt_text subreddit_name (len chunk_results) pct
            (all_analyses_text chunk_results) in
        write_file (path_join output_dir (subreddit_name +:+ "_meta_prompt.txt"))
          meta_prompt;;
        meta_analysis ← analyze_with_openai E meta_prompt;
        if falsy meta_analysis then mret ()
        else
          let text := default "" meta_analysis in
          write_file (path_join output_dir (subreddit_name +:+ "_meta_analysis.md"))
            text;;
          write_file (summary_file output_dir subreddit_name)
            (json_dump E (summary_json E subreddit_name (len chunk_results)
                            (posts_analyzed chunk_results) cov
                            "meta_analysis" text))
      else
        write_file (summary_file output_dir subreddit_name)
          (json_dump E (summary_json E subreddit_name 1
                          (post_count (result_metadata first)) cov
                          "analysis" (analysis first)))
  end.

(** Line 287. *)
Definition subreddit_name_of (file_path : string) : string :=
  split_first "_" (basename file_path).

(** [process_subreddit_file], lines 271-507; [None] is the early return
    of line 280. *)
Definition process_subreddit_file (E : env) (file_path output_dir : string)
    (chunk_size max_chunks : Z) (is_submission : bool)
  : run (option (list chunk_result * coverage)) :=
  match archives E !! file_path return run _ with
  | None => mret None
  | Some arch =>
      out_exists ← path_exists E output_dir;
      (if out_exists : bool then mret () else makedirs output_dir);;
      let subreddit_name := subreddit_name_of file_path in
      let file_size := st_size arch in
      total_items_estimate ← lift (estimate_total_items file_size (contents arch));
      read ← lift (ingest file_size chunk_size max_chunks (contents arch));
      let all_items := read.1 in
      let items_processed := read.2 in
      pct ← lift (coverage_pct items_processed total_items_estimate);
      let cov := file_coverage items_processed total_items_estimate pct file_size in
      chunk_results ← process_chunks E output_dir subreddit_name is_submission 0
                        (chunks_to_process all_items chunk_size max_chunks) [];
      summarize E output_dir subreddit_name chunk_results pct cov;;
      mret (Some (chunk_results, cov))
  end.

(** ** [main], lines 510-672 *)

(** The parsed command line.  [--model] is parsed and never used. *)
Record args := {
  arg_submissions : option string;
  arg_comments : option string;
  arg_subreddit : option string;
  arg_data_dir : string;
  arg_output_dir : string;
  arg_chunk_size : Z;
  arg_max_chunks : Z;
}.

(** Lines 531-533: the archive paths after the defaults are filled in. *)
Definition archive_paths (a : args) : option string * option string :=
  if negb (falsy (arg_subreddit a)) && falsy (arg_submissions a)
     && falsy (arg_comments a)
  then
    let name := default "" (arg_subreddit a) in
    (Some (path_join (arg_data_dir a) (name +:+ "_submissions.zst")),
     Some (path_join (arg_data_dir a) (name +:+ "_comments.zst")))
  else (arg_submissions a, arg_comments a).

(** Lines 536-540: the name [main] works under. *)
Definition main_subreddit_name (a : args) : string :=
  let paths := archive_paths a in
  if negb (falsy (arg_subreddit a)) then default "" (arg_subreddit a)
  else if negb (falsy paths.1) then subreddit_name_of (default "" paths.1)
  else if negb (falsy paths.2) then subreddit_name_of (default "" paths.2)
  else "".

(** Lines 556-567 and 572-583: one archive type.  Nothing is done when
    the path is not given or names no archive; otherwise the pair
    [process_subreddit_file] returns is unpacked. *)
Definition process_archive (E : env) (path : option string) (output_dir : string)
    (chunk_size max_chunks : Z) (is_submission : bool)
  : run (option (list chunk_result * coverage)) :=
  if falsy path then mret None
  else
    let file_path := default "" path in
    match archives E !! file_path return run _ with
    | None => mret None
    | Some _ =>
        returned ← process_subreddit_file E file_path output_dir chunk_size
                     max_chunks is_submission;
        match returned : option (list chunk_result * coverage) with
        | Some unpacked => mret (Some unpacked)
        | None => raise TypeError
        end
    end.

(** Lines 603-606: where [main] looks for the chunk analyses of one
    type, one path per entry of [results]. *)
Definition analysis_paths (output_dir kind subreddit_name : string)
    (results : list chunk_result) : list string :=
  (λ i : nat, chunk_file (path_join output_dir kind) subreddit_name
                (Z.of_nat i + 1) "_analysis.md")
    <$> seq 0 (length results).

(** Lines 609-613. *)
Fixpoint read_existing (E : env) (paths : list string) (all_analyses : list string)
  : run (list string) :=
  match paths with
  | [] => mret all_analyses
  | path :: rest =>
      found ← path_exists E path;
      if found : bool then
        text ← read_file path;
        read_existing E rest (all_analyses ++ [text])
      else read_existing E rest all_analyses
  end.

Definition overall_json (o : overall) : json :=
  JObj [ ("total_items_estimate", JInt (overall_total_items_estimate o));
         ("items_processed", JInt (overall_items_processed o));
         ("coverage_percentage", JNum (overall_coverage_percentage o)) ].

Definition option_coverage_json (c : option coverage) : json :=
  match c with
  | Some cov => coverage_json cov
  | None => JNull
  end.

(** Lines 656-667. *)
Definition final_summary_json (E : env) (subreddit_name : string)
    (submission_results comment_results : list chunk_result)
    (o : overall) (submission_coverage comment_coverage : option coverage)
    (combined_analysis : string) : json :=
  JObj [ ("subreddit", JStr subreddit_name);
         ("analysis_date", JStr (today E));
         ("submissions_analyzed", JInt (posts_analyzed submission_results));
         ("comments_analyzed", JInt (posts_analyzed comment_results));
         ("coverage_data",
          JObj [ ("overall", overall_json o);
                 ("submissions", option_coverage_json submission_coverage);
                 ("comments", option_coverage_json comment_coverage) ]);
         ("combined_analysis", JStr combined_analysis) ].

(** Lines 593-670: the combined analysis. *)
Definition combine (E : env) (output_dir subreddit_name : string)
    (submission_results comment_results : list chunk_result)
    (o : overall) (submission_coverage comment_coverage : option coverage)
  : run unit :=
  let combined_dir := path_join output_dir "combined" in
  found ← path_exists E combined_dir;
  (if found : bool then mret () else makedirs combined_dir);;
  let submission_analyses :=
    analysis_paths output_dir "submissions" subreddit_name submission_results in
  let comment_analyses :=
    analysis_paths output_dir "comments" subreddit_name comment_results in
  all_analyses ← read_existing E (submission_analyses ++ comment_analyses) [];
  match all_analyses with
  | [] => mret ()
  | _ :: _ =>
      let combined_prompt := combined_prompt_text subreddit_name all_analyses in
      write_file (path_join combined_dir (subreddit_name +:+ "_combined_prompt.txt"))
        combined_prompt;;
      combined_analysis ← analyze_with_openai E combined_prompt;
      if falsy combined_analysis then mret ()
      else
        let text := default "" combined_analysis in
        write_file (path_join combined_dir
                      (subreddit_name +:+ "_combined_analysis.md")) text;;
        write_file (summary_file output_dir subreddit_name)
          (json_dump E (final_summary_json E subreddit_name submission_results
                          comment_results o submission_coverage comment_coverage
                          text))
  end.

Definition main (E : env) (a : args) : run unit :=
  if falsy (arg_submissions a) && falsy (arg_comments a) && falsy (arg_subreddit a)
  then raise SystemExit                  (* parser.error *)
  else
    let paths := archive_paths a in
    let subreddit_name := main_subreddit_name a in
    let output_dir := path_join (arg_output_dir a) subreddit_name in
    submission ← process_archive E paths.1 (path_join output_dir "submissions")
                   (arg_chunk_size a) (arg_max_chunks a) true;
    comment ← process_archive E paths.2 (path_join output_dir "comments")
                (arg_chunk_size a) (arg_max_chunks a) false;
    let submission_results := fst <$> (submission : option (list chunk_result * coverage)) in
    let submission_coverage := snd <$> submission in
    let comment_results := fst <$> (comment : option (list chunk_result * coverage)) in
    let comment_coverage := snd <$> comment in
    o ← lift (overall_coverage submission_coverage comment_coverage);
    match submission_results, comment_results with
    | Some (s :: srest), Some (c :: crest) =>
        combine E output_dir subreddit_name (s :: srest) (c :: crest) o
          submission_coverage comment_coverage
    | _, _ => mret ()
    end.

(** *** Vocabulary for the aggregator properties *)

(** The entries of [chunk_results] are successes of distinct chunks, in
    the order of the chunks: ordinals grow along the list, lie between
    [lo + 1] and [hi], and every analysis is a non-empty text. *)
Definition ordered_successes (lo hi : Z) (results : list chunk_result) : Prop :=
  StronglySorted Z.lt (chunk_id <$> results)
  ∧ Forall (λ r, lo < chunk_id r <= hi ∧ analysis r ≠ "") results.

(** ** Vocabulary for the further properties *)

(** The body of the loop of [format_content_for_ai], lines 142-167, on
    the list of texts gathered so far. *)
Definition format_step (is_submission : bool) (formatted_items : list string)
    (it : item) : result (list string) :=
  text ← format_item is_submission it;
  Ok (match text with
      | Some t => formatted_items ++ [t]
      | None => formatted_items
      end).

(** The timestamp of the item converts: line 103, 149 or 159 evaluates. *)
Definition dated (it : item) : Prop := ∃ t, created_time it = Ok t.

(** What the item adds to [total_score], lines 116-117. *)
Definition score_of (it : item) : Z :=
  match it !! "score" with
  | Some v => match py_int v with
              | Ok sc => sc
              | Raise _ => 0
              end
  | None => 0
  end.

(** The float is not negative: its sign bit is clear (NaN has none). *)
Definition not_negative (x : float) : Prop :=
  match x with
  | S754_zero s | S754_infinity s | S754_finite s _ _ => s = false
  | S754_nan => True
  end.

(** The prompt of a chunk, lines 383-390: its metadata and its formatted
    content under the prompt template. *)
Definition prompt_of (subreddit_name : string) (is_submission : bool)
    (chunk : list item) : result string :=
  md ← extract_metadata chunk;
  formatted_content ← format_content_for_ai chunk is_submission;
  Ok (prepare_ai_prompt subreddit_name formatted_content md).

(** ** The batch driver, [analyze_all_subreddits.py] *)

(** Lines 13-16. *)
Definition DATA_DIR : string := "reddit_feb_25/subreddits/".
Definition OUTPUT_DIR : string := "output".
Definition SCRIPT_PATH : string := "PushshiftDumps/analyze_ai/analyze_subreddit.py".
Definition MAX_CHUNKS : Z := 15.

(** Regular expressions, with the constructs the pattern of line 20 is
    made of. *)
Inductive regex :=
  | Lit (text : string)          (* literal characters *)
  | PlusNot (c : ascii)          (* [[^c]+], greedy *)
  | Alt (r1 r2 : regex)          (* [r1|r2] *)
  | Seq (r1 r2 : regex)          (* [r1] followed by [r2] *)
  | Group (r : regex).           (* [(r)], a capturing group *)

(** [s] without its prefix [t], when it starts with [t]. *)
Fixpoint strip_prefix (t s : string) : option string :=
  match t, s with
  | "", _ => Some s
  | String a t', String b s' =>
      if Ascii.eqb a b then strip_prefix t' s' else None
  | String _ _, "" => None
  end.

(** The ways [[^c]+] matches at the start of [s], as pairs of the text
    matched and the rest of the input: every non-empty prefix free of
    [c], the longest first. *)
Fixpoint runs (c : ascii) (s : string) : list (string * string) :=
  match s with
  | "" => []
  | String x s' =>
      if Ascii.eqb x c then []
      else ((λ m, (String x m.1, m.2)) <$> runs c s') ++ [(String x "", s')]
  end.

(** The ways [r] matches at the start of [s], in the order in which a
    backtracking matcher tries them; each with the text matched, the
    groups captured (in the order of their opening parentheses) and the
    rest of the input. *)
Fixpoint matches (r : regex) (s : string) : list (string * list string * string) :=
  match r with
  | Lit t => match strip_prefix t s with
             | Some rest => [(t, [], rest)]
             | None => []
             end
  | PlusNot c => (λ m, (m.1, [], m.2)) <$> runs c s
  | Alt r1 r2 => matches r1 s ++ matches r2 s
  | Seq r1 r2 =>
      m1 ← matches r1 s;
      (λ m2, (m1.1.1 +:+ m2.1.1, m1.1.2 ++ m2.1.2, m2.2)) <$> matches r2 m1.2
  | Group r' => (λ m, (m.1.1, m.1.1 :: m.1.2, m.2)) <$> matches r' s
  end.

(** [re.match(r, s)]: the groups of the first match at the start of [s],
    if there is one. *)
Definition re_match (r : regex) (s : string) : option (list string) :=
  (λ m, m.1.2) <$> head (matches r s).

(** Line 20: [([^_]+)_(submissions|comments)\.zst]. *)
Definition archive_pattern : regex :=
  Seq (Group (PlusNot "_"))
    (Seq (Lit "_")
       (Seq (Group (Alt (Lit "submissions") (Lit "comments"))) (Lit ".zst"))).

(** Lines 18-21: [match.group(1) if match else None]. *)
Definition get_subreddit_from_filename (filename : string) : option string :=
  groups ← re_match archive_pattern filename; groups !! 0%nat.

(** The order of [sorted()] on strings: code point by code point, which
    on UTF-8 text is byte by byte. *)
Definition string_le (a b : string) : Prop := String.leb a b = true.

#[global] Instance string_le_dec a b : Decision (string_le a b).
Proof. unfold string_le. apply _. Defined.

(** Lines 23-34.  [data_listing] is what [os.listdir(DATA_DIR)] gives,
    [None] when it raises [FileNotFoundError]. *)
Definition find_subreddits (data_listing : option (list string))
  : result (gset string) :=
  match data_listing with
  | Some filenames =>
      Ok (foldl (λ (subreddits : gset string) filename,
                   match get_subreddit_from_filename filename with
                   | Some subreddit =>
                       if bool_decide (subreddit = "") then subreddits
                       else subreddits ∪ {[subreddit]}
                   | None => subreddits
                   end) ∅ filenames)
  | None => Raise SystemExit                    (* sys.exit(1) *)
  end.

(** Lines 36-43.  [output_listing] is what [os.listdir(OUTPUT_DIR)]
    gives; the second component tells whether the directory had to be
    created. *)
Definition get_analyzed_subreddits (output_listing : option (list string))
  : gset string * bool :=
  match output_listing with
  | Some entries => (list_to_set entries, false)
  | None => (∅, true)
  end.

(** Lines 62-67: the command line of one run. *)
Definition command (subreddit : string) : list string :=
  [ "python3"; SCRIPT_PATH; "--subreddit"; subreddit; "--data-dir"; DATA_DIR;
    "--max-chunks"; pretty MAX_CHUNKS ].

(** Lines 45-70: the commands run, in order, each with whether it
    succeeded.  [exit_status] is the exit status of the child process;
    with [check=True] a status other than zero raises
    [CalledProcessError], which the loop catches. *)
Definition process_subreddits (data_listing output_listing : option (list string))
    (exit_status : list string → Z) : result (list (list string * bool)) :=
  all_subreddits ← find_subreddits data_listing;
  let analyzed_subreddits := (get_analyzed_subreddits output_listing).1 in
  let remaining := all_subreddits ∖ analyzed_subreddits in
  Ok ((λ subreddit, (command subreddit,
                     bool_decide (exit_status (command subreddit) = 0)))
        <$> merge_sort string_le (elements remaining)).

(** What the parser of [main] (lines 514-524) makes of such a command
    line, for a name that does not read as an option. *)
Definition driver_args (subreddit : string) : args :=
  {| arg_submissions := None; arg_comments := None;
     arg_subreddit := Some subreddit;
     arg_data_dir := DATA_DIR; arg_output_dir := "./output";
     arg_chunk_size := 100; arg_max_chunks := MAX_CHUNKS |}.

(** *** Vocabulary for the run without a credential *)

(** The archive at [file_path] takes the run as far as its first LLM
    call: it exists, the two passes and the coverage figure evaluate, the
    chunker hands over at least one chunk, and [prompt] is the prompt of
    the first one (lines 278-390). *)
Definition reaches_first_chunk (E : env) (file_path : string)
    (chunk_size max_chunks : Z) (is_submission : bool) (prompt : string) : Prop :=
  ∃ arch total read pct chunk rest,
    archives E !! file_path = Some arch
    ∧ estimate_total_items (st_size arch) (contents arch) = Ok total
    ∧ ingest (st_size arch) chunk_size max_chunks (contents arch) = Ok read
    ∧ coverage_pct read.2 total = Ok pct
    ∧ chunks_to_process read.1 chunk_size max_chunks = chunk :: rest
    ∧ prompt_of (subreddit_name_of file_path) is_submission chunk = Ok prompt.

(** The path gives the run no chunk to analyse: it is not given, or no
    archive is there, or the archive is read and the chunker hands over
    nothing. *)
Definition nothing_to_analyse (E : env) (path : option string)
    (chunk_size max_chunks : Z) : Prop :=
  falsy path = true
  ∨ archives E !! default "" path = None
  ∨ ∃ arch total read pct,
      archives E !! default "" path = Some arch
      ∧ estimate_total_items (st_size arch) (contents arch) = Ok total
      ∧ ingest (st_size arch) chunk_size max_chunks (contents arch) = Ok read
      ∧ coverage_pct read.2 total = Ok pct
      ∧ chunks_to_process read.1 chunk_size max_chunks = [].

(** *** Vocabulary for the combined prompt *)

(** The text is ASCII throughout; on such text [py_repr] is [repr]
    exactly. *)
Fixpoint ascii_text (s : string) : bool :=
  match s with
  | "" => true
  | String c s' => (nat_of_ascii c <? 128)%nat && ascii_text s'
  end.

(** The text holds printable ASCII characters only, and neither a
    backslash nor a single quote: what [repr] renders as it is. *)
Fixpoint plain_text (s : string) : bool :=
  match s with
  | "" => true
  | String c s' =>
      let n := nat_of_ascii c in
      (32 <=? n)%nat && (n <? 127)%nat && negb (Ascii.eqb c backslash)
        && negb (Ascii.eqb c single_quote) && plain_text s'
  end.

(** The value a JSON object holds under a key.  The dictionaries the
    script dumps are literals with distinct keys. *)
Fixpoint assoc (key : string) (members : list (string * json)) : option json :=
  match members with
  | [] => None
  | (k, v) :: rest => if bool_decide (k = key) then Some v else assoc key rest
  end.

Definition field (key : string) (j : json) : option json :=
  match j with
  | JObj members => assoc key members
  | _ => None
  end.

(** [j] is a per-type summary: it names the subreddit, counts the chunks
    and the posts analysed, carries the four coverage figures and the
    date, and holds [text] under [key]. *)
Definition summary_of (j : json) (name : string) (chunks posts : Z)
    (cov : coverage) (date key text : string) : Prop :=
  field "subreddit" j = Some (JStr name)
  ∧ field "chunks_analyzed" j = Some (JInt chunks)
  ∧ field "total_posts_analyzed" j = Some (JInt posts)
  ∧ (∃ c, field "coverage_data" j = Some c
       ∧ field "items_processed" c = Some (JInt (items_processed cov))
       ∧ field "total_items_estimate" c
         = Some (JInt (total_items_estimate cov))
       ∧ field "coverage_percentage" c = Some (JNum (coverage_percentage cov))
       ∧ field "file_size_bytes" c = Some (JInt (file_size_bytes cov)))
  ∧ field "analysis_date" j = Some (JStr date)
  ∧ field key j = Some (JStr text).

(** *** Vocabulary for the identifier *)

(** The file at [path] is not what it was. *)
Definition changed (w w' : world) (path : string) : Prop :=
  files w' !! path ≠ files w !! path.

(** Between [w] and [w'] every file that changed is one of [P], every
    request sent is one of [Q], and the file [s], if it changed, now
    has a content of [R]. *)
Definition done_with (P Q : string → Prop) (s : string)
    (R : option string → Prop) (w w' : world) : Prop :=
  (∀ path, changed w w' path → P path)
  ∧ (∃ new, requests w' = requests w ++ new ∧ Forall Q new)
  ∧ (changed w w' s → R (files w' !! s)).

(** The path is that of a file of [dir] whose name starts with [name]. *)
Definition names_file (dir name path : string) : Prop :=
  ∃ suffix, path = path_join dir (name +:+ suffix).

(** The prompt is one the pipeline of an archive builds for [name]: the
    prompt of a chunk or a meta prompt. *)
Definition names_request (name prompt : string) : Prop :=
  (∃ content md, prompt = prepare_ai_prompt name content md)
  ∨ (∃ count pct all_analyses,
       prompt = meta_prompt_text name count pct all_analyses).

(** The content is a dumped JSON object whose [subreddit] is [name]. *)
Definition names_summary (E : env) (name : string) (content : option string)
  : Prop :=
  ∃ j, content = Some (json_dump E j) ∧ field "subreddit" j = Some (JStr name).

(** Between [w] and [w'] all was done for [name] in [dir]: every file
    that changed is a file of [dir] named after [name], every request
    sent is a prompt built for [name], and the summary of [dir], if it
    changed, is a JSON object whose [subreddit] is [name]. *)
Definition done_under (E : env) (dir name : string) : world → world → Prop :=
  done_with (names_file dir name) (names_request name) (summary_file dir name)
    (names_summary E name).

(** A file of one of the two per-type directories of [main], named
    after the identifier of the archive of that type. *)
Definition per_type_file (a : args) (path : string) : Prop :=
  let output_dir := path_join (arg_output_dir a) (main_subreddit_name a) in
  (∃ p, (archive_paths a).1 = Some p
        ∧ names_file (path_join output_dir "submissions")
            (subreddit_name_of p) path)
  ∨ (∃ q, (archive_paths a).2 = Some q
          ∧ names_file (path_join output_dir "comments")
              (subreddit_name_of q) path).

(** A file [main] may write: a per-type file, a file of the combined
    directory named after the name [main] works under, or the final
    summary, named after it too. *)
Definition main_file (a : args) (path : string) : Prop :=
  let output_dir := path_join (arg_output_dir a) (main_subreddit_name a) in
  per_type_file a path
  ∨ names_file (path_join output_dir "combined") (main_subreddit_name a) path
  ∨ path = summary_file output_dir (main_subreddit_name a).

(** A request [main] may send: a prompt built for the identifier of one
    of the two archives, or the combined prompt, built for the name
    [main] works under. *)
Definition main_request (a : args) (prompt : string) : Prop :=
  (∃ p, (archive_paths a).1 = Some p
        ∧ names_request (subreddit_name_of p) prompt)
  ∨ (∃ q, (archive_paths a).2 = Some q
          ∧ names_request (subreddit_name_of q) prompt)
  ∨ ∃ all_analyses,
      prompt = combined_prompt_text (main_subreddit_name a) all_analyses.

(* ===================================================================== *)
(** * Part II: properties                                                 *)
(* ===================================================================== *)

(** ** The chunker *)

Lemma chunk_count_ceil n s :
  0 <= n → 0 < s →
  0 <= chunk_count n s ∧ (chunk_count n s - 1) * s < n <= chunk_count n s * s.
Proof.
  intros Hn Hs. unfold chunk_count.
  destruct (Z.ltb_spec 0 s) as [_|]; [|lia].
  pose proof (Z.div_mod (n + s - 1) s ltac:(lia)) as Hdm.
  pose proof (Z.mod_pos_bound (n + s - 1) s Hs) as Hb.
  split; [apply Z.div_pos; lia|].
  rewrite Z.mul_sub_distr_r, (Z.mul_comm _ s). lia.
Qed.

Lemma concat_batches {A} (items : list A) (s c : nat) :
  concat ((λ k, take s (drop (k * s)%nat items)) <$> seq 0 c)
  = take (c * s)%nat items.
Proof.
  induction c as [|c IH]; [done|].
  rewrite seq_S, fmap_app, concat_app, IH. simpl.
  rewrite app_nil_r, take_take_drop. f_equal. lia.
Qed.

Lemma take_batches {A} (items : list A) (s c j : nat) :
  (j <= c)%nat →
  take j ((λ k, take s (drop (k * s)%nat items)) <$> seq 0 c)
  = (λ k, take s (drop (k * s)%nat items)) <$> seq 0 j.
Proof.
  intros Hj. rewrite <- fmap_take. f_equal.
  replace c with (j + (c - j))%nat by lia.
  rewrite seq_app, take_app_length'; [done|]. by rewrite length_seq.
Qed.

Lemma chunks_to_process_prefix {A} (items : list A) s m :
  0 <= m →
  chunks_to_process items s m
  = (λ k, take (Z.to_nat s) (drop (k * Z.to_nat s)%nat items))
      <$> seq 0 (Z.to_nat (Z.min (chunk_count (len items) s) m)).
Proof.
  intros Hm. unfold chunks_to_process, py_slice_to.
  destruct (Z.leb_spec 0 m) as [_|]; [|lia].
  unfold chunk_list.
  destruct (Z.le_ge_cases (chunk_count (len items) s) m) as [Hle|Hle].
  - rewrite Z.min_l by done. apply take_ge.
    rewrite length_fmap, length_seq. lia.
  - rewrite Z.min_r by done. apply take_batches. lia.
Qed.

(** C4.  For a buffer of [n] items, a chunk size [s > 0] and a chunk cap
    [m] (a count, so not negative), the chunker yields [min(ceil(n/s), m)]
    batches, where [q = ceil(n/s)] is pinned down by
    [(q - 1) * s < n <= q * s]; batch [k] is the slice of the buffer that
    starts at offset [k * s], it holds [s] items unless it is the last
    one, which holds between [1] and [s]; the batches concatenated give
    the first [min(n, s * m)] items; and the batch sizes depend on the
    buffer only through its length. *)
Theorem chunker_batches {A} (items : list A) (s m : Z) :
  0 < s → 0 <= m →
  let n := len items in
  let cs := chunks_to_process items s m in
  (∃ q, (q - 1) * s < n <= q * s ∧ len cs = Z.min q m)
  ∧ (∀ (k : nat) c, cs !! k = Some c →
       c = take (Z.to_nat s) (drop (k * Z.to_nat s)%nat items)
       ∧ 0 < len c <= s
       ∧ ((k + 1 < length cs)%nat → len c = s))
  ∧ concat cs = take (Z.to_nat (Z.min n (s * m))) items
  ∧ (∀ items' : list A, len items' = n →
       length <$> chunks_to_process items' s m = length <$> cs).
Proof.
  intros Hs Hm n cs.
  assert (Hn : n = Z.of_nat (length items)) by done.
  pose proof (chunk_count_ceil n s ltac:(lia) Hs) as (Hq0 & Hq1 & Hq2).
  assert (Hcs : cs = (λ k, take (Z.to_nat s) (drop (k * Z.to_nat s)%nat items))
                       <$> seq 0 (Z.to_nat (Z.min (chunk_count n s) m)))
    by (apply chunks_to_process_prefix; done).
  assert (Hlen : length cs = Z.to_nat (Z.min (chunk_count n s) m))
    by (rewrite Hcs, length_fmap, length_seq; done).
  split; [|split; [|split]].
  - exists (chunk_count n s). split; [lia|]. unfold len. rewrite Hlen. lia.
  - intros k c Hk.
    assert (Hklt : (k < length cs)%nat) by (eapply lookup_lt_Some; done).
    rewrite Hcs, list_lookup_fmap in Hk.
    destruct (seq 0 _ !! k) as [j|] eqn:Hj; simpl in Hk; [|done].
    apply lookup_seq in Hj as [-> _]. injection Hk as <-.
    split; [done|].
    unfold len. rewrite length_take, length_drop.
    split; [nia|]. intros Hk1. nia.
  - rewrite Hcs, concat_batches.
    destruct (Z.le_ge_cases (chunk_count n s) m) as [Hle|Hle].
    + rewrite (Z.min_l _ m) by done.
      rewrite <- Z2Nat.inj_mul by lia.
      assert (chunk_count n s * s <= m * s)
        by (apply Z.mul_le_mono_nonneg_r; lia).
      rewrite !take_ge; [done| |]; lia.
    + rewrite (Z.min_r _ m) by done.
      rewrite <- Z2Nat.inj_mul by lia.
      assert (m * s <= chunk_count n s * s)
        by (apply Z.mul_le_mono_nonneg_r; lia).
      destruct (Z.le_gt_cases n (s * m)) as [Hnm|Hnm].
      * rewrite !take_ge; [done| |]; lia.
      * f_equal. lia.
  - intros items' Hn'. rewrite Hcs, chunks_to_process_prefix by done.
    rewrite Hn'. rewrite <- !list_fmap_compose.
    apply list_fmap_ext. intros _ k _. simpl.
    rewrite !length_take, !length_drop. unfold len in Hn'. lia.
Qed.

(** The end-to-end figure of the spec: 250 records, chunks of 100, at
    most 5 chunks, give three batches of 100, 100 and 50. *)
Lemma chunker_batches_witness :
  length <$> chunks_to_process (seq 0 250) 100 5 = [100; 100; 50]%nat
  ∧ concat (chunks_to_process (seq 0 250) 100 5) = seq 0 250.
Proof.
  pose proof (chunker_batches (seq 0 250) 100 5 ltac:(lia) ltac:(lia))
    as (_ & _ & Hcat & _).
  split; [vm_compute; reflexivity|].
  rewrite Hcat. vm_compute. reflexivity.
Defined.

(** ** The metadata extractor *)

Lemma bind_Ok {A B} (r : result A) (f : A → result B) b :
  r ≫= f = Ok b → ∃ a, r = Ok a ∧ f a = Ok b.
Proof. destruct r as [a|e]; [eauto | discriminate]. Qed.

Lemma scan_date_spec acc it acc1 :
  scan_date acc it = Ok acc1 →
  acc1 = match timestamp_of it with
         | Some t => widen acc t
         | None => acc
         end.
Proof.
  unfold scan_date, timestamp_of.
  destruct (created_time it) as [t|e]; [congruence|].
  destruct (caught_by _ e); [congruence | discriminate].
Qed.

Lemma scan_score_keeps acc it acc' :
  scan_score acc it = Ok acc' →
  acc_earliest acc' = acc_earliest acc
  ∧ acc_latest acc' = acc_latest acc
  ∧ acc_authors acc' = acc_authors acc.
Proof.
  unfold scan_score. destruct (has_key it "score"); [|by intros [= <-]].
  intros (sc & _ & [= <-])%bind_Ok. done.
Qed.

Lemma scan_author_dates acc it :
  acc_earliest (scan_author acc it) = acc_earliest acc
  ∧ acc_latest (scan_author acc it) = acc_latest acc.
Proof.
  unfold scan_author. destruct (it !! "author"); [|done].
  by case_bool_decide.
Qed.

Lemma scan_author_spec acc it a :
  a ∈ acc_authors (scan_author acc it)
  ↔ a ∈ acc_authors acc ∨ (it !! "author" = Some a ∧ (a ∉ excluded_authors)).
Proof.
  unfold scan_author. destruct (it !! "author") as [b|] eqn:Hb.
  - case_bool_decide as Hex; simpl.
    + rewrite elem_of_union, elem_of_singleton. naive_solver.
    + naive_solver.
  - naive_solver.
Qed.

Lemma widen_min acc t ts :
  is_min (acc_earliest acc) ts →
  is_min (acc_earliest (widen acc t)) (ts ++ [t]).
Proof.
  unfold widen, is_min; simpl.
  destruct (acc_earliest acc) as [e0|].
  - intros [Hin Hall]. destruct (Z.ltb_spec t e0).
    + split; [set_solver|]. apply Forall_app. split.
      * eapply Forall_impl; [done|]. intros; simpl in *; lia.
      * by apply Forall_singleton.
    + split; [set_solver|]. apply Forall_app. split; [done|].
      by apply Forall_singleton.
  - intros ->. split; [set_solver|]. by apply Forall_singleton.
Qed.

Lemma widen_max acc t ts :
  is_max (acc_latest acc) ts →
  is_max (acc_latest (widen acc t)) (ts ++ [t]).
Proof.
  unfold widen, is_max; simpl.
  destruct (acc_latest acc) as [l0|].
  - intros [Hin Hall]. destruct (Z.ltb_spec l0 t).
    + split; [set_solver|]. apply Forall_app. split.
      * eapply Forall_impl; [done|]. intros; simpl in *; lia.
      * apply Forall_singleton. lia.
    + split; [set_solver|]. apply Forall_app. split; [done|].
      apply Forall_singleton. lia.
  - intros ->. split; [set_solver|]. apply Forall_singleton. lia.
Qed.

(** What the loop of lines 100-117 maintains, for a loop started in any
    state [acc] whose date range covers the timestamps [ts0]. *)
Lemma scan_invariant chunk : ∀ acc acc' ts0,
  for_each scan_item acc chunk = Ok acc' →
  is_min (acc_earliest acc) ts0 → is_max (acc_latest acc) ts0 →
  is_min (acc_earliest acc') (ts0 ++ omap timestamp_of chunk)
  ∧ is_max (acc_latest acc') (ts0 ++ omap timestamp_of chunk)
  ∧ ∀ a, a ∈ acc_authors acc'
         ↔ a ∈ acc_authors acc
           ∨ ((a ∉ excluded_authors) ∧ ∃ it, it ∈ chunk ∧ it !! "author" = Some a).
Proof.
  induction chunk as [|it chunk IH]; intros acc acc' ts0 Hrun Hmin Hmax.
  - injection Hrun as <-. simpl. rewrite app_nil_r.
    split; [done|]. split; [done|]. set_solver.
  - simpl in Hrun. apply bind_Ok in Hrun as (acc2 & Hstep & Hrest).
    unfold scan_item in Hstep.
    apply bind_Ok in Hstep as (acc1 & Hdate & Hscore).
    apply scan_date_spec in Hdate.
    apply scan_score_keeps in Hscore as (He & Hl & Ha).
    destruct (scan_author_dates acc1 it) as [He1 Hl1].
    rewrite He1 in He. rewrite Hl1 in Hl.
    assert (Hauth : ∀ a, a ∈ acc_authors acc2
              ↔ a ∈ acc_authors acc
                ∨ (it !! "author" = Some a ∧ (a ∉ excluded_authors))).
    { intros a. rewrite Ha, scan_author_spec.
      destruct (timestamp_of it); subst acc1; done. }
    simpl. destruct (timestamp_of it) as [t|] eqn:Ht; subst acc1.
    + specialize (IH acc2 acc' (ts0 ++ [t]) Hrest).
      rewrite He, Hl in IH.
      destruct (IH (widen_min _ _ _ Hmin) (widen_max _ _ _ Hmax))
        as (H1 & H2 & H3).
      rewrite <- !app_assoc in H1, H2. simpl in H1, H2.
      split; [done|]. split; [done|].
      intros a. rewrite H3, Hauth. set_solver.
    + specialize (IH acc2 acc' ts0 Hrest).
      rewrite He, Hl in IH.
      destruct (IH Hmin Hmax) as (H1 & H2 & H3).
      split; [done|]. split; [done|].
      intros a. rewrite H3, Hauth. set_solver.
Qed.

Lemma extract_metadata_Ok chunk md :
  extract_metadata chunk = Ok md →
  ∃ acc, for_each scan_item meta_init chunk = Ok acc
    ∧ post_count md = len chunk
    ∧ date_earliest md = strftime_ymd <$> acc_earliest acc
    ∧ date_latest md = strftime_ymd <$> acc_latest acc
    ∧ authors md = elements (acc_authors acc)
    ∧ total_score md = acc_total_score acc
    ∧ unique_authors md = len (authors md).
Proof.
  unfold extract_metadata.
  intros (acc & Hacc & (avg & _ & [= <-])%bind_Ok)%bind_Ok.
  exists acc. done.
Qed.

Lemma scan_item_returns acc it :
  scannable it → ∃ acc', scan_item acc it = Ok acc'.
Proof.
  intros [Hdate Hscore]. unfold scan_item, scan_date.
  assert (Hsc : ∀ acc1, ∃ acc', scan_score acc1 it = Ok acc').
  { intros acc1. unfold scan_score.
    destruct (has_key it "score"); [|by eexists].
    destruct Hscore as [sc ->]; [done|]. by eexists. }
  destruct (created_time it) as [t|e]; [apply Hsc|].
  destruct (Hdate e eq_refl) as [-> | ->]; apply Hsc.
Qed.

(** The extractor returns on every chunk of scannable items whose mean
    score is representable. *)
Lemma scan_returns chunk : ∀ acc,
  Forall scannable chunk → ∃ acc', for_each scan_item acc chunk = Ok acc'.
Proof.
  induction chunk as [|it chunk IH]; intros acc Hall; [by eexists|].
  apply Forall_cons in Hall as [Hit Hall].
  destruct (scan_item_returns acc it Hit) as [acc1 Hacc1].
  simpl. rewrite Hacc1. by apply IH.
Qed.

Lemma extract_metadata_returns chunk :
  Forall scannable chunk →
  (∀ acc, for_each scan_item meta_init chunk = Ok acc → chunk ≠ [] →
     ∃ avg, int_truediv (acc_total_score acc) (len chunk) = Ok avg) →
  ∃ md, extract_metadata chunk = Ok md.
Proof.
  intros Hall Havg. unfold extract_metadata.
  destruct (scan_returns chunk meta_init Hall) as [acc Hacc].
  rewrite Hacc. simpl.
  destruct chunk as [|it chunk]; [by eexists|].
  destruct (Havg acc Hacc ltac:(done)) as [avg ->].
  destruct (0 <? _); by eexists.
Qed.

(** C9.  Whenever the extractor returns, neither [[deleted]] nor
    [AutoModerator] is among the stored authors, the stored list has no
    repetition and holds exactly the other authors met in the chunk, and
    [unique_authors] is the length of that list. *)
Theorem authors_exclude_sentinels (chunk : list item) (md : metadata) :
  extract_metadata chunk = Ok md →
  (VStr "[deleted]" ∉ authors md)
  ∧ (VStr "AutoModerator" ∉ authors md)
  ∧ unique_authors md = len (authors md)
  ∧ NoDup (authors md)
  ∧ ∀ a, a ∈ authors md
         ↔ (a ∉ excluded_authors) ∧ ∃ it, it ∈ chunk ∧ it !! "author" = Some a.
Proof.
  intros (acc & Hrun & _ & _ & _ & Hauth & _ & Hcount)%extract_metadata_Ok.
  destruct (scan_invariant chunk meta_init acc [] Hrun eq_refl eq_refl)
    as (_ & _ & Hset).
  assert (Hchar : ∀ a, a ∈ authors md
            ↔ (a ∉ excluded_authors)
              ∧ ∃ it, it ∈ chunk ∧ it !! "author" = Some a).
  { intros a. rewrite Hauth, elem_of_elements, Hset. simpl. set_solver. }
  repeat split.
  - intros [Hex _]%Hchar. apply Hex. unfold excluded_authors. set_solver.
  - intros [Hex _]%Hchar. apply Hex. unfold excluded_authors. set_solver.
  - done.
  - rewrite Hauth. apply NoDup_elements.
  - by apply Hchar.
  - by apply Hchar.
  - by apply Hchar.
Qed.

Lemma authors_exclude_sentinels_witness :
  let chunk : list item :=
    [ <["author" := VStr "AutoModerator"]> ∅;
      <["author" := VStr "alice"]> (<["score" := VInt 3]> ∅);
      <["author" := VStr "[deleted]"]> ∅;
      <["author" := VStr "alice"]> ∅ ] in
  ∃ md,
    extract_metadata chunk = Ok md
    ∧ authors md = [VStr "alice"]
    ∧ (VStr "[deleted]" ∉ authors md)
    ∧ unique_authors md = 1.
Proof.
  intros chunk.
  eexists. split; [vm_compute; reflexivity|].
  split; [reflexivity|].
  split; [|reflexivity].
  refine (proj1 (authors_exclude_sentinels chunk _ _)).
  vm_compute. reflexivity.
Defined.

(** C5, as the code has it.  Whenever the extractor returns, every item
    of the chunk is counted; the date range is the least and the greatest
    of the timestamps [timestamp_of] finds, formatted as dates.  An item
    whose [created_utc] is present but is not an integer in [int()]'s eyes
    brings no timestamp; an item without [created_utc] brings the
    default, timestamp 0. *)
Theorem date_range_over_converted (chunk : list item) (md : metadata) :
  extract_metadata chunk = Ok md →
  post_count md = len chunk
  ∧ (∃ e l,
       date_earliest md = strftime_ymd <$> e
       ∧ date_latest md = strftime_ymd <$> l
       ∧ is_min e (omap timestamp_of chunk)
       ∧ is_max l (omap timestamp_of chunk))
  ∧ (∀ it v e, it ∈ chunk → it !! "created_utc" = Some v →
       py_int v = Raise e → timestamp_of it = None)
  ∧ (∀ it, it ∈ chunk → it !! "created_utc" = None →
       timestamp_of it = Some 0).
Proof.
  intros (acc & Hrun & Hcount & He & Hl & _)%extract_metadata_Ok.
  destruct (scan_invariant chunk meta_init acc [] Hrun eq_refl eq_refl)
    as (Hmin & Hmax & _).
  split; [done|]. split; [by exists (acc_earliest acc), (acc_latest acc)|].
  split.
  - intros it v e _ Hv Hint. unfold timestamp_of, created_time, get.
    rewrite Hv, Hint. done.
  - intros it _ Hv. unfold timestamp_of, created_time, get.
    rewrite Hv. done.
Qed.

Lemma date_range_over_converted_witness :
  let chunk : list item :=
    [ <["created_utc" := VInt 1700000000]> ∅;
      <["created_utc" := VStr "n/a"]> ∅;
      <["created_utc" := VStr "951782400"]> ∅ ] in
  ∃ md,
    extract_metadata chunk = Ok md
    ∧ post_count md = 3
    ∧ date_earliest md = Some "2000-02-29"
    ∧ date_latest md = Some "2023-11-14".
Proof.
  intros chunk.
  eexists. split; [vm_compute; reflexivity|].
  split; [|split; reflexivity].
  refine (proj1 (date_range_over_converted chunk _ _)).
  vm_compute. reflexivity.
Defined.

(** C5 as stated fails: an item without [created_utc] is not left out of
    the date range.  Of the two items below only the first has a
    timestamp, yet the range of the pair starts in 1970, not in 2023. *)
Lemma missing_timestamp_enters_range :
  let dated : item := <["created_utc" := VInt 1700000000]> ∅ in
  let undated : item := <["author" := VStr "carol"]> ∅ in
  undated !! "created_utc" = None
  ∧ (date_earliest <$> extract_metadata [dated]) = Ok (Some "2023-11-14")
  ∧ (date_earliest <$> extract_metadata [dated; undated])
    = Ok (Some "1970-01-01")
  ∧ (date_earliest <$> extract_metadata [dated; undated])
    ≠ (date_earliest <$> extract_metadata [dated]).
Proof.
  vm_compute. repeat split; discriminate.
Qed.

(** ** The size estimator *)

Lemma count_yields l : ∀ fail total,
  for_yields (λ total _, Ok (Continue (total + 1))) total l fail
  = match fail with
    | Some e => Raise e
    | None => Ok (total + len l)
    end.
Proof.
  induction l as [|t l IH]; intros fail total; simpl.
  - destruct fail; [done|]. f_equal. unfold len. simpl. lia.
  - rewrite IH. destruct fail; [done|]. f_equal. unfold len. simpl. lia.
Qed.

Lemma count_items_spec src :
  count_items src = match failure src with
                    | Some e => Raise e
                    | None => Ok (len (yields src))
                    end.
Proof.
  unfold count_items, for_source. rewrite count_yields.
  destruct (failure src); done.
Qed.

(** The sampling loop, entered with [i] items already counted: it stops
    at the record that brings the count to 1000 and keeps the bytes
    consumed up to it; short of that it runs to the end of the source. *)
Lemma sample_yields l : ∀ fail i b,
  0 <= i < sample_size →
  for_yields (λ st t,
      let sample_items := st.1 + 1 in
      if sample_size <=? sample_items then Ok (Break (sample_items, t.2))
      else Ok (Continue (sample_items, st.2))) (i, b) l fail
  = match l !! Z.to_nat (sample_size - 1 - i) with
    | Some t => Ok (sample_size, t.2)
    | None => match fail with
              | Some e => Raise e
              | None => Ok (i + len l, b)
              end
    end.
Proof.
  unfold sample_size.
  induction l as [|t l IH]; intros fail i b Hi; simpl.
  - destruct fail; [done|]. f_equal. unfold len. simpl. f_equal. lia.
  - destruct (Z.leb_spec 1000 (i + 1)) as [Hge|Hlt].
    + replace (Z.to_nat (1000 - 1 - i)) with 0%nat by lia. simpl.
      do 2 f_equal. lia.
    + rewrite IH by lia.
      replace (Z.to_nat (1000 - 1 - i)) with (S (Z.to_nat (1000 - 1 - (i + 1))))
        by lia.
      simpl. destruct (l !! _); [done|]. destruct fail; [done|].
      do 2 f_equal. unfold len. simpl. lia.
Qed.

Lemma sample_pass_spec src :
  sample_pass src
  = match yields src !! 999%nat with
    | Some t => Ok (sample_size, t.2)
    | None => match failure src with
              | Some e => Raise e
              | None => Ok (len (yields src), 0)
              end
    end.
Proof.
  unfold sample_pass, for_source.
  rewrite sample_yields by (unfold sample_size; lia).
  replace (Z.to_nat (sample_size - 1 - 0)) with 999%nat by (vm_compute; done).
  done.
Qed.

Lemma estimate_short_sample file_size src :
  size_threshold <= file_size →
  yields src !! 999%nat = None → failure src = None →
  estimate_total_items file_size src = Ok (file_size / 500).
Proof.
  intros Hlarge Hshort Hok. unfold estimate_total_items.
  destruct (Z.ltb_spec file_size size_threshold); [lia|].
  rewrite sample_pass_spec, Hshort, Hok. simpl.
  by rewrite andb_false_r.
Qed.

(** C7, as the code has it.  Below 500 MiB, a pass that completes gives
    the exact count.  From 500 MiB on, when the archive yields a
    thousandth record and a positive number of bytes was consumed up to
    it, the estimate is [int((1000 / bytes) * file_size)] in binary64
    arithmetic; when the archive ends before its thousandth record, or no
    byte was consumed, the estimate is [file_size // 500]. *)
Theorem estimate_by_size (file_size : Z) (src : source) :
  (file_size < size_threshold → failure src = None →
     estimate_total_items file_size src = Ok (len (yields src)))
  ∧ (size_threshold <= file_size →
     ∀ t, yields src !! 999%nat = Some t → 0 < t.2 →
       estimate_total_items file_size src = extrapolate 1000 t.2 file_size)
  ∧ (size_threshold <= file_size →
     ∀ t, yields src !! 999%nat = Some t → t.2 <= 0 →
       estimate_total_items file_size src = Ok (file_size / 500))
  ∧ (size_threshold <= file_size →
     yields src !! 999%nat = None → failure src = None →
       estimate_total_items file_size src = Ok (file_size / 500)).
Proof.
  unfold estimate_total_items.
  repeat split.
  - intros Hsmall Hok. destruct (Z.ltb_spec file_size size_threshold); [|lia].
    by rewrite count_items_spec, Hok.
  - intros Hlarge t Ht Hpos.
    destruct (Z.ltb_spec file_size size_threshold); [lia|].
    rewrite sample_pass_spec, Ht. simpl.
    destruct (Z.ltb_spec 0 t.2); [done | lia].
  - intros Hlarge t Ht Hzero.
    destruct (Z.ltb_spec file_size size_threshold); [lia|].
    rewrite sample_pass_spec, Ht. simpl.
    destruct (Z.ltb_spec 0 t.2); [lia | done].
  - apply estimate_short_sample.
Qed.

(** An archive of 600 MiB whose thousandth record ends at byte 300000:
    the estimate is [int((1000 / 300000) * 629145600)]. *)
Lemma estimate_by_size_witness :
  let src := {| yields := (λ k, (∅, "", (Z.of_nat k + 1) * 300)) <$> seq 0 1200;
                failure := None |} in
  estimate_total_items 629145600 src = Ok 2097152.
Proof.
  intros src.
  pose proof (estimate_by_size 629145600 src) as (_ & Hlarge & _).
  rewrite (Hlarge ltac:(vm_compute; discriminate) (∅, "", 300000)
             ltac:(vm_compute; reflexivity) ltac:(simpl; lia)).
  vm_compute. reflexivity.
Defined.

(** C7 as stated fails: a 600 MiB archive of two records has no
    thousandth record to extrapolate from; the estimate is the file size
    over 500, where extrapolating from the two records read would give
    2. *)
Lemma short_archive_not_extrapolated :
  let src := {| yields := [(∅, "", 300000000); (∅, "", 629145600)];
                failure := None |} in
  size_threshold <= 629145600
  ∧ yields src !! 999%nat = None
  ∧ estimate_total_items 629145600 src = Ok 1258291
  ∧ extrapolate 2 629145600 629145600 = Ok 2.
Proof.
  vm_compute. repeat split. discriminate.
Qed.

Lemma process_missing_archive E file_path output_dir chunk_size max_chunks
    is_submission w :
  archives E !! file_path = None →
  process_subreddit_file E file_path output_dir chunk_size max_chunks
    is_submission w = (Ok None, w).
Proof. intros Hnone. unfold process_subreddit_file. by rewrite Hnone. Qed.

Lemma estimate_below_threshold (file_size : Z) (src : source) :
  file_size < size_threshold →
  (failure src = None → estimate_total_items file_size src = Ok (len (yields src)))
  ∧ (∀ e, failure src = Some e → is_Exception e = true →
       estimate_total_items file_size src = Ok (file_size / 500))
  ∧ (∀ e, failure src = Some e → is_Exception e = false →
       estimate_total_items file_size src = Raise e).
Proof.
  intros Hsmall. unfold estimate_total_items.
  destruct (Z.ltb_spec file_size size_threshold); [|lia].
  rewrite count_items_spec.
  repeat split; [intros -> | intros e -> -> | intros e -> ->]; done.
Qed.

(** The reading loop of lines 340-352 over a source that breaks before
    the cap is reached: the exception of the source leaves the loop. *)
Lemma ingest_loop_fails file_size cap e l : ∀ acc n,
  0 <= n → n + len l < 10000 → l = [] ∨ n + len l < cap →
  for_yields (λ st t,
      let all_items := st.1 ++ [t.1.1] in
      let items_processed := st.2 + 1 in
      _ ← (if items_processed mod 10000 =? 0
           then ratio ← int_truediv t.2 file_size; float_mul_int ratio 100
           else Ok (S754_zero false));
      if cap <=? items_processed
      then Ok (Break (all_items, items_processed))
      else Ok (Continue (all_items, items_processed)))
    (acc, n) l (Some e) = Raise e.
Proof.
  induction l as [|t l IH]; intros acc n Hn Hlen Hcap; [done|].
  assert (Hcons : len (t :: l) = len l + 1) by (unfold len; simpl; lia).
  rewrite Hcons in Hlen. destruct Hcap as [?|Hcap]; [done|].
  rewrite Hcons in Hcap. cbn [for_yields fst snd].
  assert (Hmod : ((n + 1) mod 10000 =? 0) = false).
  { apply Z.eqb_neq. rewrite Z.mod_small; unfold len in *; lia. }
  rewrite Hmod. cbn [mbind result_bind].
  destruct (Z.leb_spec cap (n + 1)); [unfold len in *; lia|].
  apply IH; [lia | lia | right; lia].
Qed.

Lemma ingest_fails file_size chunk_size max_chunks src e :
  failure src = Some e →
  len (yields src) < Z.max 1 (chunk_size * max_chunks) →
  len (yields src) < 10000 →
  ingest file_size chunk_size max_chunks src = Raise e.
Proof.
  intros He Hcap Hlen. unfold ingest, for_source. rewrite He.
  apply ingest_loop_fails; [lia | lia |].
  destruct (yields src) as [|t l]; [by left|]. right.
  assert (0 < len (t :: l)) by (unfold len; simpl; lia). lia.
Qed.

(** What [process_subreddit_file] does up to its second pass, for an
    archive that exists: nothing but seeing to the output directory. *)
Lemma process_until_read E file_path output_dir chunk_size max_chunks
    is_submission arch e w :
  archives E !! file_path = Some arch →
  (estimate_total_items (st_size arch) (contents arch) = Raise e
   ∨ (∃ n, estimate_total_items (st_size arch) (contents arch) = Ok n)
     ∧ ingest (st_size arch) chunk_size max_chunks (contents arch) = Raise e) →
  ∃ w', process_subreddit_file E file_path output_dir chunk_size max_chunks
          is_submission w = (Raise e, w')
    ∧ files w' = files w ∧ requests w' = requests w.
Proof.
  intros Harch Hfail. unfold process_subreddit_file. rewrite Harch.
  unfold mbind at 1, run_bind at 1, path_exists. cbv beta iota.
  set (found := _ || _ || _).
  assert (Hdir : ∃ w1, (if found then mret () else makedirs output_dir) w
                       = (Ok (), w1)
                       ∧ files w1 = files w ∧ requests w1 = requests w).
  { destruct found; eexists; (split; [reflexivity|done]). }
  destruct Hdir as (w1 & Hdir & Hf1 & Hr1).
  unfold mbind at 1, run_bind at 1. rewrite Hdir.
  unfold mbind at 1, run_bind at 1, lift at 1.
  destruct Hfail as [-> | [[n ->] Hread]]; [by exists w1|].
  unfold mbind at 1, run_bind at 1, lift at 1. rewrite Hread. by exists w1.
Qed.

(** C8.  A read failure during the estimate is recovered from on one of
    its two paths only.  Below 500 MiB the counting pass sits in a
    handler and the estimate falls back to [file_size // 500]; from
    500 MiB on the sampling pass has none, so the same failure, met
    before the thousandth record, leaves the estimator and
    [process_subreddit_file] as an exception, with nothing written.
    (Below the threshold the run gets past the estimate, and the second
    pass, which has no handler either, then meets the same failure
    unless the read cap comes first.) *)
Theorem sampling_failure_is_fatal (E : env) (file_path output_dir : string)
    (chunk_size max_chunks : Z) (is_submission : bool) (arch : archive)
    (e : exn) (w : world) :
  archives E !! file_path = Some arch →
  failure (contents arch) = Some e → is_Exception e = true →
  yields (contents arch) !! 999%nat = None →
  let run := process_subreddit_file E file_path output_dir chunk_size
               max_chunks is_submission w in
  (st_size arch < size_threshold →
     estimate_total_items (st_size arch) (contents arch)
     = Ok (st_size arch / 500))
  ∧ (size_threshold <= st_size arch →
     estimate_total_items (st_size arch) (contents arch) = Raise e
     ∧ run.1 = Raise e ∧ files run.2 = files w ∧ requests run.2 = requests w)
  ∧ (st_size arch < size_threshold →
     len (yields (contents arch)) < Z.max 1 (chunk_size * max_chunks) →
     run.1 = Raise e ∧ files run.2 = files w ∧ requests run.2 = requests w).
Proof.
  intros Harch He Hexc Hshort run.
  assert (Hlen : len (yields (contents arch)) < 10000).
  { apply lookup_ge_None in Hshort. unfold len. lia. }
  split; [|split].
  - intros Hsmall.
    by destruct (estimate_below_threshold (st_size arch) (contents arch) Hsmall)
      as (_ & Hfall & _); apply (Hfall e).
  - intros Hlarge.
    assert (Hest : estimate_total_items (st_size arch) (contents arch) = Raise e).
    { unfold estimate_total_items.
      destruct (Z.ltb_spec (st_size arch) size_threshold); [lia|].
      by rewrite sample_pass_spec, Hshort, He. }
    split; [done|].
    destruct (process_until_read E file_path output_dir chunk_size max_chunks
                is_submission arch e w Harch (or_introl Hest))
      as (w' & Hrun & Hfiles & Hreq).
    subst run. by rewrite Hrun.
  - intros Hsmall Hcap.
    destruct (estimate_below_threshold (st_size arch) (contents arch) Hsmall)
      as (_ & Hfall & _).
    destruct (process_until_read E file_path output_dir chunk_size max_chunks
                is_submission arch e w Harch) as (w' & Hrun & Hfiles & Hreq).
    { right. split; [eexists; by apply (Hfall e)|]. by apply ingest_fails. }
    subst run. by rewrite Hrun.
Qed.

(** The failing input: a 600 MiB archive whose decoding breaks after one
    record.  The estimate, [process_subreddit_file] and [main] all end
    in the exception of the decoder; the same archive at 123456 bytes is
    estimated at 246 records. *)
Lemma sampling_failure_is_fatal_witness :
  let src := {| yields := [(∅, "", 4096)]; failure := Some ReadError |} in
  let E := {| OPENAI_API_KEY := Some "sk-live";
              archives := {[ "data/books_comments.zst" :=
                               {| st_size := 629145600; contents := src |} ]};
              completion := λ _ _, Some "analysis"; today := "2025-03-01";
              json_dump := λ _, "{}" |} in
  let a := {| arg_submissions := None;
              arg_comments := Some "data/books_comments.zst";
              arg_subreddit := None; arg_data_dir := "."; arg_output_dir := "out";
              arg_chunk_size := 100; arg_max_chunks := 5 |} in
  let w := {| files := ∅; dirs := ∅; requests := [] |} in
  estimate_total_items 629145600 src = Raise ReadError
  ∧ (process_subreddit_file E "data/books_comments.zst" "out/books/comments"
       100 5 false w).1 = Raise ReadError
  ∧ (main E a w).1 = Raise ReadError
  ∧ estimate_total_items 123456 src = Ok 246.
Proof.
  intros src E a w.
  destruct (sampling_failure_is_fatal E "data/books_comments.zst"
              "out/books/comments" 100 5 false
              {| st_size := 629145600; contents := src |} ReadError w
              eq_refl eq_refl eq_refl eq_refl) as (_ & Hlarge & _).
  destruct Hlarge as (Hest & Hrun & _); [by vm_compute|].
  split; [exact Hest|]. split; [exact Hrun|].
  split; vm_compute; reflexivity.
Defined.

(** ** Coverage *)

Lemma int_truediv_no_zero_division a b :
  b ≠ 0 → int_truediv a b ≠ Raise ZeroDivisionError.
Proof.
  intros Hb. unfold int_truediv.
  destruct (Z.eqb_spec b 0); [done|].
  destruct (a =? 0); [done|].
  destruct (SFdiv _ _ _ _); done.
Qed.

Lemma float_mul_int_no_zero_division x z :
  float_mul_int x z ≠ Raise ZeroDivisionError.
Proof.
  unfold float_mul_int, float_of_int.
  destruct (binary_normalize _ _ _ _ _); done.
Qed.

Lemma coverage_pct_no_zero_division items est :
  coverage_pct items est ≠ Raise ZeroDivisionError.
Proof.
  unfold coverage_pct. destruct (Z.ltb_spec 0 est) as [Hpos|]; [|done].
  pose proof (int_truediv_no_zero_division items est ltac:(lia)) as Hdiv.
  destruct (int_truediv items est) as [ratio|e]; simpl; [|congruence].
  pose proof (float_mul_int_no_zero_division ratio 100) as Hmul.
  destruct (float_mul_int ratio 100); simpl; congruence.
Qed.

Lemma overall_coverage_spec sub com o :
  overall_coverage (Some sub) (Some com) = Ok o →
  ∃ pct,
    coverage_pct (items_processed sub + items_processed com)
      (total_items_estimate sub + total_items_estimate com) = Ok pct
    ∧ o = {| overall_total_items_estimate :=
               total_items_estimate sub + total_items_estimate com;
             overall_items_processed :=
               items_processed sub + items_processed com;
             overall_coverage_percentage := round2_num pct |}.
Proof.
  unfold overall_coverage, add_coverage, coverage_pct.
  cbn [fst snd]. rewrite !Z.add_0_l.
  destruct (0 <? _).
  - intros (pct & Hpct & [= <-])%bind_Ok.
    apply bind_Ok in Hpct as (ratio & Hratio & Hpct).
    apply bind_Ok in Hpct as (product & Hproduct & [= <-]).
    rewrite Hratio. cbn [mbind result_bind]. rewrite Hproduct.
    by eexists.
  - intros (pct & [= <-] & [= <-])%bind_Ok. by eexists.
Qed.

(** C6, as the code has it.  The stored percentage is 0 when the
    estimate is not positive, and otherwise
    [(items_processed / total_items_estimate) * 100] rounded to two
    decimals; no division by zero is ever attempted.  The overall figures
    are the sums of the two archives' counts, and the overall percentage
    is the two-decimal rounding of the percentage of the sums. *)
Theorem coverage_from_counts (items est size : Z) (sub com : coverage) :
  (est <= 0 →
     coverage_pct items est = Ok (NInt 0)
     ∧ coverage_percentage (file_coverage items est (NInt 0) size) = NInt 0)
  ∧ (0 < est → ∀ pct, coverage_pct items est = Ok pct →
     ∃ ratio product,
       int_truediv items est = Ok ratio
       ∧ float_mul_int ratio 100 = Ok product
       ∧ coverage_percentage (file_coverage items est pct size)
         = NFloat (round2 product))
  ∧ coverage_pct items est ≠ Raise ZeroDivisionError
  ∧ (∀ o, overall_coverage (Some sub) (Some com) = Ok o →
       overall_items_processed o = items_processed sub + items_processed com
       ∧ overall_total_items_estimate o
         = total_items_estimate sub + total_items_estimate com
       ∧ ∃ pct,
           coverage_pct (items_processed sub + items_processed com)
             (total_items_estimate sub + total_items_estimate com) = Ok pct
           ∧ overall_coverage_percentage o = round2_num pct).
Proof.
  split; [|split; [|split]].
  - intros Hest. unfold coverage_pct.
    destruct (Z.ltb_spec 0 est); [lia | done].
  - intros Hpos pct. unfold coverage_pct.
    destruct (Z.ltb_spec 0 est); [|lia].
    intros (ratio & Hratio & Hmul)%bind_Ok.
    destruct (float_mul_int ratio 100) as [product|] eqn:Hproduct; [|done].
    injection Hmul as <-. by exists ratio, product.
  - apply coverage_pct_no_zero_division.
  - intros o (pct & Hpct & ->)%overall_coverage_spec. simpl. eauto.
Qed.

(** One post out of an estimated three is stored as 33.33; a full and a
    one-third coverage combine to 50.0, the percentage of the sums, not
    to the mean of the two percentages. *)
Lemma coverage_from_counts_witness :
  let third := S754_finite false 4690780486883082 (-47) in
  let sub := file_coverage 1 1 (NFloat (S754_finite false 7036874417766400 (-46))) 10 in
  let com := file_coverage 1 3 (NFloat third) 10 in
  coverage_percentage com = NFloat third
  ∧ overall_coverage_percentage
      <$> overall_coverage (Some sub) (Some com)
    = Ok (NFloat (S754_finite false 7036874417766400 (-47))).
Proof.
  intros third sub com.
  pose proof (coverage_from_counts 1 3 10 sub com) as (_ & Hpos & _ & Hsum).
  destruct (Hpos ltac:(lia) _ ltac:(vm_compute; reflexivity))
    as (ratio & product & _ & _ & _).
  split; vm_compute; reflexivity.
Defined.

(** C6 as stated fails: for one item out of an estimated three the
    stored percentage is 33.33 (the double nearest to 3333/100); it is
    neither the exact ratio 100/3 nor what [100 * 1 / 3] or
    [(1 / 3) * 100] give in binary64. *)
Lemma stored_percentage_is_rounded :
  ∃ pct x,
    coverage_pct 1 3 = Ok pct
    ∧ coverage_percentage (file_coverage 1 3 pct 2048) = NFloat x
    ∧ Ok x = int_truediv 3333 100
    ∧ ¬ is_ratio x 100 3
    ∧ Ok x ≠ int_truediv 100 3
    ∧ NFloat x ≠ pct.
Proof.
  eexists _, _. split; [vm_compute; reflexivity|].
  split; [vm_compute; reflexivity|].
  vm_compute. repeat split; discriminate.
Qed.

(** ** The run without a credential *)

(** Unfolds the plumbing of [run] in a hypothesis and splits on every
    intermediate outcome. *)
Ltac run_cases H :=
  unfold mbind, run_bind, mret, run_ret, lift, raise in H;
  repeat (case_match; simplify_eq/=; try done).

Lemma process_chunk_no_key E output_dir name is_submission i chunk acc w r w' :
  falsy (OPENAI_API_KEY E) = true →
  process_chunk E output_dir name is_submission i chunk acc w = (r, w') →
  (∃ e, r = Raise e)
  ∧ requests w' = requests w
  ∧ dirs w' = dirs w
  ∧ (files w' = files w
     ∨ (r = Raise ValueError
        ∧ ∃ prompt,
            files w' = <[chunk_file output_dir name (i + 1) "_prompt.txt" := prompt]>
                         (files w))).
Proof.
  intros Hkey Hrun. unfold process_chunk, analyze_with_openai in Hrun.
  rewrite Hkey in Hrun. unfold write_file in Hrun.
  run_cases Hrun; eauto 10.
Qed.

Lemma process_chunks_no_key E output_dir name is_submission i chunks acc w r w' :
  falsy (OPENAI_API_KEY E) = true →
  process_chunks E output_dir name is_submission i chunks acc w = (r, w') →
  requests w' = requests w
  ∧ dirs w' = dirs w
  ∧ ((chunks = [] ∧ r = Ok acc ∧ files w' = files w)
     ∨ (chunks ≠ [] ∧ ∃ e, r = Raise e ∧ files w' = files w)
     ∨ (chunks ≠ [] ∧ r = Raise ValueError
        ∧ ∃ prompt,
            files w' = <[chunk_file output_dir name (i + 1) "_prompt.txt" := prompt]>
                         (files w))).
Proof.
  intros Hkey. destruct chunks as [|chunk rest]; simpl.
  - unfold mret, run_ret. intros [= <- <-]. eauto 10.
  - unfold mbind, run_bind.
    destruct (process_chunk _ _ _ _ _ _ _ _) as [r1 w1] eqn:Hchunk.
    destruct (process_chunk_no_key _ _ _ _ _ _ _ _ _ _ Hkey Hchunk)
      as ((e & ->) & Hreq & Hdirs & Hfiles).
    intros [= <- <-]. split; [done|]. split; [done|].
    destruct Hfiles as [Hsame|(Hval & prompt & Hprompt)].
    + right. left. eauto.
    + right. right. eauto.
Qed.

Lemma run_bind_inv {A B} (m : run A) (f : A → run B) w r w' :
  (m ≫= f) w = (r, w') →
  (∃ a w1, m w = (Ok a, w1) ∧ f a w1 = (r, w'))
  ∨ (∃ e, m w = (Raise e, w') ∧ r = Raise e).
Proof.
  unfold mbind, run_bind. destruct (m w) as [[a|e] w1]; [eauto|].
  intros [= <- <-]. eauto.
Qed.

Lemma lift_inv {A} (x : result A) w r w' :
  lift x w = (r, w') → r = x ∧ w' = w.
Proof. by intros [= <- <-]. Qed.

(** Without a credential [process_subreddit_file] sends nothing; it
    writes nothing at all, or the prompt of its first chunk, after which
    the client raises [ValueError]; it returns normally only when the
    archive is missing or no chunk was analysed. *)
Lemma process_without_credential (E : env) (file_path output_dir : string)
    (chunk_size max_chunks : Z) (is_submission : bool) (w w' : world)
    (r : result (option (list chunk_result * coverage))) :
  falsy (OPENAI_API_KEY E) = true →
  process_subreddit_file E file_path output_dir chunk_size max_chunks
    is_submission w = (r, w') →
  requests w' = requests w
  ∧ (files w' = files w
     ∨ (r = Raise ValueError
        ∧ ∃ prompt,
            files w' = <[chunk_file output_dir (subreddit_name_of file_path) 1
                           "_prompt.txt" := prompt]> (files w)))
  ∧ (∀ x, r = Ok x →
       files w' = files w ∧ (x = None ∨ ∃ cov, x = Some ([], cov)))
  ∧ dirs w' ⊆ dirs w ∪ list_to_set (ancestors output_dir) ∪ {[output_dir]}.
Proof.
  intros Hkey. unfold process_subreddit_file.
  destruct (archives E !! file_path) as [arch|].
  2:{ unfold mret, run_ret. intros [= <- <-].
      repeat split; eauto; set_solver. }
  intros Hrun.
  apply run_bind_inv in Hrun as [(found & w0 & Hfound & Hrun)|(e & Hfound & _)];
    [|discriminate].
  injection Hfound as <- <-.
  apply run_bind_inv in Hrun as [([] & w1 & Hdir & Hrun)|(e & Hdir & ->)].
  2:{ exfalso. revert Hdir. unfold makedirs, mret, run_ret.
      destruct (_ || _); discriminate. }
  assert (Hw1 : files w1 = files w ∧ requests w1 = requests w
                ∧ dirs w1 ⊆ dirs w ∪ list_to_set (ancestors output_dir)
                            ∪ {[output_dir]}).
  { revert Hdir. unfold makedirs, mret, run_ret.
    destruct (_ || _); intros [= <-]; simpl; repeat split; set_solver. }
  destruct Hw1 as (Hf1 & Hr1 & Hd1). clear Hdir.
  apply run_bind_inv in Hrun as [(estimate & ? & [_ ->]%lift_inv & Hrun)
                                |(e & [_ ->]%lift_inv & ->)].
  2:{ rewrite Hf1, Hr1. repeat split; eauto; done. }
  apply run_bind_inv in Hrun as [(read & ? & [_ ->]%lift_inv & Hrun)
                                |(e & [_ ->]%lift_inv & ->)].
  2:{ rewrite Hf1, Hr1. repeat split; eauto; done. }
  apply run_bind_inv in Hrun as [(pct & ? & [_ ->]%lift_inv & Hrun)
                                |(e & [_ ->]%lift_inv & ->)].
  2:{ rewrite Hf1, Hr1. repeat split; eauto; done. }
  apply run_bind_inv in Hrun as [(results & w2 & Hchunks & Hrun)
                                |(e & Hchunks & ->)].
  - destruct (process_chunks_no_key _ _ _ _ _ _ _ _ _ _ Hkey Hchunks)
      as (Hr2 & Hd2 & Hcases).
    destruct Hcases as [(_ & [= ->] & Hf2)|[(_ & e & ? & _)|(_ & ? & _)]];
      [|done|done].
    simpl in Hrun. unfold mbind, run_bind, mret, run_ret in Hrun.
    injection Hrun as <- <-.
    rewrite Hf2, Hr2, Hf1, Hr1, Hd2. repeat split; eauto.
    simplify_eq. eauto.
  - destruct (process_chunks_no_key _ _ _ _ _ _ _ _ _ _ Hkey Hchunks)
      as (Hr2 & Hd2 & Hcases).
    rewrite Hr2, Hr1, Hd2. split; [done|].
    destruct Hcases as [(_ & ? & _)|[(_ & e' & [= ->] & Hf2)
                                    |(_ & [= ->] & prompt & Hf2)]]; [done| |].
    + rewrite Hf2, Hf1. repeat split; eauto; done.
    + rewrite Hf2, Hf1. split; [right; eauto|]. split; [done|done].
Qed.

Lemma process_archive_without_credential E path output_dir chunk_size
    max_chunks is_submission w r w' :
  falsy (OPENAI_API_KEY E) = true →
  process_archive E path output_dir chunk_size max_chunks is_submission w
    = (r, w') →
  requests w' = requests w
  ∧ (files w' = files w
     ∨ (r = Raise ValueError
        ∧ ∃ prompt,
            files w' = <[chunk_file output_dir
                           (subreddit_name_of (default "" path)) 1
                           "_prompt.txt" := prompt]> (files w)))
  ∧ (∀ x, r = Ok x →
       files w' = files w ∧ (x = None ∨ ∃ cov, x = Some ([], cov))).
Proof.
  intros Hkey. unfold process_archive.
  destruct (falsy path).
  { intros [= <- <-]. repeat split; eauto. intros; simplify_eq; eauto. }
  destruct (archives E !! default "" path).
  2:{ intros [= <- <-]. repeat split; eauto. intros; simplify_eq; eauto. }
  intros [(returned & w1 & Hrun & Hret)|(e & Hrun & ->)]%run_bind_inv.
  - destruct (process_without_credential _ _ _ _ _ _ _ _ _ Hkey Hrun)
      as (Hreq & _ & Hok & _).
    destruct (Hok _ eq_refl) as [Hfiles Hshape].
    destruct returned as [unpacked|]; injection Hret as <- <-.
    + split; [done|]. split; [by left|]. intros x [= <-]. done.
    + split; [done|]. split; [by left|]. done.
  - destruct (process_without_credential _ _ _ _ _ _ _ _ _ Hkey Hrun)
      as (Hreq & Hfiles & _ & _).
    split; [done|]. split; [|done].
    destruct Hfiles as [?|([= ->] & ?)]; eauto.
Qed.

(** The pipeline of one archive without a credential, when the archive
    gets it to the first LLM call: the prompt of the first chunk is
    saved and the client raises. *)
Lemma process_first_chunk_no_key E file_path output_dir chunk_size max_chunks
    is_submission prompt w :
  falsy (OPENAI_API_KEY E) = true →
  reaches_first_chunk E file_path chunk_size max_chunks is_submission prompt →
  ∃ w', process_subreddit_file E file_path output_dir chunk_size max_chunks
          is_submission w = (Raise ValueError, w')
    ∧ requests w' = requests w
    ∧ files w' = <[chunk_file output_dir (subreddit_name_of file_path) 1
                     "_prompt.txt" := prompt]> (files w).
Proof.
  intros Hkey (arch & total & read & pct & chunk & rest
               & Harch & Htotal & Hread & Hpct & Hchunks & Hprompt).
  unfold process_subreddit_file. rewrite Harch.
  unfold mbind at 1, run_bind at 1, path_exists. cbv beta iota.
  set (found := _ || _ || _).
  assert (Hdir : ∃ w1, (if found then mret () else makedirs output_dir) w
                       = (Ok (), w1)
                       ∧ files w1 = files w ∧ requests w1 = requests w).
  { destruct found; eexists; (split; [reflexivity|done]). }
  destruct Hdir as (w1 & Hdir & Hf1 & Hr1).
  unfold mbind at 1, run_bind at 1. rewrite Hdir.
  unfold mbind at 1, run_bind at 1, lift at 1. rewrite Htotal.
  unfold mbind at 1, run_bind at 1, lift at 1. rewrite Hread.
  unfold mbind at 1, run_bind at 1, lift at 1. rewrite Hpct.
  unfold mbind at 1, run_bind at 1. rewrite Hchunks.
  cbn [process_chunks]. unfold mbind at 1, run_bind at 1.
  unfold prompt_of in Hprompt.
  apply bind_Ok in Hprompt as (md & Hmd & Hprompt).
  apply bind_Ok in Hprompt as (content & Hcontent & [= <-]).
  unfold process_chunk, analyze_with_openai. rewrite Hkey.
  unfold mbind, run_bind, lift, write_file, raise. rewrite Hmd, Hcontent.
  cbn [files dirs requests]. eexists. split; [reflexivity|].
  cbn [files requests]. by rewrite Hf1, Hr1.
Qed.

(** The pipeline of one archive, when there is no chunk to analyse: it
    returns, with or without a credential, and writes and sends
    nothing. *)
Lemma process_archive_nothing E path output_dir chunk_size max_chunks
    is_submission w :
  nothing_to_analyse E path chunk_size max_chunks →
  ∃ x w', process_archive E path output_dir chunk_size max_chunks
            is_submission w = (Ok x, w')
    ∧ files w' = files w ∧ requests w' = requests w
    ∧ (x = None ∨ ∃ cov, x = Some ([], cov)).
Proof.
  intros Hnothing. unfold process_archive.
  destruct (falsy path) eqn:Hpath; [by eexists _, _; eauto|].
  destruct Hnothing as [?|[Hnone|Hempty]]; [congruence| |].
  { rewrite Hnone. by eexists _, _; eauto. }
  destruct Hempty as (arch & total & read & pct
                      & Harch & Htotal & Hread & Hpct & Hchunks).
  rewrite Harch. unfold process_subreddit_file. rewrite Harch.
  unfold mbind at 1 2, run_bind at 1 2, path_exists. cbv beta iota.
  set (found := _ || _ || _).
  assert (Hdir : ∃ w1, (if found then mret () else makedirs output_dir) w
                       = (Ok (), w1)
                       ∧ files w1 = files w ∧ requests w1 = requests w).
  { destruct found; eexists; (split; [reflexivity|done]). }
  destruct Hdir as (w1 & Hdir & Hf1 & Hr1).
  unfold mbind at 1, run_bind at 1. rewrite Hdir.
  unfold mbind at 1, run_bind at 1, lift at 1. rewrite Htotal.
  unfold mbind at 1, run_bind at 1, lift at 1. rewrite Hread.
  unfold mbind at 1, run_bind at 1, lift at 1. rewrite Hpct.
  unfold mbind at 1, run_bind at 1. rewrite Hchunks.
  cbn. eexists _, w1. split; [reflexivity|]. eauto.
Qed.

Lemma process_archive_first_chunk E p output_dir chunk_size max_chunks
    is_submission prompt w :
  falsy (OPENAI_API_KEY E) = true → p ≠ "" →
  reaches_first_chunk E p chunk_size max_chunks is_submission prompt →
  ∃ w', process_archive E (Some p) output_dir chunk_size max_chunks
          is_submission w = (Raise ValueError, w')
    ∧ requests w' = requests w
    ∧ files w' = <[chunk_file output_dir (subreddit_name_of p) 1
                     "_prompt.txt" := prompt]> (files w).
Proof.
  intros Hkey Hp Hreach.
  destruct (process_first_chunk_no_key E p output_dir chunk_size max_chunks
              is_submission prompt w Hkey Hreach) as (w' & Hrun & Hreq & Hfiles).
  destruct Hreach as (arch & _ & _ & _ & _ & _ & Harch & _).
  unfold process_archive. simpl. rewrite bool_decide_eq_false_2 by done.
  rewrite Harch. unfold mbind, run_bind. rewrite Hrun. by exists w'.
Qed.

Lemma some_argument_given a p :
  (archive_paths a).1 = Some p ∨ (archive_paths a).2 = Some p → p ≠ "" →
  falsy (arg_submissions a) && falsy (arg_comments a)
    && falsy (arg_subreddit a) = false.
Proof.
  intros Hpath Hp. unfold archive_paths in Hpath.
  destruct (falsy (arg_subreddit a)) eqn:Hsub; [|by rewrite andb_false_r].
  simpl in Hpath. rewrite andb_true_r.
  destruct Hpath as [Hpath|Hpath].
  - rewrite Hpath. simpl. by rewrite bool_decide_eq_false_2.
  - rewrite Hpath. simpl. rewrite bool_decide_eq_false_2 by done.
    by rewrite andb_false_r.
Qed.

(** C1, as the code has it.  Without a credential [main] never sends a
    request.  Either it leaves the files as they were, or it has written
    exactly one file, the prompt of the first chunk of one archive, and
    ends in the [ValueError] the client raises at its first call; when it
    ends normally it has written nothing.  And it does abort so whenever
    there is a chunk to analyse: when the submissions archive gets the
    run to its first chunk, or gives nothing to analyse and the comments
    archive gets it there, the run ends in [ValueError] with the prompt
    of that very chunk on disk and nothing else written. *)
Theorem missing_credential_aborts (E : env) (a : args) (w w' : world)
    (r : result ()) :
  falsy (OPENAI_API_KEY E) = true →
  main E a w = (r, w') →
  let output_dir := path_join (arg_output_dir a) (main_subreddit_name a) in
  requests w' = requests w
  ∧ (files w' = files w
     ∨ (r = Raise ValueError
        ∧ ∃ kind file_path prompt,
            kind ∈ ["submissions"; "comments"]
            ∧ files w'
              = <[chunk_file
                    (path_join (path_join (arg_output_dir a)
                                  (main_subreddit_name a)) kind)
                    (subreddit_name_of file_path) 1 "_prompt.txt" := prompt]>
                  (files w)))
  ∧ (r = Ok () → files w' = files w)
  ∧ (∀ p prompt,
       (archive_paths a).1 = Some p → p ≠ "" →
       reaches_first_chunk E p (arg_chunk_size a) (arg_max_chunks a) true
         prompt →
       r = Raise ValueError
       ∧ files w'
         = <[chunk_file (path_join output_dir "submissions")
               (subreddit_name_of p) 1 "_prompt.txt" := prompt]> (files w))
  ∧ (∀ q prompt,
       nothing_to_analyse E (archive_paths a).1 (arg_chunk_size a)
         (arg_max_chunks a) →
       (archive_paths a).2 = Some q → q ≠ "" →
       reaches_first_chunk E q (arg_chunk_size a) (arg_max_chunks a) false
         prompt →
       r = Raise ValueError
       ∧ files w'
         = <[chunk_file (path_join output_dir "comments")
               (subreddit_name_of q) 1 "_prompt.txt" := prompt]> (files w)).
Proof.
  intros Hkey Hmain output_dir.
  assert (Hsafe : requests w' = requests w
    ∧ (files w' = files w
       ∨ (r = Raise ValueError
          ∧ ∃ kind file_path prompt,
              kind ∈ ["submissions"; "comments"]
              ∧ files w'
                = <[chunk_file
                      (path_join (path_join (arg_output_dir a)
                                    (main_subreddit_name a)) kind)
                      (subreddit_name_of file_path) 1 "_prompt.txt" := prompt]>
                    (files w)))
    ∧ (r = Ok () → files w' = files w)).
  { revert Hmain. unfold main.
    destruct (_ && _).
    { intros [= <- <-]. repeat split; eauto. }
    intros [(submission & w1 & Hsub & Hrun)|(e & Hsub & ->)]%run_bind_inv.
    2:{ destruct (process_archive_without_credential _ _ _ _ _ _ _ _ _ Hkey Hsub)
          as (Hreq & Hfiles & _).
        split; [done|]. split; [|done].
        destruct Hfiles as [?|([= ->] & prompt & ?)]; [by left|].
        right. split; [done|]. eexists "submissions", _, prompt.
        split; [set_solver | done]. }
    destruct (process_archive_without_credential _ _ _ _ _ _ _ _ _ Hkey Hsub)
      as (Hreq1 & _ & Hok1). destruct (Hok1 _ eq_refl) as [Hfiles1 Hshape1].
    apply run_bind_inv in Hrun as [(comment & w2 & Hcom & Hrun)|(e & Hcom & ->)].
    2:{ destruct (process_archive_without_credential _ _ _ _ _ _ _ _ _ Hkey Hcom)
          as (Hreq & Hfiles & _).
        rewrite Hreq, Hreq1. split; [done|]. split; [|done].
        rewrite Hfiles1 in Hfiles.
        destruct Hfiles as [?|([= ->] & prompt & ?)]; [by left|].
        right. split; [done|]. eexists "comments", _, prompt.
        split; [set_solver | done]. }
    destruct (process_archive_without_credential _ _ _ _ _ _ _ _ _ Hkey Hcom)
      as (Hreq2 & _ & Hok2). destruct (Hok2 _ eq_refl) as [Hfiles2 Hshape2].
    apply run_bind_inv in Hrun as [(o & ? & [_ ->]%lift_inv & Hrun)
                                  |(e & [_ ->]%lift_inv & ->)].
    2:{ rewrite Hreq2, Hreq1, Hfiles2, Hfiles1. repeat split; eauto. }
    assert (Hend : (r, w') = (Ok (), w2)).
    { destruct Hshape1 as [->|[cov1 ->]]; [by injection Hrun as <- <-|].
      destruct Hshape2 as [->|[cov2 ->]]; by injection Hrun as <- <-. }
    injection Hend as -> ->.
    rewrite Hreq2, Hreq1, Hfiles2, Hfiles1. repeat split; eauto. }
  destruct Hsafe as (Hreq & Hwritten & Hok).
  split; [done|]. split; [done|]. split; [done|]. split.
  - intros p prompt Hpath Hp Hreach.
    pose proof (some_argument_given a p (or_introl Hpath) Hp) as Hgiven.
    unfold main in Hmain. rewrite Hgiven, Hpath in Hmain.
    destruct (process_archive_first_chunk E p
                (path_join output_dir "submissions") (arg_chunk_size a)
                (arg_max_chunks a) true prompt w Hkey Hp Hreach)
      as (w1 & Hrun & _ & Hfiles).
    unfold mbind at 1, run_bind at 1 in Hmain. fold output_dir in Hmain.
    rewrite Hrun in Hmain. by injection Hmain as <- <-.
  - intros q prompt Hnothing Hpath Hq Hreach.
    pose proof (some_argument_given a q (or_intror Hpath) Hq) as Hgiven.
    unfold main in Hmain. rewrite Hgiven, Hpath in Hmain.
    destruct (process_archive_nothing E (archive_paths a).1
                (path_join output_dir "submissions") (arg_chunk_size a)
                (arg_max_chunks a) true w Hnothing)
      as (x & w1 & Hsub & Hf1 & Hr1 & _).
    destruct (process_archive_first_chunk E q
                (path_join output_dir "comments") (arg_chunk_size a)
                (arg_max_chunks a) false prompt w1 Hkey Hq Hreach)
      as (w2 & Hrun & _ & Hfiles).
    unfold mbind at 1, run_bind at 1 in Hmain. fold output_dir in Hmain.
    rewrite Hsub in Hmain.
    unfold mbind at 1, run_bind at 1 in Hmain. rewrite Hrun in Hmain.
    injection Hmain as <- <-. by rewrite Hfiles, Hf1.
Qed.

Lemma missing_credential_aborts_witness :
  let post : item := <["title" := VStr "Which edition?"]>
                       (<["created_utc" := VInt 1700000000]> ∅) in
  let E := {| OPENAI_API_KEY := None;
              archives := {[ "data/books_submissions.zst" :=
                 {| st_size := 2048;
                    contents := {| yields := [(post, "", 2048)];
                                   failure := None |} |} ]};
              completion := λ _ _, Some "analysis"; today := "2025-03-01";
              json_dump := λ _, "{}" |} in
  let a := {| arg_submissions := None; arg_comments := None;
              arg_subreddit := Some "books"; arg_data_dir := "data";
              arg_output_dir := "out";
              arg_chunk_size := 100; arg_max_chunks := 5 |} in
  let out := main E a {| files := ∅; dirs := ∅; requests := [] |} in
  ∃ prompt,
    prompt_of "books" true [post] = Ok prompt
    ∧ out.1 = Raise ValueError
    ∧ files out.2
      = {[ "out/books/submissions/books_chunk_1_prompt.txt" := prompt ]}
    ∧ requests out.2 = [].
Proof.
  intros post E a out.
  destruct (prompt_of "books" true [post]) as [prompt|] eqn:Hprompt;
    [|by vm_compute in Hprompt].
  exists prompt. split; [done|].
  destruct (missing_credential_aborts E a
              {| files := ∅; dirs := ∅; requests := [] |} out.2 out.1
              ltac:(reflexivity) ltac:(apply surjective_pairing))
    as (Hreq & _ & _ & Hfirst & _).
  destruct (Hfirst "data/books_submissions.zst" prompt eq_refl
              ltac:(discriminate)) as [Hr Hfiles].
  { exists {| st_size := 2048;
              contents := {| yields := [(post, "", 2048)]; failure := None |} |},
      1, ([post], 1), (NFloat (S754_finite false 7036874417766400 (-46))),
      [post], [].
    split; [reflexivity|]. split; [reflexivity|]. split; [reflexivity|].
    split; [reflexivity|]. split; [reflexivity|]. exact Hprompt. }
  split; [exact Hr|]. split; [exact Hfiles | exact Hreq].
Defined.

(** C1 as stated fails: the credential is looked at by the client, after
    the archive has been read and the prompt of the first chunk saved.
    With no key and an archive of one post, the run ends in [ValueError]
    and leaves that prompt file behind, under the directory it created. *)
Lemma prompt_written_without_credential :
  let post : item := <["title" := VStr "Which edition?"]>
                       (<["created_utc" := VInt 1700000000]> ∅) in
  let E := {| OPENAI_API_KEY := None;
              archives := {[ "data/books_submissions.zst" :=
                 {| st_size := 2048;
                    contents := {| yields := [(post, "", 2048)];
                                   failure := None |} |} ]};
              completion := λ _ _, Some "analysis"; today := "2025-03-01";
              json_dump := λ _, "{}" |} in
  let a := {| arg_submissions := None; arg_comments := None;
              arg_subreddit := Some "books"; arg_data_dir := "data";
              arg_output_dir := "out";
              arg_chunk_size := 100; arg_max_chunks := 5 |} in
  let out := main E a {| files := ∅; dirs := ∅; requests := [] |} in
  out.1 = Raise ValueError
  ∧ (map_to_list (files out.2)).*1
    = [ "out/books/submissions/books_chunk_1_prompt.txt" ]
  ∧ "out/books/submissions" ∈ dirs out.2
  ∧ requests out.2 = [].
Proof.
  vm_compute. repeat split.
Qed.

(** ** The subreddit identifier *)

Lemma split_nonempty sep s : ∃ piece rest, split sep s = piece :: rest.
Proof.
  induction s as [|c s IH]; simpl; [eauto|].
  destruct (Ascii.eqb c sep); [eauto|].
  destruct IH as (piece & rest & ->). eauto.
Qed.

Lemma split_first_skip sep c s :
  Ascii.eqb c sep = false →
  split_first sep (String c s) = String c (split_first sep s).
Proof.
  intros Hc. unfold split_first. simpl. rewrite Hc.
  destruct (split_nonempty sep s) as (piece & rest & ->). done.
Qed.

Lemma split_first_until sep name rest :
  has_char sep name = false →
  split_first sep (name +:+ String sep rest) = name.
Proof.
  induction name as [|c name IH]; intros Hname.
  - unfold split_first. simpl. by rewrite Ascii.eqb_refl.
  - simpl in Hname. apply orb_false_elim in Hname as [Hc Hname].
    change (String c name +:+ String sep rest)
      with (String c (name +:+ String sep rest)).
    rewrite split_first_skip by done. by rewrite IH.
Qed.

Lemma split_first_whole sep s :
  has_char sep s = false → split_first sep s = s.
Proof.
  induction s as [|c s IH]; intros Hs; [done|].
  simpl in Hs. apply orb_false_elim in Hs as [Hc Hs].
  rewrite split_first_skip by done. by rewrite IH.
Qed.

Lemma split_first_clean sep s : has_char sep (split_first sep s) = false.
Proof.
  induction s as [|c s IH]; [done|].
  destruct (Ascii.eqb c sep) eqn:Hc.
  - unfold split_first. simpl. by rewrite Hc.
  - rewrite split_first_skip by done. simpl. by rewrite Hc, IH.
Qed.

(** C10 as stated fails in [main]: with [--subreddit books], a
    submissions archive [novels_submissions.zst] and a comments archive
    [books_comments.zst], the chunks of the first archive are analysed as
    r/novels, while the combined prompt and the final summary, which
    cover that archive too, are written for r/books. *)
Lemma main_name_is_the_argument :
  let post (t : string) : item * string * Z :=
    (<["title" := VStr t]> (<["body" := VStr t]> ∅), "", 512) in
  let arch t := {| st_size := 512;
                   contents := {| yields := [post t]; failure := None |} |} in
  let E := {| OPENAI_API_KEY := Some "sk-live";
              archives := <["data/novels_submissions.zst" := arch "Dune?"]>
                            {[ "data/books_comments.zst" := arch "Yes." ]};
              completion := λ n _, Some ("analysis " +:+ pretty n);
              today := "2025-03-01";
              json_dump := λ j, match j with
                                | JObj (("subreddit", JStr s) :: _) => s
                                | _ => ""
                                end |} in
  let a := {| arg_submissions := Some "data/novels_submissions.zst";
              arg_comments := Some "data/books_comments.zst";
              arg_subreddit := Some "books"; arg_data_dir := ".";
              arg_output_dir := "out";
              arg_chunk_size := 100; arg_max_chunks := 5 |} in
  let out := main E a {| files := ∅; dirs := ∅; requests := [] |} in
  subreddit_name_of "data/novels_submissions.zst" = "novels"
  ∧ main_subreddit_name a = "books"
  ∧ out.1 = Ok ()
  ∧ is_Some (files out.2 !! "out/books/submissions/novels_chunk_1_prompt.txt")
  ∧ files out.2 !! "out/books/submissions/novels_analysis_summary.json"
    = Some "novels"
  ∧ files out.2 !! "out/books/combined/books_combined_prompt.txt"
    = Some (combined_prompt_text "books" ["analysis 1"])
  ∧ files out.2 !! "out/books/books_analysis_summary.json" = Some "books".
Proof.
  vm_compute. repeat split. eauto.
Qed.

(** ** The combined analysis *)

(** C3, evaluated where the code departs from it.  First run: two
    submission chunks of which the first gets no answer, one comment
    chunk.  Both types end with a summary, the analysis of submission
    chunk 2 is on disk, but [main] looks for as many files as there are
    results, numbered from 1, finds none for the submissions, and sends a
    combined prompt that holds the comment analysis only.  Second run:
    every chunk is answered; the prompt holds the [repr] of the list of
    analyses, so a text with a line break is not in it as written. *)
Theorem combined_prompt_misses_analyses :
  let post (t : string) : item * string * Z :=
    (<["title" := VStr t]> (<["body" := VStr t]> ∅), "", 512) in
  let arch l := {| st_size := 1024;
                   contents := {| yields := post <$> l; failure := None |} |} in
  let disk := <["data/books_submissions.zst" := arch ["Dune?"; "Emma?"]]>
                {[ "data/books_comments.zst" := arch ["Yes."] ]} in
  let a := {| arg_submissions := None; arg_comments := None;
              arg_subreddit := Some "books"; arg_data_dir := "data";
              arg_output_dir := "out";
              arg_chunk_size := 1; arg_max_chunks := 5 |} in
  let fresh := {| files := ∅; dirs := ∅; requests := [] |} in
  let E1 := {| OPENAI_API_KEY := Some "sk-live"; archives := disk;
               completion := λ n _, if (n =? 0)%nat then None
                                    else Some ("analysis " +:+ pretty n);
               today := "2025-03-01"; json_dump := λ _, "{}" |} in
  let text := "Pain points:" +:+ newline +:+ "- shipping" in
  let E2 := {| OPENAI_API_KEY := Some "sk-live"; archives := disk;
               completion := λ _ _, Some text;
               today := "2025-03-01"; json_dump := λ _, "{}" |} in
  let out1 := main E1 a fresh in
  let out2 := main E2 a fresh in
  (out1.1 = Ok ()
   ∧ is_Some (files out1.2 !! "out/books/submissions/books_analysis_summary.json")
   ∧ is_Some (files out1.2 !! "out/books/comments/books_analysis_summary.json")
   ∧ files out1.2 !! "out/books/submissions/books_chunk_2_analysis.md"
     = Some "analysis 1"
   ∧ files out1.2 !! "out/books/combined/books_combined_prompt.txt"
     = Some (combined_prompt_text "books" ["analysis 2"])
   ∧ last (requests out1.2) = Some (combined_prompt_text "books" ["analysis 2"])
   ∧ contains "analysis 1" (combined_prompt_text "books" ["analysis 2"]) = false)
  ∧ (out2.1 = Ok ()
     ∧ last (requests out2.2)
       = Some (combined_prompt_text "books" [text; text; text])
     ∧ contains text (combined_prompt_text "books" [text; text; text]) = false
     ∧ contains "['Pain points:\n- shipping', 'Pain points:\n- shipping', "
         (combined_prompt_text "books" [text; text; text]) = true).
Proof.
  vm_compute. repeat split; eauto.
Qed.

(** ** The aggregator *)

Lemma append_assoc (a b c : string) : (a +:+ b) +:+ c = a +:+ (b +:+ c).
Proof.
  induction a as [|x a IH]; [done|].
  change (String x ((a +:+ b) +:+ c) = String x (a +:+ b +:+ c)).
  by rewrite IH.
Qed.

Lemma append_inj_l a x y : a +:+ x = a +:+ y → x = y.
Proof. induction a as [|c a IH]; simpl; [done|]. intros [= H]. auto. Qed.

Lemma startswith_append c n s :
  startswith c s = false →
  startswith c (n +:+ s) = startswith c n.
Proof. destruct n; simpl; done. Qed.

(** Two files of one directory whose names share a prefix and differ
    afterwards are different files. *)
Lemma path_join_inj dir n s1 s2 :
  startswith "/" s1 = false → startswith "/" s2 = false →
  path_join dir (n +:+ s1) = path_join dir (n +:+ s2) → s1 = s2.
Proof.
  intros H1 H2. unfold path_join.
  rewrite !startswith_append by done.
  destruct (startswith "/" n).
  - apply append_inj_l.
  - destruct (_ || _).
    + intros H%append_inj_l. by apply append_inj_l in H.
    + by intros H%append_inj_l%append_inj_l%append_inj_l.
Qed.

Lemma join_app sep l1 l2 :
  l1 ≠ [] → l2 ≠ [] →
  join sep (l1 ++ l2) = join sep l1 +:+ sep +:+ join sep l2.
Proof.
  intros H1 H2. induction l1 as [|x l1 IH]; [done|].
  destruct l1 as [|y l1].
  - simpl. destruct l2; done.
  - change (join sep ((x :: y :: l1) ++ l2))
      with (x +:+ sep +:+ join sep ((y :: l1) ++ l2)).
    rewrite IH by done.
    change (join sep (x :: y :: l1)) with (x +:+ sep +:+ join sep (y :: l1)).
    by rewrite !append_assoc.
Qed.

(** The meta prompt is a heading, fixed by the name, the number of
    analyses and the coverage, followed by the labelled analyses and a
    line break. *)
Lemma meta_prompt_shape name count pct :
  ∃ head, ∀ all_analyses,
    meta_prompt_text name count pct all_analyses
    = head +:+ all_analyses +:+ newline.
Proof.
  eexists (_ +:+ newline). intros all_analyses. unfold meta_prompt_text.
  match goal with
  | |- join newline ?l = _ =>
      change l with (take 18 l ++ [all_analyses; ""])
  end.
  rewrite join_app by done. simpl take.
  rewrite append_assoc. reflexivity.
Qed.

Lemma process_chunk_success E output_dir name is_submission i chunk acc w acc' w' :
  process_chunk E output_dir name is_submission i chunk acc w = (Ok acc', w') →
  acc' = acc
  ∨ ∃ r, acc' = acc ++ [r] ∧ chunk_id r = i + 1 ∧ analysis r ≠ "".
Proof.
  intros Hrun. unfold process_chunk, analyze_with_openai, write_file in Hrun.
  unfold falsy in Hrun.
  run_cases Hrun; eauto.
  right. eexists. split; [done|]. simpl. split; [done|].
  by case_bool_decide.
Qed.

Lemma process_chunks_successes E output_dir name is_submission chunks :
  ∀ i acc w results w',
  process_chunks E output_dir name is_submission i chunks acc w
    = (Ok results, w') →
  ∃ new, results = acc ++ new ∧ ordered_successes i (i + len chunks) new.
Proof.
  induction chunks as [|chunk chunks IH]; intros i acc w results w' Hrun.
  - injection Hrun as <- <-. exists []. rewrite app_nil_r.
    split; [done|]. split; constructor.
  - simpl in Hrun.
    apply run_bind_inv in Hrun as [(acc1 & w1 & Hchunk & Hrest)|(e & _ & ?)];
      [|done].
    apply IH in Hrest as (new & -> & Hsorted & Hall).
    assert (Hlen : len (chunk :: chunks) = len chunks + 1)
      by (unfold len; simpl; lia).
    assert (Hall' : Forall (λ r, i < chunk_id r <= i + len (chunk :: chunks)
                                 ∧ analysis r ≠ "") new).
    { eapply Forall_impl; [done|]. intros r [? ?]. split; [|done].
      rewrite Hlen. lia. }
    apply process_chunk_success in Hchunk as [->|(r & -> & Hid & Htext)].
    + exists new. split; [done|]. split; done.
    + exists (r :: new). split; [by rewrite <- app_assoc|]. split.
      * simpl. constructor; [done|].
        rewrite Forall_fmap. eapply Forall_impl; [exact Hall|].
        intros r' [? _]. unfold compose. lia.
      * constructor; [|done]. split; [|done]. unfold len in *. lia.
Qed.

Lemma summary_file_fresh output_dir name suffix :
  startswith "/" suffix = false →
  suffix ≠ "_analysis_summary.json" →
  path_join output_dir (name +:+ suffix) ≠ summary_file output_dir name.
Proof.
  intros Hslash Hsuffix Heq. unfold summary_file in Heq.
  by apply path_join_inj in Heq.
Qed.

(** C2.  With a credential present: the results of the chunk loop are
    the successes, in chunk order, under 1-based ordinals.  On no result
    the aggregator does nothing.  On one result it sends nothing and
    writes a summary whose [analysis] is that chunk's analysis, as it
    is.  On two or more it sends exactly one request, whose prompt ends
    with the analyses in list order, each under the heading that carries
    its ordinal, two line breaks apart; the summary then holds the
    answer to that request under [meta_analysis], and is not written
    when there is no answer.  Either summary names the subreddit, counts
    the chunks and the posts of the results, and carries the coverage
    figures and the date. *)
Theorem aggregator_transitions (E : env) (output_dir name : string)
    (results : list chunk_result) (pct : num) (cov : coverage) (w : world) :
  falsy (OPENAI_API_KEY E) = false →
  let summary := summary_file output_dir name in
  (∀ is_submission chunks w0,
     process_chunks E output_dir name is_submission 0 chunks [] w0
       = (Ok results, w) →
     ordered_successes 0 (len chunks) results)
  ∧ match results with
    | [] => summarize E output_dir name results pct cov w = (Ok (), w)
    | [only] =>
        ∃ w', summarize E output_dir name results pct cov w = (Ok (), w')
          ∧ requests w' = requests w
          ∧ files w' !! summary
            = Some (json_dump E
                      (summary_json E name 1 (post_count (result_metadata only))
                         cov "analysis" (analysis only)))
          ∧ summary_of
              (summary_json E name 1 (post_count (result_metadata only))
                 cov "analysis" (analysis only))
              name 1 (post_count (result_metadata only)) cov (today E)
              "analysis" (analysis only)
    | _ :: _ :: _ =>
        let meta_prompt :=
          meta_prompt_text name (len results) pct (all_analyses_text results) in
        let answer := completion E (length (requests w)) meta_prompt in
        ∃ w', summarize E output_dir name results pct cov w = (Ok (), w')
          ∧ requests w' = requests w ++ [meta_prompt]
          ∧ (∃ head,
               meta_prompt
               = head +:+ join (newline +:+ newline) (labelled <$> results)
                   +:+ newline)
          ∧ (if falsy answer
             then files w' !! summary = files w !! summary
             else files w' !! summary
                  = Some (json_dump E
                            (summary_json E name (len results)
                               (posts_analyzed results) cov
                               "meta_analysis" (default "" answer)))
                  ∧ summary_of
                      (summary_json E name (len results)
                         (posts_analyzed results) cov
                         "meta_analysis" (default "" answer))
                      name (len results) (posts_analyzed results) cov
                      (today E) "meta_analysis" (default "" answer)
                  ∧ answer = Some (default "" answer))
    end.
Proof.
  intros Hkey summary. split.
  { intros is_submission chunks w0 Hloop.
    apply process_chunks_successes in Hloop as (new & Hnew & Hord).
    simpl in Hnew. by subst new. }
  destruct results as [|first [|second rest]].
  - done.
  - unfold summarize. simpl.
    unfold mbind, run_bind, write_file. simpl.
    eexists. split; [reflexivity|]. simpl. split; [done|].
    split; [apply lookup_insert_eq|].
    unfold summary_of. repeat split; try done.
    eexists. repeat split; done.
  - intros meta_prompt answer.
    assert (Hmany : (1 <? len (first :: second :: rest)) = true).
    { apply Z.ltb_lt. unfold len. simpl length. lia. }
    unfold summarize. rewrite Hmany.
    fold meta_prompt. unfold analyze_with_openai. rewrite Hkey.
    unfold mbind, run_bind, write_file. cbn [requests files dirs].
    fold answer. destruct (falsy answer) eqn:Hanswer.
    + eexists. split; [reflexivity|]. cbn [requests files dirs].
      split; [done|]. split.
      { destruct (meta_prompt_shape name (len (first :: second :: rest)) pct)
          as [head Hhead].
        exists head. apply Hhead. }
      rewrite !lookup_insert_ne; [done| |];
        by apply summary_file_fresh.
    + eexists. split; [reflexivity|]. cbn [requests files dirs].
      split; [done|]. split.
      { destruct (meta_prompt_shape name (len (first :: second :: rest)) pct)
          as [head Hhead].
        exists head. apply Hhead. }
      split; [apply lookup_insert_eq|]. split.
      * unfold summary_of. repeat split; try done.
        eexists. repeat split; done.
      * by destruct answer.
Qed.

Lemma aggregator_transitions_witness :
  let E := {| OPENAI_API_KEY := Some "sk-live"; archives := ∅;
              completion := λ _ _, Some "Shipping delays dominate.";
              today := "2025-03-01";
              json_dump := λ j,
                match field "chunks_analyzed" j, field "meta_analysis" j with
                | Some (JInt chunks), Some (JStr text) =>
                    pretty chunks +:+ " chunks: " +:+ text
                | _, _ => ""
                end |} in
  let md := {| post_count := 100; date_earliest := Some "2024-01-01";
               date_latest := Some "2024-01-31"; authors := [VStr "alice"];
               avg_score := NInt 0; total_score := 0; unique_authors := 1 |} in
  let results := [ {| chunk_id := 1; result_metadata := md;
                      analysis := "Slow refunds." |};
                   {| chunk_id := 3; result_metadata := md;
                      analysis := "Lost parcels." |} ] in
  let cov := file_coverage 200 1000 (NInt 0) 4096 in
  let fresh := {| files := ∅; dirs := ∅; requests := [] |} in
  ∃ w',
    summarize E "out" "books" results (NInt 0) cov fresh = (Ok (), w')
    ∧ requests w'
      = [ meta_prompt_text "books" 2 (NInt 0)
            ("## Chunk 1 Analysis" +:+ newline +:+ newline +:+ "Slow refunds."
               +:+ newline +:+ newline
               +:+ "## Chunk 3 Analysis" +:+ newline +:+ newline
               +:+ "Lost parcels.") ]
    ∧ files w' !! "out/books_analysis_summary.json"
      = Some "2 chunks: Shipping delays dominate.".
Proof.
  intros E md results cov fresh.
  destruct (aggregator_transitions E "out" "books" results (NInt 0) cov fresh
              eq_refl) as [_ (w' & Hrun & Hreq & _ & Hsummary & _)].
  exists w'. split; [exact Hrun|]. split; [rewrite Hreq; reflexivity|].
  exact Hsummary.
Defined.

(** ** The identifier at work *)

Lemma chunk_file_not_summary output_dir name ordinal suffix :
  chunk_file output_dir name ordinal suffix ≠ summary_file output_dir name.
Proof. unfold chunk_file. by apply summary_file_fresh. Qed.

Lemma process_chunk_keeps_summary E output_dir name is_submission i chunk acc
    w r w' :
  process_chunk E output_dir name is_submission i chunk acc w = (r, w') →
  files w' !! summary_file output_dir name
  = files w !! summary_file output_dir name.
Proof.
  intros Hrun. unfold process_chunk, analyze_with_openai, write_file in Hrun.
  run_cases Hrun;
    rewrite ?lookup_insert_ne by apply chunk_file_not_summary; done.
Qed.

Lemma process_chunks_keep_summary E output_dir name is_submission chunks :
  ∀ i acc w r w',
  process_chunks E output_dir name is_submission i chunks acc w = (r, w') →
  files w' !! summary_file output_dir name
  = files w !! summary_file output_dir name.
Proof.
  induction chunks as [|c chunks IH]; intros i acc w r w' Hrun.
  - by injection Hrun as <- <-.
  - simpl in Hrun.
    apply run_bind_inv in Hrun as [(acc1 & w1 & Hc & Hrest)|(e & Hc & _)].
    + apply IH in Hrest. apply process_chunk_keeps_summary in Hc. congruence.
    + by apply process_chunk_keeps_summary in Hc.
Qed.

Section done_with.
Context (E : env) (P Q : string → Prop) (s : string)
  (R : option string → Prop).

Lemma done_same w w' :
  files w' = files w → requests w' = requests w →
  done_with P Q s R w w'.
Proof.
  intros Hf Hr. unfold done_with, changed. rewrite Hf, Hr.
  split; [done|]. split; [|done]. exists []. by rewrite app_nil_r.
Qed.

Lemma done_trans w w1 w' :
  done_with P Q s R w w1 → done_with P Q s R w1 w' →
  done_with P Q s R w w'.
Proof.
  intros (Hf1 & (new1 & Hr1 & Hn1) & Hs1) (Hf2 & (new2 & Hr2 & Hn2) & Hs2).
  split; [|split].
  - intros path Hpath.
    destruct (decide (files w' !! path = files w1 !! path)) as [Heq|Hne].
    + apply Hf1. unfold changed in *. congruence.
    + by apply Hf2.
  - exists (new1 ++ new2). rewrite Hr2, Hr1, <- app_assoc.
    split; [done|]. by apply Forall_app.
  - intros Hpath.
    destruct (decide (files w' !! s = files w1 !! s)) as [Heq|Hne].
    + rewrite Heq. apply Hs1. unfold changed in *. congruence.
    + by apply Hs2.
Qed.

Lemma done_bind {A B} (m : run A) (f : A → run B) w r w' :
  (m ≫= f) w = (r, w') →
  (∀ ra w1, m w = (ra, w1) → done_with P Q s R w w1) →
  (∀ a w1, m w = (Ok a, w1) → f a w1 = (r, w') →
     done_with P Q s R w1 w') →
  done_with P Q s R w w'.
Proof.
  intros [(a & w1 & Hm & Hf)|(e & Hm & _)]%run_bind_inv Hfirst Hthen.
  - eapply done_trans; [by eapply Hfirst | by eapply Hthen].
  - by eapply Hfirst.
Qed.

Lemma done_lift {A} (x : result A) w r w' :
  lift x w = (r, w') → done_with P Q s R w w'.
Proof. intros [_ ->]%lift_inv. by apply done_same. Qed.

Lemma done_mret {A} (a : A) w r w' :
  (mret a : run A) w = (r, w') → done_with P Q s R w w'.
Proof. intros [= _ <-]. by apply done_same. Qed.

Lemma done_raise {A} (e : exn) w (r : result A) w' :
  raise e w = (r, w') → done_with P Q s R w w'.
Proof. intros [= _ <-]. by apply done_same. Qed.

Lemma done_write path text w r w' :
  write_file path text w = (r, w') →
  P path → (path = s → R (Some text)) →
  done_with P Q s R w w'.
Proof.
  intros [= _ <-] Hpath Hsummary. unfold done_with, changed. simpl.
  split; [|split].
  - intros q Hq. destruct (decide (path = q)) as [<-|Hne]; [done|].
    by rewrite lookup_insert_ne in Hq.
  - exists []. by rewrite app_nil_r.
  - intros Hq. destruct (decide (path = s)) as [Heq|Hne].
    + rewrite <- Heq, lookup_insert_eq. by apply Hsummary.
    + by rewrite lookup_insert_ne in Hq.
Qed.

Lemma done_send prompt w r w' :
  analyze_with_openai E prompt w = (r, w') → Q prompt →
  done_with P Q s R w w'.
Proof.
  unfold analyze_with_openai. destruct (falsy (OPENAI_API_KEY E)).
  - intros Hrun _. by eapply done_raise.
  - intros [= _ <-] Hprompt. unfold done_with, changed. simpl.
    split; [done|]. split; [|done]. exists [prompt]. split; [done|].
    by constructor.
Qed.

Lemma done_makedirs path w r w' :
  makedirs path w = (r, w') → done_with P Q s R w w'.
Proof. intros [= _ <-]. by apply done_same. Qed.

Lemma done_exists path w r w' :
  path_exists E path w = (r, w') → done_with P Q s R w w'.
Proof. intros [= _ <-]. by apply done_same. Qed.
End done_with.

(** What holds of a run holds of it under weaker descriptions of the
    files and the requests; the content of [s'] is then known from the
    files alone when no file of [P] is [s'] but those of content [R']. *)
Lemma done_weaken (P Q P' Q' : string → Prop) s s' (R R' : option string → Prop)
    w w' :
  done_with P Q s R w w' →
  (∀ path, P path → P' path) → (∀ q, Q q → Q' q) →
  (P s' → ∀ c, (s' = s → R c) → R' c) →
  done_with P' Q' s' R' w w'.
Proof.
  intros (Hf & (new & Hr & Hn) & Hs) HP HQ HR. split; [|split].
  - intros path Hpath. by apply HP, Hf.
  - exists new. split; [done|]. eapply Forall_impl; [exact Hn | exact HQ].
  - intros Hchanged. apply HR; [by apply Hf|].
    intros ->. by apply Hs.
Qed.


Lemma names_file_intro dir name suffix :
  names_file dir name (path_join dir (name +:+ suffix)).
Proof. by exists suffix. Qed.

Lemma names_chunk_file dir name ordinal suffix :
  names_file dir name (chunk_file dir name ordinal suffix).
Proof. unfold chunk_file. apply names_file_intro. Qed.

Lemma process_chunk_named E dir name is_submission i chunk acc w r w' :
  process_chunk E dir name is_submission i chunk acc w = (r, w') →
  done_under E dir name w w'.
Proof.
  unfold process_chunk, done_under. intros Hrun.
  eapply done_bind; [exact Hrun | intros; by eapply done_lift|].
  clear Hrun. intros md w1 _ Hrun. cbv beta in Hrun.
  eapply done_bind; [exact Hrun | intros; by eapply done_lift|].
  clear Hrun. intros content w2 _ Hrun. cbv beta in Hrun.
  eapply done_bind; [exact Hrun | |].
  { intros ra w3 Hwrite. eapply done_write; [exact Hwrite | |].
    - apply names_chunk_file.
    - by intros ?%chunk_file_not_summary. }
  clear Hrun. intros [] w3 _ Hrun. cbv beta in Hrun.
  eapply done_bind; [exact Hrun | |].
  { intros ra w4 Hsend. eapply done_send; [exact Hsend|].
    left. by eexists _, _. }
  clear Hrun. intros response w4 _ Hrun. cbv beta in Hrun.
  destruct (falsy response); [by eapply done_mret|].
  eapply done_bind; [exact Hrun | |].
  { intros ra w5 Hwrite. eapply done_write; [exact Hwrite | |].
    - apply names_chunk_file.
    - by intros ?%chunk_file_not_summary. }
  intros [] w5 _ Hret. by eapply done_mret.
Qed.

Lemma process_chunks_named E dir name is_submission chunks :
  ∀ i acc w r w',
  process_chunks E dir name is_submission i chunks acc w = (r, w') →
  done_under E dir name w w'.
Proof.
  unfold done_under.
  induction chunks as [|chunk chunks IH]; intros i acc w r w' Hrun.
  - by eapply done_mret.
  - simpl in Hrun. eapply done_bind; [exact Hrun | |].
    + intros ra w1 Hchunk. by eapply process_chunk_named.
    + intros acc1 w1 _ Hrest. by eapply IH.
Qed.

Lemma summarize_named E dir name results pct cov w r w' :
  summarize E dir name results pct cov w = (r, w') →
  done_under E dir name w w'.
Proof.
  unfold summarize, done_under.
  destruct results as [|first rest]; [by apply done_mret|].
  intros Hrun.
  eapply done_bind; [exact Hrun | |].
  { intros ra w1 Hwrite. eapply done_write; [exact Hwrite | |].
    - apply names_file_intro.
    - by intros ?%summary_file_fresh. }
  clear Hrun. intros [] w1 _ Hrun. cbv beta in Hrun.
  destruct (1 <? len (first :: rest)).
  - eapply done_bind; [exact Hrun | |].
    { intros ra w2 Hwrite. eapply done_write; [exact Hwrite | |].
      - apply names_file_intro.
      - by intros ?%summary_file_fresh. }
    clear Hrun. intros [] w2 _ Hrun. cbv beta in Hrun.
    eapply done_bind; [exact Hrun | |].
    { intros ra w3 Hsend. eapply done_send; [exact Hsend|].
      right. by eexists _, _, _. }
    clear Hrun. intros answer w3 _ Hrun. cbv beta in Hrun.
    destruct (falsy answer); [by eapply done_mret|].
    eapply done_bind; [exact Hrun | |].
    { intros ra w4 Hwrite. eapply done_write; [exact Hwrite | |].
      - apply names_file_intro.
      - by intros ?%summary_file_fresh. }
    clear Hrun. intros [] w4 _ Hrun. cbv beta in Hrun.
    eapply done_write; [exact Hrun | apply names_file_intro |].
    intros _. by eexists.
  - eapply done_write; [exact Hrun | apply names_file_intro |].
    intros _. by eexists.
Qed.

Lemma process_subreddit_file_named E file_path dir chunk_size max_chunks
    is_submission w r w' :
  process_subreddit_file E file_path dir chunk_size max_chunks is_submission w
    = (r, w') →
  done_under E dir (subreddit_name_of file_path) w w'.
Proof.
  unfold process_subreddit_file, done_under.
  destruct (archives E !! file_path) as [arch|]; [|by apply done_mret].
  intros Hrun.
  eapply done_bind; [exact Hrun | intros; by eapply done_exists|].
  clear Hrun. intros found w1 _ Hrun. cbv beta in Hrun.
  eapply done_bind; [exact Hrun | |].
  { intros ra w2. destruct found; [by apply done_mret | by apply done_makedirs]. }
  clear Hrun. intros [] w2 _ Hrun. cbv beta in Hrun.
  eapply done_bind; [exact Hrun | intros; by eapply done_lift|].
  clear Hrun. intros total w3 _ Hrun. cbv beta in Hrun.
  eapply done_bind; [exact Hrun | intros; by eapply done_lift|].
  clear Hrun. intros read w4 _ Hrun. cbv beta in Hrun.
  eapply done_bind; [exact Hrun | intros; by eapply done_lift|].
  clear Hrun. intros pct w5 _ Hrun. cbv beta in Hrun.
  eapply done_bind; [exact Hrun | intros; by eapply process_chunks_named|].
  clear Hrun. intros results w6 _ Hrun. cbv beta in Hrun.
  eapply done_bind; [exact Hrun | intros; by eapply summarize_named|].
  clear Hrun. intros [] w7 _ Hrun. cbv beta in Hrun. by eapply done_mret.
Qed.

Lemma path_join_suffix dir file : ∃ pre, path_join dir file = pre +:+ file.
Proof.
  unfold path_join. destruct (startswith "/" file); [by exists ""|].
  destruct (_ || _); [by exists dir|].
  exists (dir +:+ "/"). by rewrite append_assoc.
Qed.

Lemma endswith_append c a b :
  b ≠ "" → endswith c (a +:+ b) = endswith c b.
Proof.
  intros Hb. induction a as [|x a IH]; [done|].
  change (String x a +:+ b) with (String x (a +:+ b)).
  assert (a +:+ b ≠ "") as Hab by (destruct a; [exact Hb | discriminate]).
  cbn [endswith]. rewrite IH. by destruct (a +:+ b).
Qed.

(** Two paths whose file names end differently are different. *)
Lemma path_join_endings c dir1 dir2 n1 n2 s1 s2 :
  s1 ≠ "" → s2 ≠ "" → endswith c s1 = true → endswith c s2 = false →
  path_join dir1 (n1 +:+ s1) ≠ path_join dir2 (n2 +:+ s2).
Proof.
  intros H1 H2 He1 He2 Heq.
  destruct (path_join_suffix dir1 (n1 +:+ s1)) as [pre1 Hp1].
  destruct (path_join_suffix dir2 (n2 +:+ s2)) as [pre2 Hp2].
  rewrite Hp1, Hp2, <- !append_assoc in Heq.
  apply (f_equal (endswith c)) in Heq.
  rewrite !endswith_append in Heq by done. congruence.
Qed.

Lemma read_existing_same E paths : ∀ acc w r w',
  read_existing E paths acc w = (r, w') → w' = w.
Proof.
  induction paths as [|path paths IH]; intros acc w r w' Hrun.
  - by injection Hrun as _ <-.
  - simpl in Hrun. unfold mbind, run_bind, path_exists, read_file in Hrun.
    destruct (_ || _); by apply IH in Hrun.
Qed.

Lemma combine_named E output_dir name submission_results comment_results o
    submission_coverage comment_coverage w r w' :
  combine E output_dir name submission_results comment_results o
    submission_coverage comment_coverage w = (r, w') →
  done_with
    (λ path, names_file (path_join output_dir "combined") name path
             ∨ path = summary_file output_dir name)
    (λ prompt, ∃ all_analyses, prompt = combined_prompt_text name all_analyses)
    (summary_file output_dir name) (names_summary E name) w w'.
Proof.
  unfold combine. intros Hrun.
  eapply done_bind; [exact Hrun | intros; by eapply done_exists|].
  clear Hrun. intros found w1 _ Hrun. cbv beta in Hrun.
  eapply done_bind; [exact Hrun | |].
  { intros ra w2. destruct found; [by apply done_mret | by apply done_makedirs]. }
  clear Hrun. intros [] w2 _ Hrun. cbv beta in Hrun.
  eapply done_bind; [exact Hrun | |].
  { intros ra w3 ->%read_existing_same. by apply done_same. }
  clear Hrun. intros all_analyses w3 _ Hrun. cbv beta in Hrun.
  destruct all_analyses as [|first rest]; [by eapply done_mret|].
  eapply done_bind; [exact Hrun | |].
  { intros ra w4 Hwrite. eapply done_write; [exact Hwrite | |].
    - left. apply names_file_intro.
    - by intros ?%(path_join_endings "t"). }
  clear Hrun. intros [] w4 _ Hrun. cbv beta in Hrun.
  eapply done_bind; [exact Hrun | |].
  { intros ra w5 Hsend. eapply done_send; [exact Hsend|]. by eexists. }
  clear Hrun. intros answer w5 _ Hrun. cbv beta in Hrun.
  destruct (falsy answer); [by eapply done_mret|].
  eapply done_bind; [exact Hrun | |].
  { intros ra w6 Hwrite. eapply done_write; [exact Hwrite | |].
    - left. apply names_file_intro.
    - by intros ?%(path_join_endings "d"). }
  clear Hrun. intros [] w6 _ Hrun. cbv beta in Hrun.
  eapply done_write; [exact Hrun | by right |].
  intros _. by eexists.
Qed.

Lemma process_archive_named E path dir chunk_size max_chunks is_submission
    w r w' :
  process_archive E path dir chunk_size max_chunks is_submission w = (r, w') →
  (files w' = files w ∧ requests w' = requests w)
  ∨ ∃ p, path = Some p ∧ done_under E dir (subreddit_name_of p) w w'.
Proof.
  unfold process_archive. destruct path as [p|]; [|by intros [= _ <-]; left].
  simpl. case_bool_decide; [by intros [= _ <-]; left|].
  destruct (archives E !! p); [|by intros [= _ <-]; left].
  intros Hrun. right. exists p. split; [done|]. unfold done_under.
  eapply done_bind; [exact Hrun | |].
  { intros ra w1 Hfile. by eapply process_subreddit_file_named. }
  intros [unpacked|] w1 _ Hret; [by eapply done_mret | by eapply done_raise].
Qed.

Lemma main_named E a w r w' :
  main E a w = (r, w') →
  let name := main_subreddit_name a in
  let output_dir := path_join (arg_output_dir a) name in
  done_with (main_file a) (main_request a) (summary_file output_dir name)
    (λ content, names_summary E name content
                ∨ per_type_file a (summary_file output_dir name)) w w'.
Proof.
  intros Hrun name output_dir. unfold main in Hrun.
  destruct (_ && _); [by eapply done_raise|].
  fold name output_dir in Hrun.
  eapply done_bind; [exact Hrun | |].
  { intros ra w1 [[Hf Hr]|(p & Hp & Hdone)]%process_archive_named;
      [by apply done_same|].
    eapply done_weaken; [exact Hdone | | |].
    - intros path Hpath. left. left. by exists p.
    - intros prompt Hprompt. left. by exists p.
    - intros Hpath c _. right. left. by exists p. }
  clear Hrun. intros submission w1 _ Hrun. cbv beta in Hrun.
  eapply done_bind; [exact Hrun | |].
  { intros ra w2 [[Hf Hr]|(q & Hq & Hdone)]%process_archive_named;
      [by apply done_same|].
    eapply done_weaken; [exact Hdone | | |].
    - intros path Hpath. left. right. by exists q.
    - intros prompt Hprompt. right. left. by exists q.
    - intros Hpath c _. right. right. by exists q. }
  clear Hrun. intros comment w2 _ Hrun. cbv beta zeta in Hrun.
  eapply done_bind; [exact Hrun | intros; by eapply done_lift|].
  clear Hrun. intros overall_figures w3 _ Hrun. cbv beta in Hrun.
  assert (Hcombine : ∀ subs coms,
            combine E output_dir name subs coms overall_figures
              (snd <$> submission) (snd <$> comment) w3 = (r, w') →
            done_with (main_file a) (main_request a)
              (summary_file output_dir name)
              (λ content, names_summary E name content
                          ∨ per_type_file a (summary_file output_dir name))
              w3 w').
  { intros subs coms Hcombine. apply combine_named in Hcombine.
    eapply done_weaken; [exact Hcombine | | |].
    - intros path [Hpath| ->]; right; [by left | by right].
    - intros prompt Hprompt. right. by right.
    - intros _ c Hc. left. by apply Hc. }
  destruct submission as [[[|s srest] scov]|];
    destruct comment as [[[|c crest] ccov]|];
    simpl in Hrun; first [by eapply done_mret | by eapply Hcombine].
Qed.

(** With a credential, the chunk is saved and sent under the name: the
    call returns, and the one request it adds is the prompt built for
    that name. *)
Lemma process_chunk_with_key E dir name is_submission i chunk acc prompt w :
  falsy (OPENAI_API_KEY E) = false →
  prompt_of name is_submission chunk = Ok prompt →
  ∃ acc' w', process_chunk E dir name is_submission i chunk acc w
             = (Ok acc', w')
    ∧ requests w' = requests w ++ [prompt].
Proof.
  intros Hkey Hprompt. unfold prompt_of in Hprompt.
  apply bind_Ok in Hprompt as (md & Hmd & Hprompt).
  apply bind_Ok in Hprompt as (content & Hcontent & [= <-]).
  unfold process_chunk, analyze_with_openai. rewrite Hkey.
  unfold mbind, run_bind, lift, write_file, mret, run_ret.
  rewrite Hmd, Hcontent. cbn [files dirs requests].
  destruct (falsy (completion _ _ _)); eexists _, _; (split; [reflexivity|done]).
Qed.

(** An archive that takes the run to its first chunk, with a credential:
    the first request the run sends is the prompt of that chunk. *)
Lemma process_first_chunk_sent E file_path output_dir chunk_size max_chunks
    is_submission prompt w :
  falsy (OPENAI_API_KEY E) = false →
  reaches_first_chunk E file_path chunk_size max_chunks is_submission prompt →
  ∃ later,
    requests (process_subreddit_file E file_path output_dir chunk_size
                max_chunks is_submission w).2
    = requests w ++ prompt :: later.
Proof.
  intros Hkey (arch & total & read & pct & chunk & rest
               & Harch & Htotal & Hread & Hpct & Hchunks & Hprompt).
  unfold process_subreddit_file. rewrite Harch.
  unfold mbind at 1, run_bind at 1, path_exists. cbv beta iota.
  set (found := _ || _ || _).
  assert (Hdir : ∃ w1, (if found then mret () else makedirs output_dir) w
                       = (Ok (), w1) ∧ requests w1 = requests w).
  { destruct found; eexists; (split; [reflexivity|done]). }
  destruct Hdir as (w1 & Hdir & Hr1).
  unfold mbind at 1, run_bind at 1. rewrite Hdir.
  unfold mbind at 1, run_bind at 1, lift at 1. rewrite Htotal.
  unfold mbind at 1, run_bind at 1, lift at 1. rewrite Hread.
  unfold mbind at 1, run_bind at 1, lift at 1. rewrite Hpct.
  unfold mbind at 1, run_bind at 1. rewrite Hchunks.
  cbn [process_chunks]. unfold mbind at 1, run_bind at 1.
  destruct (process_chunk_with_key E output_dir (subreddit_name_of file_path)
              is_submission 0 chunk [] prompt w1 Hkey Hprompt)
    as (acc & w2 & -> & Hr2).
  destruct (process_chunks _ _ _ _ _ rest acc w2) as [[results|e] w3] eqn:Hrest;
    apply process_chunks_named in Hrest as (_ & (new & Hr3 & _) & _).
  - match goal with
    | |- context [(?m ≫= ?f) w3] =>
        destruct ((m ≫= f) w3) as [r w'] eqn:Hend
    end.
    assert (done_under E output_dir (subreddit_name_of file_path) w3 w')
      as (_ & (last & Hr4 & _) & _).
    { unfold done_under.
      eapply done_bind; [exact Hend | intros; by eapply summarize_named|].
      intros [] w4 _ Hret. by eapply done_mret. }
    exists (new ++ last). cbn [snd].
    by rewrite Hr4, Hr3, Hr2, Hr1, <- !app_assoc.
  - exists new. cbn [snd]. by rewrite Hr3, Hr2, Hr1, <- !app_assoc.
Qed.

Lemma prepare_ai_prompt_heading name content md :
  ∃ rest, prepare_ai_prompt name content md
          = newline +:+ ("# Subreddit Community Analysis: r/" +:+ name)
              +:+ newline +:+ rest.
Proof. unfold prepare_ai_prompt. cbn [join]. by eexists. Qed.

Lemma meta_prompt_heading name count pct all_analyses :
  ∃ rest, meta_prompt_text name count pct all_analyses
          = newline +:+ ("# Meta-Analysis of r/" +:+ name) +:+ newline +:+ rest.
Proof. unfold meta_prompt_text. cbn [join]. by eexists. Qed.

Lemma combined_prompt_heading name all_analyses :
  ∃ rest, combined_prompt_text name all_analyses
          = newline +:+ ("# Combined Analysis of r/" +:+ name)
              +:+ newline +:+ rest.
Proof. unfold combined_prompt_text. cbn [join]. by eexists. Qed.

(** C10, as the code has it.  For [process_subreddit_file] the
    identifier is the basename of the archive up to its first underscore,
    the whole basename when it has none, and it is what the run carries:
    every file the run changes lies in the output directory under a name
    that starts with the identifier, every request it sends is a chunk
    prompt or a meta prompt built for the identifier, whose heading and
    context name it, and the summary it saves is a JSON object whose
    [subreddit] is the identifier.  An archive that takes the run to its
    first chunk has the prompt of that chunk saved as
    [<identifier>_chunk_1_prompt.txt] when there is no credential, and
    sent as the first request when there is one.  The outcome of the run
    depends on the path only through the archive found there and the
    identifier.  [main] works under the [--subreddit] argument when it is
    given, and derives the name in the same way from the submissions
    path, else from the comments path, only when it is not; the per-type
    files and requests of [main] carry the identifier of their archive,
    the combined files, the combined prompt and the final summary the
    name [main] works under. *)
Theorem identifier_from_basename (E : env) (a : args) (p q output_dir : string)
    (chunk_size max_chunks : Z) (is_submission : bool) (w : world) :
  (∀ name rest, basename p = name +:+ String "_" rest →
     has_char "_" name = false → subreddit_name_of p = name)
  ∧ (has_char "_" (basename p) = false → subreddit_name_of p = basename p)
  ∧ has_char "_" (subreddit_name_of p) = false
  ∧ (archives E !! p = archives E !! q →
     subreddit_name_of p = subreddit_name_of q →
     process_subreddit_file E p output_dir chunk_size max_chunks is_submission w
     = process_subreddit_file E q output_dir chunk_size max_chunks
         is_submission w)
  ∧ (falsy (arg_subreddit a) = false →
     main_subreddit_name a = default "" (arg_subreddit a))
  ∧ (falsy (arg_subreddit a) = true → falsy (arg_submissions a) = false →
     main_subreddit_name a = subreddit_name_of (default "" (arg_submissions a)))
  ∧ (falsy (arg_subreddit a) = true → falsy (arg_submissions a) = true →
     falsy (arg_comments a) = false →
     main_subreddit_name a = subreddit_name_of (default "" (arg_comments a)))
  ∧ done_under E output_dir (subreddit_name_of p) w
      (process_subreddit_file E p output_dir chunk_size max_chunks
         is_submission w).2
  ∧ (∀ prompt,
       reaches_first_chunk E p chunk_size max_chunks is_submission prompt →
       let w' := (process_subreddit_file E p output_dir chunk_size max_chunks
                    is_submission w).2 in
       names_request (subreddit_name_of p) prompt
       ∧ if falsy (OPENAI_API_KEY E)
         then files w' = <[chunk_file output_dir (subreddit_name_of p) 1
                             "_prompt.txt" := prompt]> (files w)
         else ∃ later, requests w' = requests w ++ prompt :: later)
  ∧ (∀ name prompt, names_request name prompt →
       ∃ rest,
         prompt = newline +:+ ("# Subreddit Community Analysis: r/" +:+ name)
                    +:+ newline +:+ rest
         ∨ prompt = newline +:+ ("# Meta-Analysis of r/" +:+ name)
                      +:+ newline +:+ rest)
  ∧ (let name := main_subreddit_name a in
     let dir := path_join (arg_output_dir a) name in
     done_with (main_file a) (main_request a) (summary_file dir name)
       (λ content, names_summary E name content
                   ∨ per_type_file a (summary_file dir name))
       w (main E a w).2)
  ∧ (∀ all_analyses, ∃ rest,
       combined_prompt_text (main_subreddit_name a) all_analyses
       = newline +:+ ("# Combined Analysis of r/" +:+ main_subreddit_name a)
           +:+ newline +:+ rest).
Proof.
  split; [|split; [|split; [|split; [|split; [|split; [|split;
    [|split; [|split; [|split; [|split]]]]]]]]]].
  - intros name rest Hbase Hname. unfold subreddit_name_of. rewrite Hbase.
    by apply split_first_until.
  - apply split_first_whole.
  - apply split_first_clean.
  - intros Harch Hname. unfold process_subreddit_file.
    by rewrite Harch, Hname.
  - intros Hsub. unfold main_subreddit_name. by rewrite Hsub.
  - intros Hsub Hsubm. unfold main_subreddit_name, archive_paths.
    rewrite Hsub. cbn [negb andb fst snd]. by rewrite Hsubm.
  - intros Hsub Hsubm Hcom. unfold main_subreddit_name, archive_paths.
    rewrite Hsub. cbn [negb andb fst snd]. by rewrite Hsubm, Hcom.
  - eapply process_subreddit_file_named. apply surjective_pairing.
  - intros prompt Hreach w'. split.
    + destruct Hreach as (_ & _ & _ & _ & chunk & _ & _ & _ & _ & _ & _ & Hprompt).
      unfold prompt_of in Hprompt.
      apply bind_Ok in Hprompt as (md & _ & Hprompt).
      apply bind_Ok in Hprompt as (content & _ & [= <-]).
      left. by eexists _, _.
    + destruct (falsy (OPENAI_API_KEY E)) eqn:Hkey.
      * destruct (process_first_chunk_no_key E p output_dir chunk_size
                    max_chunks is_submission prompt w Hkey Hreach)
          as (w1 & Hrun & _ & Hfiles).
        subst w'. by rewrite Hrun.
      * by apply process_first_chunk_sent.
  - intros name prompt [(content & md & ->)|(count & pct & all & ->)].
    + destruct (prepare_ai_prompt_heading name content md) as [rest ->].
      exists rest. by left.
    + destruct (meta_prompt_heading name count pct all) as [rest ->].
      exists rest. by right.
  - eapply main_named. apply surjective_pairing.
  - intros all_analyses. apply combined_prompt_heading.
Qed.

Lemma identifier_from_basename_witness :
  let comment : item := <["body" := VStr "Any sources?"]>
                          (<["created_utc" := VInt 1700000000]> ∅) in
  let path := "dumps/AskHistorians_2024_comments.zst" in
  let E := {| OPENAI_API_KEY := Some "sk-test";
              archives := {[ path :=
                 {| st_size := 2048;
                    contents := {| yields := [(comment, "", 2048)];
                                   failure := None |} |} ]};
              completion := λ _ _, Some "Sourcing."; today := "2025-03-01";
              json_dump := λ j, match field "subreddit" j with
                                | Some (JStr name) => name
                                | _ => ""
                                end |} in
  let w' := (process_subreddit_file E path "out" 100 5 false
               {| files := ∅; dirs := ∅; requests := [] |}).2 in
  subreddit_name_of path = "AskHistorians"
  ∧ (∃ prompt later, prompt_of "AskHistorians" false [comment] = Ok prompt
                     ∧ requests w' = prompt :: later)
  ∧ (∀ file, files w' !! file ≠ None → names_file "out" "AskHistorians" file)
  ∧ Forall (names_request "AskHistorians") (requests w')
  ∧ names_summary E "AskHistorians"
      (files w' !! "out/AskHistorians_analysis_summary.json").
Proof.
  intros comment path E w'.
  destruct (identifier_from_basename E
              {| arg_submissions := None; arg_comments := Some path;
                 arg_subreddit := None; arg_data_dir := "dumps";
                 arg_output_dir := "out";
                 arg_chunk_size := 100; arg_max_chunks := 5 |}
              path path "out" 100 5 false
              {| files := ∅; dirs := ∅; requests := [] |})
    as (Hprefix & _ & _ & _ & _ & _ & _ & Hdone & Hfirst & _).
  assert (Hname : subreddit_name_of path = "AskHistorians")
    by (apply (Hprefix "AskHistorians" "2024_comments.zst"); reflexivity).
  rewrite Hname in Hdone, Hfirst. fold w' in Hdone.
  destruct Hdone as (Hfiles & (new & Hrequests & Hnew) & Hsummary).
  split; [exact Hname|]. split; [|split; [|split]].
  - destruct (prompt_of "AskHistorians" false [comment]) as [prompt|]
      eqn:Hprompt; [|by vm_compute in Hprompt].
    destruct (Hfirst prompt) as [_ [later Hlater]].
    { exists {| st_size := 2048;
                contents := {| yields := [(comment, "", 2048)];
                               failure := None |} |},
        1, ([comment], 1), (NFloat (S754_finite false 7036874417766400 (-46))),
        [comment], [].
      split; [reflexivity|]. split; [reflexivity|]. split; [reflexivity|].
      split; [reflexivity|]. split; [reflexivity|]. exact Hprompt. }
    by exists prompt, later.
  - intros file Hfile. apply Hfiles.
    change (files w' !! file ≠ (∅ : gmap string string) !! file).
    by rewrite lookup_empty.
  - by rewrite Hrequests.
  - apply Hsummary. unfold changed. by vm_compute.
Defined.

(** ** The end-to-end scenarios of the spec *)

(** 250 comments, chunks of 100, at most 5 chunks, every request
    answered: three chunk requests and one meta request, and a summary
    with [chunks_analyzed] 3 and [total_posts_analyzed] 250. *)
Example run_250_comments :
  let comment (k : nat) : item * string * Z :=
    (<["body" := VStr "late again"]> (<["created_utc" := VInt 1700000000]> ∅),
     "", 64 * (Z.of_nat k + 1)) in
  let E := {| OPENAI_API_KEY := Some "sk-live";
              archives := {[ "data/trains_comments.zst" :=
                 {| st_size := 16000;
                    contents := {| yields := comment <$> seq 0 250;
                                   failure := None |} |} ]};
              completion := λ n _, Some ("analysis " +:+ pretty n);
              today := "2025-03-01";
              json_dump := λ j,
                match j with
                | JObj [ (_, JStr name); (_, JInt chunks); (_, JInt posts); _; _;
                         (key, JStr text) ] =>
                    name +:+ " " +:+ pretty chunks +:+ " " +:+ pretty posts
                      +:+ " " +:+ key +:+ " " +:+ text
                | _ => ""
                end |} in
  let out := process_subreddit_file E "data/trains_comments.zst"
               "out/trains/comments" 100 5 false
               {| files := ∅; dirs := ∅; requests := [] |} in
  (λ r, (chunk_id r, post_count (result_metadata r)))
    <$> default [] (fst <$> default None (match out.1 with
                                          | Ok x => Some x
                                          | Raise _ => None
                                          end))
  = [(1, 100); (2, 100); (3, 50)]
  ∧ length (requests out.2) = 4%nat
  ∧ files out.2 !! "out/trains/comments/trains_analysis_summary.json"
    = Some "trains 3 250 meta_analysis analysis 3".
Proof.
  vm_compute. repeat split.
Qed.

(** 50 submissions and 80 comments, one chunk each, every request
    answered: two per-type summaries by the single-chunk shortcut, then
    one combined request and the final summary. *)
Example run_50_submissions_80_comments :
  let record (k : nat) : item * string * Z :=
    (<["title" := VStr "delayed"]>
       (<["body" := VStr "late again"]>
          (<["created_utc" := VInt 1700000000]> ∅)),
     "", 64 * (Z.of_nat k + 1)) in
  let arch n := {| st_size := 8192;
                   contents := {| yields := record <$> seq 0 n;
                                  failure := None |} |} in
  let E := {| OPENAI_API_KEY := Some "sk-live";
              archives := <["data/trains_submissions.zst" := arch 50%nat]>
                            {[ "data/trains_comments.zst" := arch 80%nat ]};
              completion := λ n _, Some ("analysis " +:+ pretty n);
              today := "2025-03-01";
              json_dump := λ j,
                match j with
                | JObj [ _; (_, JInt chunks); (_, JInt posts); _; _;
                         (key, JStr text) ] =>
                    pretty chunks +:+ " " +:+ pretty posts
                      +:+ " " +:+ key +:+ " " +:+ text
                | JObj [ _; _; (_, JInt posts); (_, JInt comments); _;
                         (key, JStr text) ] =>
                    pretty posts +:+ " " +:+ pretty comments
                      +:+ " " +:+ key +:+ " " +:+ text
                | _ => ""
                end |} in
  let a := {| arg_submissions := None; arg_comments := None;
              arg_subreddit := Some "trains"; arg_data_dir := "data";
              arg_output_dir := "out";
              arg_chunk_size := 100; arg_max_chunks := 5 |} in
  let out := main E a {| files := ∅; dirs := ∅; requests := [] |} in
  out.1 = Ok ()
  ∧ length (requests out.2) = 3%nat
  ∧ files out.2 !! "out/trains/submissions/trains_analysis_summary.json"
    = Some "1 50 analysis analysis 0"
  ∧ files out.2 !! "out/trains/comments/trains_analysis_summary.json"
    = Some "1 80 analysis analysis 1"
  ∧ last (requests out.2)
    = Some (combined_prompt_text "trains" ["analysis 0"; "analysis 1"])
  ∧ files out.2 !! "out/trains/trains_analysis_summary.json"
    = Some "50 80 combined_analysis analysis 2".
Proof.
  vm_compute. repeat split.
Qed.

(** *** Checks of the primitives against CPython *)

Example int_of_padded_text : py_int (VStr (" +1_000" +:+ newline)) = Ok 1000.
Proof. reflexivity. Qed.

Example int_of_decimal_text : py_int (VStr "12.0") = Raise ValueError.
Proof. reflexivity. Qed.

Example int_of_none : py_int VNone = Raise TypeError.
Proof. reflexivity. Qed.

Example leap_day : strftime_ymd 951782400 = "2000-02-29".
Proof. reflexivity. Qed.

Example before_the_epoch : strftime_ymd (-1) = "1969-12-31".
Proof. reflexivity. Qed.

Example year_10000 : utcfromtimestamp 253402300800 = Raise ValueError.
Proof. reflexivity. Qed.

Example one_third : int_truediv 1 3 = Ok (S754_finite false 6004799503160661 (-54)).
Proof. reflexivity. Qed.

Example round_half_case : format_2f (NFloat (round2 (S754_finite false 1 (-3)))) = "0.12".
Proof. reflexivity. Qed.

Example format_of_int_zero : format_2f (NInt 0) = "0.00".
Proof. reflexivity. Qed.

Example repr_picks_quotes :
  py_repr_list ["it's"; "a\b"] = "[" +:+ String double_quote "it's"
                                   +:+ String double_quote ", 'a\\b']".
Proof. reflexivity. Qed.

Example join_is_posix :
  path_join "out" "books" = "out/books" ∧ path_join "out/" "books" = "out/books"
  ∧ path_join "out" "/abs" = "/abs" ∧ basename "data/x_y/books_comments.zst"
                                      = "books_comments.zst".
Proof. repeat split. Qed.

Example negative_slice : py_slice_to [1; 2; 3] (-1) = [1; 2].
Proof. reflexivity. Qed.

(* ===================================================================== *)
(** * Part III: further properties of the code                            *)
(* ===================================================================== *)

(** ** Formatting a chunk *)

Lemma for_each_app {A S} (body : S → A → result S) l1 l2 : ∀ s,
  for_each body s (l1 ++ l2) = for_each body s l1 ≫= λ s', for_each body s' l2.
Proof.
  induction l1 as [|x l1 IH]; intros s; simpl; [done|].
  destruct (body s x) as [s'|e]; simpl; [apply IH | done].
Qed.

Lemma for_each_cons {A S} (body : S → A → result S) x l s :
  for_each body s (x :: l) = body s x ≫= λ s', for_each body s' l.
Proof. reflexivity. Qed.

Lemma format_step_dated is_submission acc it :
  dated it → ∃ acc', format_step is_submission acc it = Ok acc'.
Proof.
  intros [t Ht]. unfold format_step, format_item, created_date. rewrite Ht.
  destruct is_submission; simpl; destruct (_ && _); eauto.
Qed.

Lemma format_step_undated is_submission acc it e :
  created_time it = Raise e → format_step is_submission acc it = Raise e.
Proof.
  intros Ht. unfold format_step, format_item, created_date. rewrite Ht.
  by destruct is_submission.
Qed.

Lemma format_content_unfold items is_submission :
  format_content_for_ai items is_submission
  = for_each (format_step is_submission) [] items
      ≫= λ formatted_items, Ok (join (newline +:+ newline) formatted_items).
Proof. reflexivity. Qed.

Lemma format_loop_dated is_submission items : ∀ acc,
  Forall dated items →
  ∃ acc', for_each (format_step is_submission) acc items = Ok acc'.
Proof.
  induction items as [|it items IH]; intros acc Hall; [by eexists|].
  apply Forall_cons in Hall as [Hit Hall].
  destruct (format_step_dated is_submission acc it Hit) as [acc1 Hacc1].
  rewrite for_each_cons, Hacc1. by apply IH.
Qed.

(** X1.  [format_content_for_ai] returns exactly when the timestamp of
    every item converts; otherwise it raises what the first item that
    does not convert raises, whatever the kind of the items and whether
    or not that item would have been rendered. *)
Theorem format_needs_every_timestamp (items : list item) (is_submission : bool) :
  (Forall dated items →
     ∃ text, format_content_for_ai items is_submission = Ok text)
  ∧ (∀ before it after e,
       items = before ++ it :: after → Forall dated before →
       created_time it = Raise e →
       format_content_for_ai items is_submission = Raise e).
Proof.
  split.
  - intros Hall. rewrite format_content_unfold.
    destruct (format_loop_dated is_submission items [] Hall) as [acc ->].
    by eexists.
  - intros before it after e -> Hbefore Hit.
    rewrite format_content_unfold, for_each_app.
    destruct (format_loop_dated is_submission before [] Hbefore) as [acc ->].
    cbn [mbind result_bind].
    by rewrite for_each_cons, (format_step_undated _ _ _ _ Hit).
Qed.

Lemma format_needs_every_timestamp_witness :
  let removed : item := <["body" := VStr "[removed]"]>
                          (<["created_utc" := VStr "yesterday"]> ∅) in
  let kept : item := <["body" := VStr "fine"]> ∅ in
  format_content_for_ai [kept; removed; kept] false = Raise ValueError.
Proof.
  intros removed kept.
  destruct (format_needs_every_timestamp [kept; removed; kept] false)
    as [_ Hfail].
  apply (Hfail [kept] removed [kept] ValueError); [done| |done].
  repeat constructor. by exists 0.
Defined.

(** X2.  A comment whose body is missing, empty, [[deleted]] or
    [[removed]] leaves no trace in the formatted content, provided its
    timestamp converts: the content is the one of the chunk without
    it. *)
Theorem removed_comment_leaves_no_trace (before after : list item) (it : item) :
  dated it →
  (let body := get it "body" (VStr "") in
   truthy body = false ∨ body = VStr "[deleted]" ∨ body = VStr "[removed]") →
  format_content_for_ai (before ++ it :: after) false
  = format_content_for_ai (before ++ after) false.
Proof.
  intros [t Ht] Hbody. rewrite !format_content_unfold, !for_each_app.
  destruct (for_each (format_step false) [] before) as [acc|e]; [|done].
  cbn [mbind result_bind]. rewrite for_each_cons.
  assert (Hskip : format_step false acc it = Ok acc).
  { unfold format_step, format_item, created_date. rewrite Ht.
    cbn [fmap result_fmap mbind result_bind].
    destruct Hbody as [-> | [-> | ->]]; done. }
  by rewrite Hskip.
Qed.

Lemma removed_comment_leaves_no_trace_witness :
  let comment (b : string) : item :=
    <["body" := VStr b]> (<["created_utc" := VInt 1700000000]> ∅) in
  format_content_for_ai [comment "first"; comment "[deleted]"; comment "last"]
    false
  = format_content_for_ai [comment "first"; comment "last"] false.
Proof.
  intros comment.
  apply (removed_comment_leaves_no_trace [comment "first"] [comment "last"]
           (comment "[deleted]")).
  - by exists 1700000000.
  - right. left. reflexivity.
Defined.

Lemma format_loop_undated is_submission items : ∀ acc it e,
  it ∈ items → created_time it = Raise e →
  ∃ e', for_each (format_step is_submission) acc items = Raise e'.
Proof.
  induction items as [|x items IH]; intros acc it e Hin Hit.
  - by apply elem_of_nil in Hin.
  - rewrite for_each_cons.
    destruct (created_time x) as [t|ex] eqn:Hx.
    + destruct (format_step_dated is_submission acc x (ex_intro _ t Hx))
        as [acc1 ->].
      apply elem_of_cons in Hin as [->|Hin]; [congruence|].
      by apply (IH acc1 it e).
    + rewrite (format_step_undated is_submission acc x ex Hx). by eexists.
Qed.

Lemma format_content_undated items is_submission it e :
  it ∈ items → created_time it = Raise e →
  ∃ e', format_content_for_ai items is_submission = Raise e'.
Proof.
  intros Hin Hit. rewrite format_content_unfold.
  destruct (format_loop_undated is_submission items [] it e Hin Hit)
    as [e' ->].
  by eexists.
Qed.

(** ** The scores of a chunk *)

Lemma scan_item_score acc it acc' :
  scan_item acc it = Ok acc' →
  acc_total_score acc' = acc_total_score acc + score_of it
  ∧ ∀ v, it !! "score" = Some v → ∃ sc, py_int v = Ok sc.
Proof.
  unfold scan_item. intros (acc1 & Hdate & Hscore)%bind_Ok.
  apply scan_date_spec in Hdate.
  assert (Htotal : acc_total_score (scan_author acc1 it) = acc_total_score acc).
  { unfold scan_author. subst acc1.
    destruct (timestamp_of it); destruct (it !! "author");
      try case_bool_decide; done. }
  revert Hscore. unfold scan_score, has_key, score_of, get.
  destruct (it !! "score") as [v|].
  - rewrite bool_decide_eq_true_2 by eauto.
    intros (sc & Hsc & [= <-])%bind_Ok. rewrite Hsc. simpl.
    split; [lia|]. intros ? [= <-]. eauto.
  - rewrite bool_decide_eq_false_2 by (by intros [? ?]).
    intros [= <-]. split; [lia | done].
Qed.

Lemma scan_scores chunk : ∀ acc acc',
  for_each scan_item acc chunk = Ok acc' →
  acc_total_score acc'
  = acc_total_score acc + foldr (λ it total, score_of it + total) 0 chunk
  ∧ ∀ it v, it ∈ chunk → it !! "score" = Some v → ∃ sc, py_int v = Ok sc.
Proof.
  induction chunk as [|x chunk IH]; intros acc acc' Hrun.
  - injection Hrun as <-. simpl. split; [lia|]. by intros ?? ?%elem_of_nil.
  - rewrite for_each_cons in Hrun.
    apply bind_Ok in Hrun as (acc1 & Hx & Hrest).
    apply scan_item_score in Hx as [Hx Hconv].
    apply IH in Hrest as [Hrest Hall]. simpl. split; [lia|].
    intros it v [->|Hin]%elem_of_cons; eauto.
Qed.

(** X3.  When [extract_metadata] returns, [total_score] is the sum of
    the scores of the items that have one, each read through [int()].
    A score that [int()] rejects is not skipped the way a bad timestamp
    is: it makes the extractor raise. *)
Theorem total_score_sums_scores (chunk : list item) :
  (∀ md, extract_metadata chunk = Ok md →
     total_score md = foldr (λ it total, score_of it + total) 0 chunk)
  ∧ (∀ it v e, it ∈ chunk → it !! "score" = Some v → py_int v = Raise e →
       ∃ e', extract_metadata chunk = Raise e').
Proof.
  split.
  - intros md (acc & Hrun & _ & _ & _ & _ & -> & _)%extract_metadata_Ok.
    by apply scan_scores in Hrun as [-> _].
  - intros it v e Hin Hv Hbad.
    destruct (extract_metadata chunk) as [md|e'] eqn:Hmd; [|by eexists].
    apply extract_metadata_Ok in Hmd as (acc & Hrun & _).
    apply scan_scores in Hrun as [_ Hall].
    destruct (Hall it v Hin Hv) as [sc Hsc]. congruence.
Qed.

Lemma total_score_sums_scores_witness :
  let scored (v : value) : item := <["score" := v]> ∅ in
  ∃ e, extract_metadata [scored (VInt 4); scored VNone; scored (VStr "7")]
       = Raise e.
Proof.
  intros scored.
  destruct (total_score_sums_scores
              [scored (VInt 4); scored VNone; scored (VStr "7")]) as [_ Hbad].
  apply (Hbad (scored VNone) VNone TypeError); [|done|done].
  do 2 constructor.
Defined.

(** ** The bounded read *)

(** The reading loop of lines 340-352, entered with [n] items already
    in [acc]: when it ends normally the buffer has grown by the records
    met up to the one that reaches the cap, at least one. *)
Lemma ingest_loop file_size cap l : ∀ fail acc n res,
  for_yields (λ st t,
      let all_items := st.1 ++ [t.1.1] in
      let items_processed := st.2 + 1 in
      _ ← (if items_processed mod 10000 =? 0
           then ratio ← int_truediv t.2 file_size; float_mul_int ratio 100
           else Ok (S754_zero false));
      if cap <=? items_processed
      then Ok (Break (all_items, items_processed))
      else Ok (Continue (all_items, items_processed)))
    (acc, n) l fail = Ok res →
  let read := take (Z.to_nat (Z.max 1 (cap - n))) l in
  res = (acc ++ read.*1.*1, n + len read).
Proof.
  induction l as [|t l IH]; intros fail acc n res Hrun read; subst read.
  - simpl in Hrun. destruct fail; simplify_eq.
    rewrite take_nil. simpl. rewrite app_nil_r. f_equal. unfold len. simpl. lia.
  - cbn [for_yields fst snd] in Hrun.
    match type of Hrun with
    | match ?p ≫= _ with _ => _ end = _ =>
        destruct p as [?|?]; cbn [mbind result_bind] in Hrun; [|done]
    end.
    destruct (Z.leb_spec cap (n + 1)) as [Hcap|Hcap].
    + simplify_eq.
      replace (Z.to_nat (Z.max 1 (cap - n))) with 1%nat by lia.
      simpl. rewrite take_0. by simpl.
    + apply IH in Hrun. cbv zeta in Hrun. rewrite Hrun.
      replace (Z.to_nat (Z.max 1 (cap - n)))
        with (S (Z.to_nat (Z.max 1 (cap - (n + 1))))) by lia.
      simpl. rewrite <- app_assoc. simpl. f_equal.
      unfold len. simpl. lia.
Qed.

Lemma ingest_loop_returns file_size cap l : ∀ fail acc n,
  0 <= n → Z.max (n + 1) cap < 10000 →
  fail = None ∨ Z.max 1 (cap - n) <= len l →
  ∃ res,
    for_yields (λ st t,
        let all_items := st.1 ++ [t.1.1] in
        let items_processed := st.2 + 1 in
        _ ← (if items_processed mod 10000 =? 0
             then ratio ← int_truediv t.2 file_size; float_mul_int ratio 100
             else Ok (S754_zero false));
        if cap <=? items_processed
        then Ok (Break (all_items, items_processed))
        else Ok (Continue (all_items, items_processed)))
      (acc, n) l fail = Ok res.
Proof.
  induction l as [|t l IH]; intros fail acc n Hn Hcap Hfail; simpl.
  - destruct Hfail as [->|Hlen]; [by eexists|]. unfold len in Hlen. simpl in Hlen. lia.
  - assert (Hmod : ((n + 1) mod 10000 =? 0) = false).
    { apply Z.eqb_neq. rewrite Z.mod_small by lia. lia. }
    rewrite Hmod. simpl.
    destruct (Z.leb_spec cap (n + 1)) as [Hle|Hlt]; [by eexists|].
    apply IH; [lia|lia|].
    destruct Hfail as [->|Hlen]; [by left|]. right.
    unfold len in *. simpl in Hlen. lia.
Qed.

Lemma ingest_Ok file_size chunk_size max_chunks src items count :
  ingest file_size chunk_size max_chunks src = Ok (items, count) →
  items = (take (Z.to_nat (Z.max 1 (chunk_size * max_chunks))) (yields src)).*1.*1
  ∧ count = len items.
Proof.
  unfold ingest, for_source. intros Hrun%ingest_loop. simpl in Hrun.
  injection Hrun as -> ->. rewrite Z.sub_0_r. split; [done|].
  unfold len. by rewrite !length_fmap.
Qed.

(** X4.  The second pass is a bounded read.  When it ends normally the
    buffer holds the records of the archive, in order, up to the first
    [max(1, chunk_size * max_chunks)] of them (one record is read even
    when the product is not positive), and [items_processed] is the size
    of the buffer.  For a cap below 10000 it does end normally when the
    archive is read through without failure, and also when a failure
    lies beyond the cap. *)
Theorem bounded_read (file_size chunk_size max_chunks : Z) (src : source) :
  let cap := Z.max 1 (chunk_size * max_chunks) in
  (∀ items count,
     ingest file_size chunk_size max_chunks src = Ok (items, count) →
     items = (take (Z.to_nat cap) (yields src)).*1.*1
     ∧ count = len items ∧ count <= cap)
  ∧ (chunk_size * max_chunks < 10000 →
     failure src = None ∨ cap <= len (yields src) →
     ∃ items count,
       ingest file_size chunk_size max_chunks src = Ok (items, count)).
Proof.
  intros cap. split.
  - intros items count [-> ->]%ingest_Ok. split; [done|]. split; [done|].
    unfold len, cap. rewrite !length_fmap, length_take. lia.
  - intros Hcap Hfail. unfold ingest, for_source.
    destruct (ingest_loop_returns file_size (chunk_size * max_chunks)
                (yields src) (failure src) [] 0) as [[items count] Hres];
      [lia | lia | by rewrite Z.sub_0_r |].
    by exists items, count.
Qed.

Lemma bounded_read_witness :
  let record (k : nat) : item * string * Z :=
    (<["id" := VInt (Z.of_nat k)]> ∅, "", 100 * (Z.of_nat k + 1)) in
  let src := {| yields := record <$> seq 0 7; failure := Some ReadError |} in
  ∃ items count, ingest 4096 2 3 src = Ok (items, count).
Proof.
  intros record src.
  destruct (bounded_read 4096 2 3 src) as [_ Hreturns].
  apply Hreturns; [lia|]. right. vm_compute. discriminate.
Defined.

(** ** From the read to the chunk loop *)

Lemma chunks_cover {A} (items : list A) s m :
  0 < s → 0 < m → len items <= s * m →
  concat (chunks_to_process items s m) = items.
Proof.
  intros Hs Hm Hlen. rewrite chunks_to_process_prefix by lia.
  rewrite concat_batches. apply take_ge.
  pose proof (chunk_count_ceil (len items) s ltac:(unfold len; lia) Hs)
    as (Hq0 & _ & Hq).
  rewrite <- Z2Nat.inj_mul by lia.
  destruct (Z.min_spec (chunk_count (len items) s) m) as [[_ ->]|[_ ->]];
    unfold len in *; lia.
Qed.

Lemma ingest_positive_cap file_size chunk_size max_chunks src items count :
  0 < chunk_size → 0 < max_chunks →
  ingest file_size chunk_size max_chunks src = Ok (items, count) →
  items = (take (Z.to_nat (chunk_size * max_chunks)) (yields src)).*1.*1
  ∧ len items <= chunk_size * max_chunks.
Proof.
  intros Hs Hm [-> _]%ingest_Ok.
  assert (Hcap : Z.max 1 (chunk_size * max_chunks) = chunk_size * max_chunks)
    by nia.
  rewrite Hcap. split; [done|].
  unfold len. rewrite !length_fmap, length_take. lia.
Qed.

(** X5.  With a positive chunk size and a positive chunk cap, what the
    chunk loop goes through is exactly what was read: the chunks put end
    to end are the first [chunk_size * max_chunks] records of the
    archive, in the order of the archive, none dropped and none twice.
    ([chunk_list] is the chunker of section 4.3 of the specification.) *)
Theorem chunks_partition_the_read (file_size chunk_size max_chunks : Z)
    (src : source) (items : list item) (count : Z) :
  0 < chunk_size → 0 < max_chunks →
  ingest file_size chunk_size max_chunks src = Ok (items, count) →
  concat (chunks_to_process items chunk_size max_chunks)
  = (take (Z.to_nat (chunk_size * max_chunks)) (yields src)).*1.*1.
Proof.
  intros Hs Hm Hread.
  destruct (ingest_positive_cap _ _ _ _ _ _ Hs Hm Hread) as [Hitems Hlen].
  rewrite <- Hitems. by apply chunks_cover.
Qed.

Lemma chunks_partition_the_read_witness :
  let record (k : nat) : item * string * Z :=
    (<["id" := VInt (Z.of_nat k)]> ∅, "", 100 * (Z.of_nat k + 1)) in
  let src := {| yields := record <$> seq 0 7; failure := None |} in
  let items := (record <$> seq 0 6).*1.*1 in
  concat (chunks_to_process items 2 3) = items.
Proof.
  intros record src items.
  apply (chunks_partition_the_read 4096 2 3 src items 6); [lia|lia|].
  vm_compute. reflexivity.
Defined.

(** X6.  A chunk cap that is not positive does not switch the read off:
    the loop tests the cap after it has buffered a record, so one record
    is read and counted, and no chunk is handed to the chunk loop. *)
Theorem nonpositive_cap_reads_one_record (file_size chunk_size max_chunks : Z)
    (src : source) (items : list item) (count : Z) :
  0 < chunk_size → max_chunks <= 0 →
  ingest file_size chunk_size max_chunks src = Ok (items, count) →
  items = (take 1 (yields src)).*1.*1
  ∧ count = len items
  ∧ chunks_to_process items chunk_size max_chunks = [].
Proof.
  intros Hs Hm [Hitems Hcount]%ingest_Ok.
  assert (Hcap : Z.max 1 (chunk_size * max_chunks) = 1) by nia.
  rewrite Hcap in Hitems. change (Z.to_nat 1) with 1%nat in Hitems.
  split; [done|]. split; [done|].
  assert (Hlen : len items <= 1).
  { rewrite Hitems. unfold len. rewrite !length_fmap, length_take. lia. }
  unfold chunks_to_process, py_slice_to.
  destruct (Z.leb_spec 0 max_chunks) as [Hzero|Hneg].
  - by replace max_chunks with 0 by lia.
  - assert (Hnone : ∀ n : nat, (n <= 1)%nat →
              (n - Z.to_nat (- max_chunks) = 0)%nat) by lia.
    rewrite Hnone; [done|].
    unfold chunk_list. rewrite length_fmap, length_seq.
    assert (chunk_count (len items) chunk_size <= 1); [|lia].
    unfold chunk_count. destruct (Z.ltb_spec 0 chunk_size) as [_|]; [|lia].
    apply Z.lt_succ_r, Z.div_lt_upper_bound; lia.
Qed.

Lemma nonpositive_cap_reads_one_record_witness :
  let record (k : nat) : item * string * Z :=
    (<["id" := VInt (Z.of_nat k)]> ∅, "", 100 * (Z.of_nat k + 1)) in
  let src := {| yields := record <$> seq 0 7; failure := None |} in
  let items := (record <$> seq 0 1).*1.*1 in
  items = (take 1 (yields src)).*1.*1
  ∧ 1 = len items
  ∧ chunks_to_process items 100 0 = [].
Proof.
  intros record src items.
  apply (nonpositive_cap_reads_one_record 4096 100 0 src items 1); [lia|lia|].
  vm_compute. reflexivity.
Defined.

(** ** A record whose timestamp does not convert *)

Lemma process_chunk_undated E output_dir name is_submission i chunk acc w it e :
  it ∈ chunk → created_time it = Raise e →
  ∃ e', process_chunk E output_dir name is_submission i chunk acc w
        = (Raise e', w).
Proof.
  intros Hin Hit. unfold process_chunk, mbind, run_bind, lift.
  destruct (extract_metadata chunk) as [md|e0]; [|by eexists].
  destruct (format_content_undated chunk is_submission it e Hin Hit)
    as [e' ->].
  by eexists.
Qed.

Lemma process_chunks_undated E output_dir name is_submission chunks :
  ∀ i acc w chunk it e,
  chunk ∈ chunks → it ∈ chunk → created_time it = Raise e →
  ∃ e', (process_chunks E output_dir name is_submission i chunks acc w).1
        = Raise e'.
Proof.
  induction chunks as [|c chunks IH]; intros i acc w chunk it e Hc Hin Hit.
  - by apply elem_of_nil in Hc.
  - simpl. unfold mbind, run_bind.
    destruct (process_chunk E output_dir name is_submission i c acc w)
      as [[acc1|e1] w1] eqn:Hrun; [|by eexists].
    apply elem_of_cons in Hc as [->|Hc].
    + destruct (process_chunk_undated E output_dir name is_submission i c acc
                  w it e Hin Hit) as [e' He'].
      congruence.
    + by apply (IH (i + 1) acc1 w1 chunk it e).
Qed.

(** X7.  One record whose timestamp does not convert, anywhere among the
    records that are read, ends the processing of the archive in an
    exception: the metadata extractor skips such a record, the formatter
    does not.  The summary of the archive is then left as it was. *)
Theorem undated_record_aborts_archive (E : env) (file_path output_dir : string)
    (chunk_size max_chunks : Z) (is_submission : bool) (arch : archive)
    (it : item) (e : exn) (w : world) :
  archives E !! file_path = Some arch →
  0 < chunk_size → 0 < max_chunks →
  it ∈ (take (Z.to_nat (chunk_size * max_chunks))
          (yields (contents arch))).*1.*1 →
  created_time it = Raise e →
  let out := process_subreddit_file E file_path output_dir chunk_size
               max_chunks is_submission w in
  let summary := summary_file output_dir (subreddit_name_of file_path) in
  (∃ e', out.1 = Raise e')
  ∧ files out.2 !! summary = files w !! summary.
Proof.
  intros Harch Hs Hm Hin Hit out summary.
  destruct out as [r w'] eqn:Hrun. subst out. simpl.
  unfold process_subreddit_file in Hrun. rewrite Harch in Hrun.
  apply run_bind_inv in Hrun as [(found & w0 & Hfound & Hrun)|(e0 & Hfound & _)];
    [|discriminate].
  injection Hfound as <- <-.
  apply run_bind_inv in Hrun as [([] & w1 & Hdir & Hrun)|(e0 & Hdir & ->)].
  2:{ exfalso. revert Hdir. unfold makedirs, mret, run_ret.
      destruct (_ || _); discriminate. }
  assert (Hf1 : files w1 = files w).
  { revert Hdir. unfold makedirs, mret, run_ret.
    destruct (_ || _); by intros [= <-]. }
  clear Hdir.
  apply run_bind_inv in Hrun as [(estimate & ? & [_ ->]%lift_inv & Hrun)
                                |(e0 & [_ ->]%lift_inv & ->)].
  2:{ rewrite Hf1. eauto. }
  apply run_bind_inv in Hrun as [([items count] & ? & [Hread ->]%lift_inv & Hrun)
                                |(e0 & [_ ->]%lift_inv & ->)].
  2:{ rewrite Hf1. eauto. }
  apply run_bind_inv in Hrun as [(pct & ? & [_ ->]%lift_inv & Hrun)
                                |(e0 & [_ ->]%lift_inv & ->)].
  2:{ rewrite Hf1. eauto. }
  symmetry in Hread.
  destruct (ingest_positive_cap _ _ _ _ _ _ Hs Hm Hread) as [Hitems Hlen].
  rewrite <- Hitems in Hin.
  rewrite <- (chunks_cover items chunk_size max_chunks Hs Hm Hlen) in Hin.
  apply list_elem_of_In, in_concat in Hin as (chunk & Hchunk & Hin).
  apply list_elem_of_In in Hchunk, Hin. cbn [fst snd] in Hrun.
  destruct (process_chunks_undated E output_dir (subreddit_name_of file_path)
              is_submission (chunks_to_process items chunk_size max_chunks)
              0 [] w1 chunk it e Hchunk Hin Hit) as [e' He'].
  apply run_bind_inv in Hrun as [(results & w2 & Hchunks & _)
                                |(e0 & Hchunks & ->)].
  { rewrite Hchunks in He'. discriminate. }
  apply process_chunks_keep_summary in Hchunks. fold summary in Hchunks.
  rewrite Hchunks, Hf1. eauto.
Qed.

Lemma undated_record_aborts_archive_witness :
  let comment (t : value) : item :=
    <["body" := VStr "late again"]> (<["created_utc" := t]> ∅) in
  let arch :=
    {| st_size := 2048;
       contents := {| yields := [ (comment (VInt 1700000000), "", 1024);
                                  (comment (VStr "yesterday"), "", 2048) ];
                      failure := None |} |} in
  let E := {| OPENAI_API_KEY := Some "sk-live";
              archives := {[ "data/trains_comments.zst" := arch ]};
              completion := λ _ _, Some "analysis"; today := "2025-03-01";
              json_dump := λ _, "{}" |} in
  ∃ e', (process_subreddit_file E "data/trains_comments.zst"
           "out/trains/comments" 100 5 false
           {| files := ∅; dirs := ∅; requests := [] |}).1 = Raise e'.
Proof.
  intros comment arch E.
  refine (proj1 (undated_record_aborts_archive E "data/trains_comments.zst"
                   "out/trains/comments" 100 5 false arch
                   (comment (VStr "yesterday")) ValueError
                   {| files := ∅; dirs := ∅; requests := [] |} _ _ _ _ _));
    [reflexivity | lia | lia | | reflexivity].
  change (comment (VStr "yesterday")
            ∈ [comment (VInt 1700000000); comment (VStr "yesterday")]).
  do 2 constructor.
Defined.

(** ** The two passes over one archive *)

(** X8.  For an archive below the threshold that is read through without
    failure, the two passes agree: the number of items processed never
    exceeds the estimate, and equals it whenever the archive holds no
    more than [max(1, chunk_size * max_chunks)] records. *)
Theorem processed_within_estimate (file_size chunk_size max_chunks : Z)
    (src : source) (total count : Z) (items : list item) :
  file_size < size_threshold → failure src = None →
  estimate_total_items file_size src = Ok total →
  ingest file_size chunk_size max_chunks src = Ok (items, count) →
  total = len (yields src)
  ∧ count <= total
  ∧ (total <= Z.max 1 (chunk_size * max_chunks) → count = total).
Proof.
  intros Hsmall Hok Htotal [-> ->]%ingest_Ok.
  unfold estimate_total_items in Htotal.
  destruct (Z.ltb_spec file_size size_threshold); [|lia].
  rewrite count_items_spec, Hok in Htotal. injection Htotal as <-.
  unfold len. rewrite !length_fmap, length_take. lia.
Qed.

Lemma processed_within_estimate_witness :
  let record (k : nat) : item * string * Z :=
    (<["id" := VInt (Z.of_nat k)]> ∅, "", 100 * (Z.of_nat k + 1)) in
  let src := {| yields := record <$> seq 0 7; failure := None |} in
  let items := (record <$> seq 0 6).*1.*1 in
  estimate_total_items 4096 src = Ok 7
  ∧ ingest 4096 2 3 src = Ok (items, 6)
  ∧ 6 <= 7.
Proof.
  intros record src items.
  assert (Htotal : estimate_total_items 4096 src = Ok 7)
    by (vm_compute; reflexivity).
  assert (Hread : ingest 4096 2 3 src = Ok (items, 6))
    by (vm_compute; reflexivity).
  split; [exact Htotal|]. split; [exact Hread|].
  apply (processed_within_estimate 4096 2 3 src 7 6 items);
    [by vm_compute | reflexivity | exact Htotal | exact Hread].
Defined.

(** ** The sign of the estimate *)

Lemma binary_round_aux_sign m e l :
  not_negative (binary_round_aux 53 1024 false m e l).
Proof.
  unfold binary_round_aux.
  destruct (shr_fexp 53 1024 m e l) as [mrs' e'].
  destruct (shr_fexp 53 1024 _ e' loc_Exact) as [mrs'' e''].
  destruct (shr_m mrs''); [done| |done].
  by destruct (e'' <=? 1024 - 53).
Qed.

Lemma int_truediv_sign a b x :
  0 <= a → 0 < b → int_truediv a b = Ok x → not_negative x.
Proof.
  intros Ha Hb. unfold int_truediv.
  destruct (Z.eqb_spec b 0); [lia|].
  assert (Hbs : (b <? 0) = false) by (apply Z.ltb_ge; lia).
  assert (Has : (a <? 0) = false) by (apply Z.ltb_ge; lia).
  rewrite Hbs, Has.
  destruct (a =? 0); [by intros [= <-]|].
  unfold SFdiv.
  destruct (SFdiv_core_binary _ _ _ _ _ _) as [[mz ez] lz].
  pose proof (binary_round_aux_sign mz ez lz) as Hsign. simpl xorb.
  destruct (binary_round_aux 53 1024 false mz ez lz);
    intros Hx; by simplify_eq.
Qed.

Lemma float_of_int_sign z y :
  0 <= z → float_of_int z = Ok y → not_negative y.
Proof.
  intros Hz. unfold float_of_int, binary_normalize.
  destruct z as [|p|p]; [by intros [= <-]| |lia].
  unfold binary_round. destruct (shl_align _ _ _) as [mz ez].
  pose proof (binary_round_aux_sign (Z.pos mz) ez loc_Exact) as Hsign.
  destruct (binary_round_aux 53 1024 false (Z.pos mz) ez loc_Exact);
    intros Hy; by simplify_eq.
Qed.

Lemma float_mul_int_sign x z p :
  not_negative x → 0 <= z → float_mul_int x z = Ok p → not_negative p.
Proof.
  intros Hx Hz. unfold float_mul_int.
  intros (y & Hy%float_of_int_sign & [= <-])%bind_Ok; [|done].
  destruct x as [sx|sx| |sx mx ex], y as [sy|sy| |sy my ey];
    simpl in *; subst; try done.
  apply binary_round_aux_sign.
Qed.

Lemma int_of_float_sign x n :
  not_negative x → int_of_float x = Ok n → 0 <= n.
Proof.
  destruct x as [s|s| |s m e]; simpl; intros Hs Hn; simplify_eq; [done|].
  simpl. by apply Z.shiftl_nonneg.
Qed.

(** X9.  Whatever the archive yields, the estimate of the number of
    items of a file whose size is not negative is not negative, on the
    counting path, the sampling path and the fallback alike. *)
Theorem estimate_not_negative (file_size : Z) (src : source) (total : Z) :
  0 <= file_size →
  estimate_total_items file_size src = Ok total →
  0 <= total.
Proof.
  intros Hsize. unfold estimate_total_items.
  assert (Hfallback : 0 <= file_size / bytes_per_item)
    by (apply Z.div_pos; [done | by vm_compute]).
  destruct (file_size <? size_threshold).
  - rewrite count_items_spec.
    destruct (failure src) as [e|]; [destruct (is_Exception e)|];
      intros [= <-]; [done|]. unfold len. lia.
  - intros ([i b] & Hsample & Hrun)%bind_Ok. cbn [fst snd] in Hrun.
    destruct (Z.ltb_spec 0 i), (Z.ltb_spec 0 b); simpl in Hrun;
      try (by injection Hrun as <-).
    unfold extrapolate in Hrun.
    apply bind_Ok in Hrun as (ratio & Hratio & Hrun).
    apply bind_Ok in Hrun as (product & Hproduct & Hrun).
    apply int_truediv_sign in Hratio; [|lia|done].
    apply float_mul_int_sign in Hproduct; [|done|done].
    by apply int_of_float_sign in Hrun.
Qed.

Lemma estimate_not_negative_witness :
  let src := {| yields := (λ k, (∅, "", (Z.of_nat k + 1) * 300)) <$> seq 0 1200;
                failure := None |} in
  ∃ total, estimate_total_items 629145600 src = Ok total ∧ 0 <= total.
Proof.
  intros src. exists 2097152.
  assert (Hrun : estimate_total_items 629145600 src = Ok 2097152)
    by (vm_compute; reflexivity).
  split; [exact Hrun|].
  apply (estimate_not_negative 629145600 src 2097152); [lia | exact Hrun].
Defined.

(** ** The files of the chunk loop *)

Lemma pretty_N_char_clean d : Ascii.eqb (pretty_N_char d) "_" = false.
Proof.
  destruct d as [|p]; [done|].
  do 4 (try destruct p as [p|p|]; try done).
Qed.

Lemma pretty_N_go_clean x : ∀ s,
  has_char "_" s = false → has_char "_" (pretty_N_go x s) = false.
Proof.
  induction (N.lt_wf_0 x) as [x _ IH]. intros s Hs.
  destruct (decide (0 < x)%N) as [Hx|Hx].
  - rewrite pretty_N_go_step by done. apply IH.
    + by apply N.div_lt.
    + simpl. by rewrite pretty_N_char_clean.
  - replace x with 0%N by lia. by rewrite pretty_N_go_0.
Qed.

Lemma pretty_Z_clean (z : Z) : has_char "_" (pretty z) = false.
Proof.
  assert (Hpos : ∀ p : positive, has_char "_" (pretty p) = false).
  { intros p. unfold pretty, pretty_positive, pretty, pretty_N.
    destruct (decide _); [done|]. by apply pretty_N_go_clean. }
  destruct z as [|p|p]; [done|apply Hpos|].
  change (pretty (Z.neg p)) with ("-" +:+ pretty p). simpl. apply Hpos.
Qed.

(** The files of two chunks, or the prompt and the analysis of one
    chunk, are different files. *)
Lemma chunk_file_inj output_dir name j j' rest rest' :
  chunk_file output_dir name j (String "_" rest)
  = chunk_file output_dir name j' (String "_" rest') →
  j = j' ∧ rest = rest'.
Proof.
  unfold chunk_file. intros Heq%path_join_inj; [|done|done].
  apply (append_inj_l "_chunk_") in Heq.
  assert (Hj : pretty j = pretty j').
  { apply (f_equal (split_first "_")) in Heq.
    by rewrite !split_first_until in Heq by apply pretty_Z_clean. }
  apply (inj pretty) in Hj as <-. split; [done|].
  apply append_inj_l in Heq. by injection Heq.
Qed.

Lemma process_chunk_disk E output_dir name is_submission i chunk acc w acc' w' :
  process_chunk E output_dir name is_submission i chunk acc w = (Ok acc', w') →
  (acc' = acc
   ∨ ∃ md text,
       extract_metadata chunk = Ok md
       ∧ acc' = acc ++ [ {| chunk_id := i + 1; result_metadata := md;
                            analysis := text |} ]
       ∧ files w' !! chunk_file output_dir name (i + 1) "_analysis.md"
         = Some text)
  ∧ (∀ j, j ≠ i + 1 →
       files w' !! chunk_file output_dir name j "_analysis.md"
       = files w !! chunk_file output_dir name j "_analysis.md").
Proof.
  intros Hrun. unfold process_chunk, analyze_with_openai, write_file in Hrun.
  run_cases Hrun.
  - split; [by left|]. intros j Hj.
    rewrite lookup_insert_ne; [done|]. by intros [_ ?]%chunk_file_inj.
  - split.
    + right. eexists _, _. split; [done|]. split; [done|].
      apply lookup_insert_eq.
    + intros j Hj. rewrite !lookup_insert_ne; [done| |].
      * by intros [_ ?]%chunk_file_inj.
      * by intros [? _]%chunk_file_inj.
Qed.

Lemma process_chunks_disk E output_dir name is_submission chunks :
  ∀ i acc w results w',
  process_chunks E output_dir name is_submission i chunks acc w
    = (Ok results, w') →
  (∀ r, r ∈ acc →
     chunk_id r <= i
     ∧ files w !! chunk_file output_dir name (chunk_id r) "_analysis.md"
       = Some (analysis r)) →
  ∀ r, r ∈ results →
    files w' !! chunk_file output_dir name (chunk_id r) "_analysis.md"
    = Some (analysis r).
Proof.
  induction chunks as [|chunk chunks IH]; intros i acc w results w' Hrun Hacc.
  - injection Hrun as <- <-. intros r Hr. by apply Hacc.
  - simpl in Hrun.
    apply run_bind_inv in Hrun as [(acc1 & w1 & Hchunk & Hrest)|(e & _ & ?)];
      [|done].
    apply (IH _ _ _ _ _ Hrest).
    apply process_chunk_disk in Hchunk as [Hnew Hkept].
    assert (Hold : ∀ r, r ∈ acc →
              chunk_id r <= i + 1
              ∧ files w1 !! chunk_file output_dir name (chunk_id r)
                             "_analysis.md" = Some (analysis r)).
    { intros r [Hid Hfile]%Hacc. split; [lia|].
      rewrite Hkept by lia. done. }
    destruct Hnew as [->|(md & text & _ & -> & Hfile)]; [done|].
    intros r [Hr | ->%list_elem_of_singleton]%elem_of_app; [by apply Hold|].
    simpl. split; [lia | done].
Qed.

Lemma process_chunks_metadata E output_dir name is_submission chunks :
  ∀ i acc w results w',
  process_chunks E output_dir name is_submission i chunks acc w
    = (Ok results, w') →
  ∃ new, results = acc ++ new
    ∧ Forall (λ r, ∃ (k : nat) chunk,
                chunks !! k = Some chunk
                ∧ chunk_id r = i + Z.of_nat k + 1
                ∧ extract_metadata chunk = Ok (result_metadata r)) new.
Proof.
  induction chunks as [|chunk chunks IH]; intros i acc w results w' Hrun.
  - injection Hrun as <- <-. exists []. by rewrite app_nil_r.
  - simpl in Hrun.
    apply run_bind_inv in Hrun as [(acc1 & w1 & Hchunk & Hrest)|(e & _ & ?)];
      [|done].
    apply IH in Hrest as (new & -> & Hnew).
    assert (Hshift : Forall (λ r, ∃ (k : nat) c,
                        (chunk :: chunks) !! k = Some c
                        ∧ chunk_id r = i + Z.of_nat k + 1
                        ∧ extract_metadata c = Ok (result_metadata r)) new).
    { eapply Forall_impl; [exact Hnew|].
      intros r (k & c & Hk & Hid & Hmd). exists (S k), c.
      split; [done|]. split; [lia | done]. }
    apply process_chunk_disk in Hchunk as [[->|(md & text & Hmd & -> & _)] _].
    + by exists new.
    + eexists (_ :: new). split; [by rewrite <- app_assoc|].
      constructor; [|done]. exists 0%nat, chunk. simpl.
      split; [done|]. split; [lia | done].
Qed.

(** X10.  When the chunk loop ends normally, every entry of its results
    is backed by what the loop did under the entry's own ordinal: the
    analysis file [<name>_chunk_<chunk_id>_analysis.md] holds the analysis
    of the entry, and the metadata of the entry is the one extracted from
    the chunk at position [chunk_id - 1].  (The ordinal, not the position
    in the results, names the file.) *)
Theorem results_are_on_disk (E : env) (output_dir name : string)
    (is_submission : bool) (chunks : list (list item))
    (w w' : world) (results : list chunk_result) :
  process_chunks E output_dir name is_submission 0 chunks [] w
    = (Ok results, w') →
  ∀ r, r ∈ results →
    files w' !! chunk_file output_dir name (chunk_id r) "_analysis.md"
    = Some (analysis r)
    ∧ ∃ chunk, chunks !! Z.to_nat (chunk_id r - 1) = Some chunk
        ∧ extract_metadata chunk = Ok (result_metadata r)
        ∧ post_count (result_metadata r) = len chunk.
Proof.
  intros Hrun r Hr. split.
  - apply (process_chunks_disk _ _ _ _ _ _ _ _ _ _ Hrun); [|done].
    by intros ? ?%elem_of_nil.
  - apply process_chunks_metadata in Hrun as (new & -> & Hnew).
    rewrite Forall_forall in Hnew.
    destruct (Hnew r Hr) as (k & chunk & Hk & Hid & Hmd).
    exists chunk. replace (Z.to_nat (chunk_id r - 1)) with k by lia.
    split; [done|]. split; [done|].
    apply extract_metadata_Ok in Hmd as (acc & _ & Hcount & _). done.
Qed.

Lemma results_are_on_disk_witness :
  let comment (b : string) : item :=
    <["body" := VStr b]> (<["created_utc" := VInt 1700000000]> ∅) in
  let E := {| OPENAI_API_KEY := Some "sk-live"; archives := ∅;
              completion := λ n _, if decide (n = 0%nat) then None
                                   else Some "Lost parcels.";
              today := "2025-03-01"; json_dump := λ _, "{}" |} in
  let chunks := [[comment "late"]; [comment "lost"; comment "again"]] in
  let out := process_chunks E "out" "trains" false 0 chunks []
               {| files := ∅; dirs := ∅; requests := [] |} in
  let r := {| chunk_id := 2;
              result_metadata :=
                {| post_count := 2; date_earliest := Some "2023-11-14";
                   date_latest := Some "2023-11-14"; authors := [];
                   avg_score := NFloat (S754_zero false); total_score := 0;
                   unique_authors := 0 |};
              analysis := "Lost parcels." |} in
  files out.2 !! "out/trains_chunk_2_analysis.md" = Some "Lost parcels.".
Proof.
  intros comment E chunks out r.
  refine (proj1 (results_are_on_disk E "out" "trains" false chunks
                   {| files := ∅; dirs := ∅; requests := [] |} out.2 [r]
                   _ r _)).
  - vm_compute. reflexivity.
  - constructor.
Defined.

(** ** The requests of the chunk loop *)

Lemma process_chunk_sends E output_dir name is_submission i chunk acc w acc' w' :
  falsy (OPENAI_API_KEY E) = false →
  process_chunk E output_dir name is_submission i chunk acc w = (Ok acc', w') →
  ∃ p, prompt_of name is_submission chunk = Ok p
    ∧ requests w' = requests w ++ [p]
    ∧ files w' !! chunk_file output_dir name (i + 1) "_prompt.txt" = Some p
    ∧ (∀ j, j ≠ i + 1 →
         files w' !! chunk_file output_dir name j "_prompt.txt"
         = files w !! chunk_file output_dir name j "_prompt.txt")
    ∧ (acc' = acc
       ∨ ∃ r, acc' = acc ++ [r] ∧ chunk_id r = i + 1
           ∧ completion E (length (requests w)) p = Some (analysis r)).
Proof.
  intros Hkey Hrun.
  unfold process_chunk, analyze_with_openai, write_file in Hrun.
  rewrite Hkey in Hrun. unfold prompt_of.
  unfold mbind at 1 2, run_bind, lift in Hrun.
  destruct (extract_metadata chunk) as [md|]; [|done].
  destruct (format_content_for_ai chunk is_submission) as [content|]; [|done].
  cbn [mbind result_bind]. eexists. split; [done|].
  unfold mbind, run_bind, mret, run_ret in Hrun. cbn [files dirs requests] in Hrun.
  destruct (completion E _ _) as [text|] eqn:Hanswer; cbn [falsy] in Hrun.
  - case_bool_decide; injection Hrun as <- <-; cbn [files dirs requests].
    + split; [done|]. split; [apply lookup_insert_eq|]. split; [|by left].
      intros j Hj. rewrite lookup_insert_ne; [done|].
      by intros [? _]%chunk_file_inj.
    + split; [done|]. split.
      { rewrite lookup_insert_ne; [apply lookup_insert_eq|].
        by intros [_ ?]%chunk_file_inj. }
      split.
      { intros j Hj. rewrite !lookup_insert_ne; [done| |].
        - by intros [? _]%chunk_file_inj.
        - by intros [_ ?]%chunk_file_inj. }
      right. eexists. split; [done|]. split; [done|]. done.
  - injection Hrun as <- <-; cbn [files dirs requests].
    split; [done|]. split; [apply lookup_insert_eq|]. split; [|by left].
    intros j Hj. rewrite lookup_insert_ne; [done|].
    by intros [? _]%chunk_file_inj.
Qed.

Lemma process_chunks_send E output_dir name is_submission chunks :
  falsy (OPENAI_API_KEY E) = false →
  ∀ i acc w results w',
  process_chunks E output_dir name is_submission i chunks acc w
    = (Ok results, w') →
  ∃ prompts,
    requests w' = requests w ++ prompts
    ∧ prompt_of name is_submission <$> chunks = Ok <$> prompts
    ∧ (∀ (k : nat) p, prompts !! k = Some p →
         files w' !! chunk_file output_dir name (i + Z.of_nat k + 1) "_prompt.txt"
         = Some p)
    ∧ (∀ j, j <= i →
         files w' !! chunk_file output_dir name j "_prompt.txt"
         = files w !! chunk_file output_dir name j "_prompt.txt")
    ∧ ∃ new, results = acc ++ new
        ∧ Forall (λ r, ∃ (k : nat) p,
                    prompts !! k = Some p
                    ∧ chunk_id r = i + Z.of_nat k + 1
                    ∧ completion E (length (requests w) + k) p
                      = Some (analysis r)) new.
Proof.
  intros Hkey.
  induction chunks as [|chunk chunks IH]; intros i acc w results w' Hrun.
  - injection Hrun as <- <-. exists []. rewrite !app_nil_r.
    split; [done|]. split; [done|]. split; [by intros ? ? ?|].
    split; [done|]. exists []. by rewrite app_nil_r.
  - simpl in Hrun.
    apply run_bind_inv in Hrun as [(acc1 & w1 & Hchunk & Hrest)|(e & _ & ?)];
      [|done].
    apply (process_chunk_sends _ _ _ _ _ _ _ _ _ _ Hkey) in Hchunk
      as (p & Hp & Hreq & Hfile & Hkept & Hacc1).
    apply IH in Hrest as (prompts & Hreqs & Hprompts & Hfiles & Hkepts
                          & new & -> & Hnew).
    exists (p :: prompts).
    split; [by rewrite Hreqs, Hreq, <- app_assoc|].
    split; [by rewrite !fmap_cons, Hp, Hprompts|].
    split.
    { intros [|k] q Hq.
      - injection Hq as <-. rewrite Hkepts by lia.
        by replace (i + Z.of_nat 0 + 1) with (i + 1) by lia.
      - simpl in Hq. apply Hfiles in Hq.
        by replace (i + Z.of_nat (S k) + 1) with (i + 1 + Z.of_nat k + 1)
          by lia. }
    split.
    { intros j Hj. rewrite Hkepts by lia. apply Hkept. lia. }
    assert (Hshift : Forall (λ r, ∃ (k : nat) q,
                        (p :: prompts) !! k = Some q
                        ∧ chunk_id r = i + Z.of_nat k + 1
                        ∧ completion E (length (requests w) + k) q
                          = Some (analysis r)) new).
    { eapply Forall_impl; [exact Hnew|].
      intros r (k & q & Hk & Hid & Hanswer). exists (S k), q.
      split; [done|]. split; [lia|].
      rewrite <- Hanswer, Hreq, length_app. simpl. f_equal. lia. }
    destruct Hacc1 as [->|(r & -> & Hid & Hanswer)].
    + by exists new.
    + exists (r :: new). split; [by rewrite <- app_assoc|].
      constructor; [|done]. exists 0%nat, p.
      split; [done|]. split; [lia|]. by rewrite Nat.add_0_r.
Qed.

(** X11.  With a credential, a chunk loop that ends normally has sent
    exactly one request per chunk, in chunk order; the request of chunk
    [k] is the prompt built from that chunk, and it is what the prompt
    file [<name>_chunk_<k>_prompt.txt] holds afterwards; every entry of
    the results carries the answer to the request of its own chunk. *)
Theorem one_request_per_chunk (E : env) (output_dir name : string)
    (is_submission : bool) (chunks : list (list item))
    (w w' : world) (results : list chunk_result) :
  falsy (OPENAI_API_KEY E) = false →
  process_chunks E output_dir name is_submission 0 chunks [] w
    = (Ok results, w') →
  ∃ prompts,
    requests w' = requests w ++ prompts
    ∧ prompt_of name is_submission <$> chunks = Ok <$> prompts
    ∧ (∀ (k : nat) p, prompts !! k = Some p →
         files w' !! chunk_file output_dir name (Z.of_nat k + 1) "_prompt.txt"
         = Some p)
    ∧ (∀ r, r ∈ results →
         ∃ (k : nat) p, prompts !! k = Some p
           ∧ chunk_id r = Z.of_nat k + 1
           ∧ completion E (length (requests w) + k) p = Some (analysis r)).
Proof.
  intros Hkey Hrun.
  destruct (process_chunks_send E output_dir name is_submission chunks Hkey
              0 [] w results w' Hrun)
    as (prompts & Hreqs & Hprompts & Hfiles & _ & new & -> & Hnew).
  exists prompts. split; [done|]. split; [done|]. split.
  - intros k p Hk. by apply Hfiles in Hk.
  - intros r Hr. rewrite Forall_forall in Hnew.
    destruct (Hnew r Hr) as (k & p & Hk & Hid & Hanswer).
    exists k, p. split; [done|]. split; [lia | done].
Qed.

Lemma one_request_per_chunk_witness :
  let comment (b : string) : item :=
    <["body" := VStr b]> (<["created_utc" := VInt 1700000000]> ∅) in
  let E := {| OPENAI_API_KEY := Some "sk-live"; archives := ∅;
              completion := λ n _, if decide (n = 0%nat) then None
                                   else Some "Lost parcels.";
              today := "2025-03-01"; json_dump := λ _, "{}" |} in
  let chunks := [[comment "late"]; [comment "lost"; comment "again"]] in
  let out := process_chunks E "out" "trains" false 0 chunks []
               {| files := ∅; dirs := ∅; requests := [] |} in
  ∃ prompts, requests out.2 = prompts
    ∧ prompt_of "trains" false <$> chunks = Ok <$> prompts.
Proof.
  intros comment E chunks out.
  destruct out as [r w'] eqn:Hout.
  assert (Hr : ∃ results, r = Ok results).
  { apply (f_equal fst) in Hout. vm_compute in Hout. subst r. by eexists. }
  destruct Hr as [results ->].
  destruct (one_request_per_chunk E "out" "trains" false chunks
              {| files := ∅; dirs := ∅; requests := [] |} w' results
              eq_refl Hout) as (prompts & Hreq & Hprompts & _).
  exists prompts. split; [exact Hreq | exact Hprompts].
Defined.

(** ** The counts of one archive *)

Lemma posts_analyzed_app results r :
  posts_analyzed (results ++ [r])
  = posts_analyzed results + post_count (result_metadata r).
Proof.
  unfold posts_analyzed. induction results as [|x results IH]; simpl; lia.
Qed.

Lemma process_chunks_posts E output_dir name is_submission chunks :
  ∀ i acc w results w',
  process_chunks E output_dir name is_submission i chunks acc w
    = (Ok results, w') →
  posts_analyzed acc <= posts_analyzed results
    <= posts_analyzed acc + len (concat chunks)
  ∧ len results <= len acc + len chunks.
Proof.
  induction chunks as [|chunk chunks IH]; intros i acc w results w' Hrun.
  - injection Hrun as <- <-. unfold len. simpl. lia.
  - simpl in Hrun.
    apply run_bind_inv in Hrun as [(acc1 & w1 & Hchunk & Hrest)|(e & _ & ?)];
      [|done].
    apply IH in Hrest as [Hposts Hlen].
    assert (Hcat : len (concat (chunk :: chunks))
                   = len chunk + len (concat chunks))
      by (unfold len; simpl; rewrite length_app; lia).
    assert (Hcons : len (chunk :: chunks) = len chunks + 1)
      by (unfold len; simpl; lia).
    rewrite Hcat, Hcons.
    apply process_chunk_disk in Hchunk as [[->|(md & text & Hmd & -> & _)] _].
    + unfold len in *. lia.
    + apply extract_metadata_Ok in Hmd as (_ & _ & Hcount & _).
      rewrite posts_analyzed_app in Hposts. simpl in Hposts.
      unfold len in *. rewrite length_app in Hlen. simpl in Hlen. lia.
Qed.

(** X12.  When the processing of an archive returns (positive chunk size
    and chunk cap), its counts are consistent: the posts counted in the
    results, which the summary reports as [total_posts_analyzed], are at
    most the [items_processed] of the coverage data, which is at most
    [chunk_size * max_chunks]; and there are at most [max_chunks]
    results. *)
Theorem posts_within_items (E : env) (file_path output_dir : string)
    (chunk_size max_chunks : Z) (is_submission : bool) (w w' : world)
    (results : list chunk_result) (cov : coverage) :
  0 < chunk_size → 0 < max_chunks →
  process_subreddit_file E file_path output_dir chunk_size max_chunks
    is_submission w = (Ok (Some (results, cov)), w') →
  0 <= posts_analyzed results <= items_processed cov
  ∧ items_processed cov <= chunk_size * max_chunks
  ∧ len results <= max_chunks.
Proof.
  intros Hs Hm Hrun. unfold process_subreddit_file in Hrun.
  destruct (archives E !! file_path) as [arch|]; [|discriminate].
  apply run_bind_inv in Hrun as [(found & w0 & _ & Hrun)|(? & _ & ?)]; [|done].
  apply run_bind_inv in Hrun as [([] & w1 & _ & Hrun)|(? & _ & ?)]; [|done].
  apply run_bind_inv in Hrun as [(estimate & ? & [_ ->]%lift_inv & Hrun)
                                |(? & _ & ?)]; [|done].
  apply run_bind_inv in Hrun as [([items count] & ? & [Hread ->]%lift_inv & Hrun)
                                |(? & _ & ?)]; [|done].
  apply run_bind_inv in Hrun as [(pct & ? & [_ ->]%lift_inv & Hrun)
                                |(? & _ & ?)]; [|done].
  apply run_bind_inv in Hrun as [(chunk_results & w2 & Hchunks & Hrun)
                                |(? & _ & ?)]; [|done].
  apply run_bind_inv in Hrun as [([] & w3 & _ & Hrun)|(? & _ & ?)]; [|done].
  injection Hrun as <- <- <-. cbn [fst snd] in *.
  symmetry in Hread.
  destruct (ingest_positive_cap _ _ _ _ _ _ Hs Hm Hread) as [_ Hcap].
  apply ingest_Ok in Hread as [_ ->].
  pose proof (chunks_cover items chunk_size max_chunks Hs Hm Hcap) as Hcover.
  assert (Hcount : len (chunks_to_process items chunk_size max_chunks)
                   <= max_chunks).
  { rewrite chunks_to_process_prefix by lia.
    unfold len. rewrite length_fmap, length_seq. lia. }
  apply process_chunks_posts in Hchunks as [Hposts Hlen].
  rewrite Hcover in Hposts. simpl in Hposts.
  unfold file_coverage. cbn [items_processed].
  unfold len in *. simpl in Hlen. lia.
Qed.

Lemma posts_within_items_witness :
  let comment (k : nat) : item * string * Z :=
    (<["body" := VStr "late again"]> (<["created_utc" := VInt 1700000000]> ∅),
     "", 64 * (Z.of_nat k + 1)) in
  let E := {| OPENAI_API_KEY := Some "sk-live";
              archives := {[ "data/trains_comments.zst" :=
                 {| st_size := 16000;
                    contents := {| yields := comment <$> seq 0 5;
                                   failure := None |} |} ]};
              completion := λ n _, if decide (n = 0%nat) then None
                                   else Some "Lost parcels.";
              today := "2025-03-01"; json_dump := λ _, "{}" |} in
  let out := process_subreddit_file E "data/trains_comments.zst"
               "out/trains/comments" 2 2 false
               {| files := ∅; dirs := ∅; requests := [] |} in
  ∃ results cov, out.1 = Ok (Some (results, cov))
    ∧ posts_analyzed results <= items_processed cov <= 4.
Proof.
  intros comment E out. subst out.
  destruct (process_subreddit_file _ _ _ _ _ _ _) as [r w'] eqn:Hout.
  assert (Hr : ∃ results cov, r = Ok (Some (results, cov))).
  { apply (f_equal fst) in Hout. vm_compute in Hout. subst r. by eexists _, _. }
  destruct Hr as (results & cov & ->).
  exists results, cov. split; [done|].
  destruct (posts_within_items E "data/trains_comments.zst"
              "out/trains/comments" 2 2 false
              {| files := ∅; dirs := ∅; requests := [] |} w' results cov
              ltac:(lia) ltac:(lia) Hout) as ([_ Hposts] & Hitems & _).
  split; [exact Hposts | exact Hitems].
Defined.

(** ** The name of the run and the name of the archive *)

Lemma split_clean sep s : Forall (λ piece, has_char sep piece = false) (split sep s).
Proof.
  induction s as [|c s IH]; simpl; [by repeat constructor|].
  destruct (Ascii.eqb c sep) eqn:Hc; [by constructor|].
  destruct (split sep s) as [|piece rest]; [by repeat constructor; simpl; rewrite Hc|].
  apply Forall_cons in IH as [Hpiece Hrest].
  constructor; [|done]. simpl. by rewrite Hc.
Qed.

Lemma basename_clean p : has_char "/" (basename p) = false.
Proof.
  unfold basename. pose proof (split_clean "/" p) as Hall.
  induction (split "/" p) as [|piece rest IH]; [done|].
  apply Forall_cons in Hall as [Hpiece Hrest].
  destruct rest; [done|]. by apply IH.
Qed.

Lemma split_whole sep s : has_char sep s = false → split sep s = [s].
Proof.
  induction s as [|c s IH]; [done|]. simpl.
  intros [Hc Hs]%orb_false_elim. by rewrite Hc, IH.
Qed.

Lemma split_first_prefix c sep s :
  has_char c s = false → has_char c (split_first sep s) = false.
Proof.
  induction s as [|x s IH]; [done|]. simpl.
  intros [Hx Hs]%orb_false_elim.
  destruct (Ascii.eqb x sep) eqn:Hsep.
  - unfold split_first. simpl. by rewrite Hsep.
  - rewrite split_first_skip by done. simpl. by rewrite Hx, IH.
Qed.

(** What follows the last slash of [a/b] is what follows the last slash
    of [b]. *)
Lemma basename_after_slash a b : basename (a +:+ String "/" b) = basename b.
Proof.
  unfold basename.
  assert (Hsplit : ∃ piece rest,
            split "/" (a +:+ String "/" b) = piece :: rest ∧ rest ≠ []
            ∧ List.last rest "" = List.last (split "/" b) "").
  { induction a as [|c a IH].
    - destruct (split_nonempty "/" b) as (piece & rest & Hb).
      exists "", (split "/" b). simpl. rewrite Hb. done.
    - destruct IH as (piece & rest & Hs & Hrest & Hlast).
      change (String c a +:+ String "/" b) with (String c (a +:+ String "/" b)).
      simpl. rewrite Hs. destruct (Ascii.eqb c "/").
      + exists "", (piece :: rest). split; [done|]. split; [done|].
        rewrite <- Hlast. by destruct rest.
      + by exists (String c piece), rest. }
  destruct Hsplit as (piece & rest & -> & Hrest & <-). by destruct rest.
Qed.

Lemma endswith_inv c s : endswith c s = true → ∃ s', s = s' +:+ String c "".
Proof.
  induction s as [|x s IH]; [done|]. simpl. destruct s as [|y s].
  - intros ->%Ascii.eqb_eq. by exists "".
  - intros [s' ->]%IH. by exists (String x s').
Qed.

Lemma basename_join dir file :
  has_char "/" file = false → basename (path_join dir file) = file.
Proof.
  intros Hfile.
  assert (Hbase : basename file = file)
    by (unfold basename; by rewrite split_whole).
  assert (Hstart : startswith "/" file = false)
    by (destruct file; [done|]; simpl in *; by apply orb_false_elim in Hfile as [? _]).
  unfold path_join. rewrite Hstart.
  case_bool_decide as Hdir; [by subst dir|]. simpl.
  destruct (endswith "/" dir) eqn:Hend.
  - apply endswith_inv in Hend as [dir' ->].
    rewrite append_assoc. change (String "/" "" +:+ file) with (String "/" file).
    by rewrite basename_after_slash.
  - change ("/" +:+ file) with (String "/" file).
    by rewrite basename_after_slash.
Qed.

Lemma has_char_app c a b : has_char c (a +:+ b) = has_char c a || has_char c b.
Proof.
  induction a as [|x a IH]; [done|].
  change (String x a +:+ b) with (String x (a +:+ b)). simpl.
  by rewrite IH, orb_assoc.
Qed.

Lemma archive_name_agrees dir name kind :
  has_char "/" kind = false →
  (subreddit_name_of (path_join dir (name +:+ String "_" kind)) = name
   ↔ has_char "_" name = false ∧ has_char "/" name = false).
Proof.
  intros Hkind. unfold subreddit_name_of. split.
  - intros Hname. split.
    + rewrite <- Hname. apply split_first_clean.
    + rewrite <- Hname. apply split_first_prefix, basename_clean.
  - intros [Hunder Hslash].
    rewrite basename_join; [by apply split_first_until|].
    rewrite has_char_app, Hslash. simpl. exact Hkind.
Qed.

(** X13.  When only [--subreddit] is given (the way the batch driver
    calls the script), the two archives are looked for under
    [<data-dir>/<name>_submissions.zst] and [<data-dir>/<name>_comments.zst],
    [main] works under the name as given, and the name that
    [process_subreddit_file] derives from either archive path is that
    same name exactly when the name holds no underscore and no slash. *)
Theorem names_agree_without_underscore (a : args) (name : string) :
  arg_subreddit a = Some name → name ≠ "" →
  falsy (arg_submissions a) = true → falsy (arg_comments a) = true →
  let sub := path_join (arg_data_dir a) (name +:+ "_submissions.zst") in
  let com := path_join (arg_data_dir a) (name +:+ "_comments.zst") in
  archive_paths a = (Some sub, Some com)
  ∧ main_subreddit_name a = name
  ∧ (subreddit_name_of sub = main_subreddit_name a
     ↔ has_char "_" name = false ∧ has_char "/" name = false)
  ∧ (subreddit_name_of com = main_subreddit_name a
     ↔ has_char "_" name = false ∧ has_char "/" name = false).
Proof.
  intros Hname Hne Hsub Hcom sub com.
  assert (Hgiven : falsy (arg_subreddit a) = false).
  { rewrite Hname. simpl. by apply bool_decide_eq_false. }
  assert (Hmain : main_subreddit_name a = name).
  { unfold main_subreddit_name. by rewrite Hgiven, Hname. }
  split.
  { unfold archive_paths. by rewrite Hgiven, Hsub, Hcom, Hname. }
  split; [done|]. rewrite Hmain.
  split; by apply archive_name_agrees.
Qed.

Lemma names_agree_without_underscore_witness :
  let a := {| arg_submissions := None; arg_comments := None;
              arg_subreddit := Some "AskHistorians";
              arg_data_dir := "reddit_feb_25/subreddits/";
              arg_output_dir := "./output";
              arg_chunk_size := 100; arg_max_chunks := 15 |} in
  archive_paths a
  = (Some "reddit_feb_25/subreddits/AskHistorians_submissions.zst",
     Some "reddit_feb_25/subreddits/AskHistorians_comments.zst").
Proof.
  intros a.
  exact (proj1 (names_agree_without_underscore a "AskHistorians" eq_refl
                  ltac:(discriminate) eq_refl eq_refl)).
Defined.

(** ** The batch driver *)

Lemma strip_prefix_spec t : ∀ s r, strip_prefix t s = Some r ↔ s = t +:+ r.
Proof.
  induction t as [|a t IH]; intros s r; simpl.
  - split; [by intros [= <-] | by intros ->].
  - destruct s as [|b s]; [done|].
    destruct (Ascii.eqb_spec a b) as [<-|Hab].
    + rewrite IH. split; [by intros -> | by intros [= ->]].
    + split; [done | by intros [= ? _]].
Qed.

(** The candidates of [[^c]+]: none when the input is empty or starts
    with [c]; otherwise the first is the whole run up to the first [c],
    and each of the others stops before a character of the run. *)
Lemma runs_spec c s :
  match runs c s with
  | [] => s = "" ∨ startswith c s = true
  | m :: others =>
      m.1 = split_first c s ∧ m.1 ≠ "" ∧ s = m.1 +:+ m.2
      ∧ (m.2 = "" ∨ startswith c m.2 = true)
      ∧ Forall (λ m', m'.2 ≠ "" ∧ startswith c m'.2 = false) others
  end.
Proof.
  induction s as [|x s IH]; simpl; [by left|].
  destruct (Ascii.eqb x c) eqn:Hx; [by right|].
  destruct (runs c s) as [|m others] eqn:Hruns; simpl.
  - rewrite split_first_skip by done.
    assert (Hfirst : split_first c s = "").
    { destruct IH as [->|Hs]; [done|]. destruct s as [|y s]; [done|].
      simpl in Hs. unfold split_first. simpl. by rewrite Hs. }
    rewrite Hfirst. repeat split; try done.
  - destruct IH as (Hm & Hne & Hs & Hrest & Hothers).
    rewrite split_first_skip by done. rewrite <- Hm.
    split; [done|]. split; [done|]. split; [by rewrite Hs at 1|].
    split; [done|].
    rewrite Forall_app, Forall_fmap. split; [done|].
    constructor; [|done]. simpl.
    destruct s as [|y s]; [done|]. simpl in Hruns. simpl.
    destruct (Ascii.eqb y c); done.
Qed.

Lemma kind_tail_matches r :
  matches (Seq (Lit "_")
             (Seq (Group (Alt (Lit "submissions") (Lit "comments")))
                (Lit ".zst"))) r ≠ []
  ↔ ∃ rest, r = "_submissions.zst" +:+ rest ∨ r = "_comments.zst" +:+ rest.
Proof.
  split.
  - cbn [matches].
    destruct (strip_prefix "_" r) as [r1|] eqn:H1;
      cbn [mbind list_bind fmap list_fmap app fst snd]; [|done].
    apply strip_prefix_spec in H1 as ->.
    destruct (strip_prefix "submissions" r1) as [r2|] eqn:H2;
      cbn [mbind list_bind fmap list_fmap app fst snd].
    + apply strip_prefix_spec in H2 as ->.
      destruct (strip_prefix ".zst" r2) as [r3|] eqn:H3;
        cbn [mbind list_bind fmap list_fmap app fst snd].
      * apply strip_prefix_spec in H3 as ->. intros _. exists r3. by left.
      * destruct (strip_prefix "comments" _) as [r4|] eqn:H4; [|done].
        by apply strip_prefix_spec in H4.
    + destruct (strip_prefix "comments" r1) as [r2|] eqn:H3;
        cbn [mbind list_bind fmap list_fmap app fst snd]; [|done].
      apply strip_prefix_spec in H3 as ->.
      destruct (strip_prefix ".zst" r2) as [r3|] eqn:H4;
        cbn [mbind list_bind fmap list_fmap app fst snd]; [|done].
      apply strip_prefix_spec in H4 as ->. intros _. exists r3. by right.
  - intros [rest [-> | ->]]; by cbn.
Qed.

(** A greedy [[^c]+] in front of something that starts with [c] never
    gives characters back: only its longest candidate can be followed
    by a match. *)
Lemma run_then_matches c text r f :
  matches (Seq (Group (PlusNot c)) (Seq (Lit (String c text)) r)) f
  = match runs c f with
    | [] => []
    | m :: _ =>
        (λ m2, (m.1 +:+ m2.1.1, m.1 :: m2.1.2, m2.2))
          <$> matches (Seq (Lit (String c text)) r) m.2
    end.
Proof.
  pose proof (runs_spec c f) as Hruns.
  change (matches (Seq (Group (PlusNot c)) (Seq (Lit (String c text)) r)) f)
    with (((λ m, (m.1.1, m.1.1 :: m.1.2, m.2))
             <$> ((λ m, (m.1, [], m.2)) <$> runs c f))
          ≫= λ m1, (λ m2, (m1.1.1 +:+ m2.1.1, m1.1.2 ++ m2.1.2, m2.2))
                      <$> matches (Seq (Lit (String c text)) r) m1.2).
  destruct (runs c f) as [|m others]; [done|].
  destruct Hruns as (_ & _ & _ & _ & Hothers).
  cbn [fmap list_fmap mbind list_bind fst snd].
  match goal with |- ?first ++ ?rest = _ => assert (Hrest : rest = []) end.
  { induction Hothers as [|m' others [Hne Hstart] _ IH]; [done|].
    cbn [fmap list_fmap mbind list_bind fst snd]. rewrite IH, app_nil_r.
    destruct (m'.2) as [|x s]; [done|]. simpl in Hstart.
    cbn [matches strip_prefix]. rewrite Ascii.eqb_sym, Hstart. done. }
  rewrite Hrest, app_nil_r. done.
Qed.

Lemma get_subreddit_spec (filename name : string) :
  get_subreddit_from_filename filename = Some name
  ↔ name ≠ "" ∧ has_char "_" name = false
    ∧ ∃ rest, filename = name +:+ "_submissions.zst" +:+ rest
              ∨ filename = name +:+ "_comments.zst" +:+ rest.
Proof.
  unfold get_subreddit_from_filename, re_match, archive_pattern.
  rewrite run_then_matches.
  pose proof (runs_spec "_" filename) as Hruns.
  destruct (runs "_" filename) as [|m others].
  - split; [done|]. intros (Hne & Hclean & rest & Hfile). exfalso.
    destruct name as [|x name]; [done|]. simpl in Hclean.
    apply orb_false_elim in Hclean as [Hx _].
    destruct Hruns as [->|Hstart]; [by destruct Hfile|].
    destruct Hfile as [-> | ->]; simpl in Hstart; congruence.
  - destruct Hruns as (Hfirst & Hne & Hfile & _ & _).
    pose proof (kind_tail_matches m.2) as Htail.
    destruct (matches (Seq (Lit "_") _) m.2) as [|m2 more] eqn:Hm2.
    + split; [done|]. intros (_ & Hclean & rest & Hrest). exfalso.
      apply Htail; [|done]. exists rest.
      assert (Hname : m.1 = name).
      { rewrite Hfirst. destruct Hrest as [-> | ->];
          by apply split_first_until. }
      rewrite Hname in Hfile.
      destruct Hrest as [Hrest|Hrest]; rewrite Hrest in Hfile;
        apply append_inj_l in Hfile; rewrite <- Hfile; eauto.
    + destruct Htail as [(rest & Hrest) _]; [done|].
      cbn [fmap list_fmap head option_fmap option_map mbind option_bind
             fst snd lookup list_lookup].
      split.
      * intros [= <-]. split; [done|]. split.
        { rewrite Hfirst. apply split_first_clean. }
        exists rest. rewrite Hfile at 1 2.
        destruct Hrest as [-> | ->]; eauto.
      * intros (_ & Hclean & rest' & Hrest'). f_equal.
        rewrite Hfirst. destruct Hrest' as [-> | ->];
          by apply split_first_until.
Qed.

(** X14.  The batch driver takes a file of the data directory for an
    archive exactly when its name starts with a non-empty run of
    characters other than the underscore, followed by [_submissions.zst]
    or [_comments.zst]; the subreddit is that run.  The pattern is not
    anchored at the end, so anything may follow the extension; and a
    name is never empty and never holds an underscore. *)
Theorem driver_name_of_file (filename name : string) :
  get_subreddit_from_filename filename = Some name
  ↔ name ≠ "" ∧ has_char "_" name = false
    ∧ ∃ rest, filename = name +:+ "_submissions.zst" +:+ rest
              ∨ filename = name +:+ "_comments.zst" +:+ rest.
Proof. apply get_subreddit_spec. Qed.

(** *** The order of the runs *)

Lemma string_le_total : Total string_le.
Proof. intros a b. apply String.leb_total. Qed.

Lemma string_le_trans : Transitive string_le.
Proof.
  unfold string_le, String.leb. intros a.
  induction a as [|x a IH]; intros b c Hab Hbc.
  - by destruct c.
  - destruct b as [|y b]; [done|]. destruct c as [|z c]; [done|].
    simpl in *. unfold Ascii.compare in *.
    destruct (N.compare_spec (N_of_ascii x) (N_of_ascii y)) as [Hxy|Hxy|Hxy];
      [|clear IH|done].
    + rewrite Hxy.
      destruct (N_of_ascii y ?= N_of_ascii z)%N; [by eapply IH|done|done].
    + destruct (N.compare_spec (N_of_ascii y) (N_of_ascii z)) as [Hyz|Hyz|Hyz];
        [| |done].
      * rewrite <- Hyz. by apply N.compare_lt_iff in Hxy as ->.
      * assert (Hxz : (N_of_ascii x < N_of_ascii z)%N) by lia.
        by apply N.compare_lt_iff in Hxz as ->.
Qed.

Lemma find_loop filenames : ∀ (acc : gset string) name,
  name ∈ foldl (λ (subreddits : gset string) filename,
                  match get_subreddit_from_filename filename with
                  | Some subreddit =>
                      if bool_decide (subreddit = "") then subreddits
                      else subreddits ∪ {[subreddit]}
                  | None => subreddits
                  end) acc filenames
  ↔ name ∈ acc
    ∨ ∃ f, f ∈ filenames ∧ get_subreddit_from_filename f = Some name.
Proof.
  induction filenames as [|f filenames IH]; intros acc name; simpl.
  - split; [by left|]. intros [?|(f & []%elem_of_nil & _)]. done.
  - rewrite IH. clear IH.
    destruct (get_subreddit_from_filename f) as [subreddit|] eqn:Hf.
    + assert (Hne : subreddit ≠ "") by (by apply get_subreddit_spec in Hf as [? _]).
      rewrite bool_decide_eq_false_2 by done.
      rewrite elem_of_union, elem_of_singleton. split.
      * intros [[?| ->]|(f' & Hin & Hf')]; [by left| |].
        -- right. exists f. split; [by left | done].
        -- right. exists f'. split; [by right | done].
      * intros [?|(f' & [->|Hin]%elem_of_cons & Hf')]; [by left; left| |].
        -- left. right. congruence.
        -- right. by exists f'.
    + split.
      * intros [?|(f' & Hin & Hf')]; [by left|].
        right. exists f'. split; [by right | done].
      * intros [?|(f' & [->|Hin]%elem_of_cons & Hf')]; [by left|congruence|].
        right. by exists f'.
Qed.

(** X15.  The batch driver runs the script once for every subreddit that
    has an archive in the data directory and no entry of its name in the
    output directory, in the order of the names, whatever the exit
    status of the runs before.  Each run is given the name alone, and
    for such a name (entries of a directory hold no slash) the name
    [main] works under is the one [process_subreddit_file] derives from
    either archive path. *)
Theorem driver_runs_each_new_subreddit (filenames : list string)
    (output_listing : option (list string)) :
  Forall (λ f, has_char "/" f = false) filenames →
  ∃ names,
    (∀ exit_status,
       process_subreddits (Some filenames) output_listing exit_status
       = Ok ((λ name, (command name,
                       bool_decide (exit_status (command name) = 0)))
               <$> names))
    ∧ NoDup names ∧ StronglySorted string_le names
    ∧ (∀ name, name ∈ names
         ↔ (∃ f, f ∈ filenames ∧ get_subreddit_from_filename f = Some name)
           ∧ name ∉ default [] output_listing)
    ∧ (∀ name, name ∈ names →
         ∃ sub com,
           archive_paths (driver_args name) = (Some sub, Some com)
           ∧ subreddit_name_of sub = main_subreddit_name (driver_args name)
           ∧ subreddit_name_of com = main_subreddit_name (driver_args name)).
Proof.
  intros Hflat.
  set (all := foldl (λ (subreddits : gset string) filename,
                  match get_subreddit_from_filename filename with
                  | Some subreddit =>
                      if bool_decide (subreddit = "") then subreddits
                      else subreddits ∪ {[subreddit]}
                  | None => subreddits
                  end) ∅ filenames).
  set (remaining := all ∖ (get_analyzed_subreddits output_listing).1).
  exists (merge_sort string_le (elements remaining)).
  assert (Hmem : ∀ name, name ∈ merge_sort string_le (elements remaining)
            ↔ (∃ f, f ∈ filenames ∧ get_subreddit_from_filename f = Some name)
              ∧ name ∉ default [] output_listing).
  { intros name. rewrite merge_sort_Permutation, elem_of_elements.
    unfold remaining. rewrite elem_of_difference. unfold all.
    rewrite find_loop.
    assert (Hout : name ∈ (get_analyzed_subreddits output_listing).1
                   ↔ name ∈ default [] output_listing).
    { destruct output_listing as [entries|]; simpl.
      - apply elem_of_list_to_set.
      - by rewrite elem_of_empty, elem_of_nil. }
    rewrite Hout. set_solver. }
  split; [done|]. split.
  { rewrite merge_sort_Permutation. apply NoDup_elements. }
  split.
  { apply StronglySorted_merge_sort;
      [apply string_le_trans | apply string_le_total]. }
  split; [exact Hmem|].
  intros name [(f & Hin & Hf) _]%Hmem.
  apply get_subreddit_spec in Hf as (Hne & Hclean & rest & Hrest).
  assert (Hslash : has_char "/" name = false).
  { rewrite Forall_forall in Hflat. specialize (Hflat f Hin).
    destruct Hrest as [Hrest|Hrest]; rewrite Hrest, has_char_app in Hflat;
      by apply orb_false_elim in Hflat as [? _]. }
  assert (Hmain : main_subreddit_name (driver_args name) = name).
  { unfold main_subreddit_name, driver_args. simpl.
    by rewrite bool_decide_eq_false_2. }
  eexists _, _. split.
  { unfold archive_paths, driver_args. simpl.
    by rewrite bool_decide_eq_false_2. }
  rewrite Hmain. split; by apply archive_name_agrees.
Qed.

Lemma driver_runs_each_new_subreddit_witness :
  ∃ names,
    process_subreddits
      (Some ["books_comments.zst"; "README.md"; "trains_submissions.zst";
             "books_submissions.zst"; "art_comments.zst"])
      (Some ["art"]) (λ _, 1)
    = Ok ((λ name, (command name, false)) <$> names)
    ∧ NoDup names.
Proof.
  destruct (driver_runs_each_new_subreddit
              ["books_comments.zst"; "README.md"; "trains_submissions.zst";
               "books_submissions.zst"; "art_comments.zst"] (Some ["art"]))
    as (names & Hrun & Hnodup & _).
  { repeat constructor. }
  exists names. split; [|exact Hnodup]. by rewrite Hrun.
Defined.

(** ** The overall coverage of a run with one archive *)

(** X16.  When only one of the two archives is processed, the overall
    coverage of the run is the coverage of that archive: the same two
    counts and the same two-decimal percentage, whichever of the two
    archives it is. *)
Theorem overall_of_one_archive (items est size : Z) (pct : num) :
  coverage_pct items est = Ok pct →
  let cov := file_coverage items est pct size in
  let o := {| overall_total_items_estimate := total_items_estimate cov;
              overall_items_processed := items_processed cov;
              overall_coverage_percentage := coverage_percentage cov |} in
  overall_coverage (Some cov) None = Ok o
  ∧ overall_coverage None (Some cov) = Ok o.
Proof.
  intros Hpct cov o. subst o cov.
  unfold overall_coverage, add_coverage, file_coverage.
  cbn [fst snd total_items_estimate items_processed coverage_percentage].
  rewrite !Z.add_0_l. unfold coverage_pct in Hpct.
  destruct (0 <? est).
  - apply bind_Ok in Hpct as (ratio & -> & Hpct).
    cbn [mbind result_bind] in *.
    destruct (float_mul_int ratio 100) as [product|]; [|done].
    injection Hpct as <-. done.
  - injection Hpct as <-. done.
Qed.

Lemma overall_of_one_archive_witness :
  overall_coverage (Some (file_coverage 1 3 (NFloat (S754_finite false 4691249611844266 (-47))) 2048)) None
  = Ok {| overall_total_items_estimate := 3; overall_items_processed := 1;
          overall_coverage_percentage :=
            coverage_percentage
              (file_coverage 1 3
                 (NFloat (S754_finite false 4691249611844266 (-47))) 2048) |}.
Proof.
  refine (proj1 (overall_of_one_archive 1 3 2048
                   (NFloat (S754_finite false 4691249611844266 (-47))) _)).
  vm_compute. reflexivity.
Defined.
(** ** The combined prompt when no chunk failed *)

Lemma read_existing_present E paths : ∀ texts acc w,
  Forall2 (λ path text, ∃ written, files w !! path = Some written
                                   ∧ text = universal_newlines written)
    paths texts →
  read_existing E paths acc w = (Ok (acc ++ texts), w).
Proof.
  induction paths as [|path paths IH]; intros texts acc w Hall;
    inversion Hall as [|? text ? texts' (written & Hpath & ->) Hrest];
    subst; simpl.
  - by rewrite app_nil_r.
  - unfold mbind, run_bind, path_exists, read_file. rewrite Hpath.
    rewrite (bool_decide_eq_true_2 (is_Some (Some written))) by eauto.
    rewrite orb_true_r. simpl. rewrite Hpath. simpl.
    rewrite (IH texts' (acc ++ [universal_newlines written]) w Hrest).
    by rewrite <- app_assoc.
Qed.

Lemma analysis_paths_present output_dir kind name results (w : world) :
  (∀ (i : nat) r, results !! i = Some r →
     chunk_id r = Z.of_nat i + 1
     ∧ files w !! chunk_file (path_join output_dir kind) name (chunk_id r)
                    "_analysis.md" = Some (analysis r)) →
  Forall2 (λ path text, ∃ written, files w !! path = Some written
                                   ∧ text = universal_newlines written)
    (analysis_paths output_dir kind name results)
    ((λ r, universal_newlines (analysis r)) <$> results).
Proof.
  intros Hall. unfold analysis_paths.
  apply Forall2_same_length_lookup_2.
  { by rewrite !length_fmap, length_seq. }
  intros i path text Hpath Htext.
  rewrite list_lookup_fmap in Hpath. rewrite list_lookup_fmap in Htext.
  destruct (results !! i) as [r|] eqn:Hr; [|done].
  destruct (seq 0 (length results) !! i) as [j|] eqn:Hj; [|done].
  apply lookup_seq in Hj as [-> _]. simpl in *. simplify_eq.
  destruct (Hall i r Hr) as [Hid Hfile]. exists (analysis r).
  by rewrite <- Hid.
Qed.

(** The combined prompt is a heading, fixed by the name, followed by the
    rendering of the list of analyses and a line break. *)
Lemma combined_prompt_shape name :
  ∃ head, ∀ all_analyses,
    combined_prompt_text name all_analyses
    = head +:+ py_repr_list all_analyses +:+ newline.
Proof.
  eexists (_ +:+ newline). intros all_analyses. unfold combined_prompt_text.
  match goal with
  | |- join newline ?l = _ =>
      change l with (take 17 l ++ [py_repr_list all_analyses; ""])
  end.
  rewrite join_app by done. simpl take.
  rewrite append_assoc. reflexivity.
Qed.

Lemma plain_text_cons c t :
  plain_text (String c t) = true →
  (32 <= nat_of_ascii c < 127)%nat ∧ Ascii.eqb c backslash = false
  ∧ Ascii.eqb c single_quote = false ∧ plain_text t = true.
Proof.
  cbn [plain_text]. cbv zeta. intros H.
  apply andb_prop in H as [H Ht]. apply andb_prop in H as [H Hquote].
  apply andb_prop in H as [H Hback]. apply andb_prop in H as [Hlow Hhigh].
  apply Nat.leb_le in Hlow. apply Nat.ltb_lt in Hhigh.
  apply negb_true_iff in Hback, Hquote. done.
Qed.

(** [repr] of a plain text is the text between single quotes. *)
Lemma py_repr_plain t :
  plain_text t = true →
  py_repr t = String single_quote t +:+ String single_quote "".
Proof.
  intros Hplain. unfold py_repr.
  assert (Hquote : has_char single_quote t = false).
  { induction t as [|c t IH]; [done|].
    apply plain_text_cons in Hplain as (_ & _ & Hc & Ht).
    simpl. by rewrite Hc, IH. }
  rewrite Hquote. simpl andb. cbv iota. do 2 f_equal.
  induction t as [|c t IH]; [done|].
  apply plain_text_cons in Hplain as ([Hlow Hhigh] & Hback & Hc & Ht).
  simpl in Hquote. apply orb_false_elim in Hquote as [_ Hquote].
  cbn [repr_chars]. rewrite (IH Ht Hquote). unfold repr_char.
  rewrite Hback, Hc.
  set (n := nat_of_ascii c) in *.
  destruct (Nat.eqb_spec n 9); [lia|]. destruct (Nat.eqb_spec n 10); [lia|].
  destruct (Nat.eqb_spec n 13); [lia|]. destruct (Nat.ltb_spec n 32); [lia|].
  destruct (Nat.eqb_spec n 127); [lia|]. done.
Qed.

(** X17.  With a credential, when in both archives the results are
    those of chunks 1, 2, ... in order (no chunk failed) and every
    analysis file is in place under the name [main] works under, the
    combined request is sent, once.  Its prompt is the combined
    template over the name [main] works under, and ends with the list of
    all the analyses as read back from their files (line ends in
    [\r\n] or [\r] come back as [\n]), each rendered by [repr], those
    of the submissions in chunk order, then those of the comments; an
    analysis of printable characters without quote or backslash stands
    there as it is, between single quotes.  The analyses are taken to
    be ASCII text. *)
Theorem combined_prompt_complete (E : env) (output_dir name : string)
    (submission_results comment_results : list chunk_result) (o : overall)
    (submission_coverage comment_coverage : option coverage) (w : world) :
  falsy (OPENAI_API_KEY E) = false →
  submission_results ≠ [] →
  Forall (λ r, ascii_text (analysis r) = true)
    (submission_results ++ comment_results) →
  (∀ (i : nat) r, submission_results !! i = Some r →
     chunk_id r = Z.of_nat i + 1
     ∧ files w !! chunk_file (path_join output_dir "submissions") name
                    (chunk_id r) "_analysis.md" = Some (analysis r)) →
  (∀ (i : nat) r, comment_results !! i = Some r →
     chunk_id r = Z.of_nat i + 1
     ∧ files w !! chunk_file (path_join output_dir "comments") name
                    (chunk_id r) "_analysis.md" = Some (analysis r)) →
  let texts :=
    (λ r, universal_newlines (analysis r))
      <$> (submission_results ++ comment_results) in
  ∃ w' prompt head,
    combine E output_dir name submission_results comment_results o
      submission_coverage comment_coverage w = (Ok (), w')
    ∧ requests w' = requests w ++ [prompt]
    ∧ prompt = combined_prompt_text name texts
    ∧ prompt = head +:+ "[" +:+ join ", " (py_repr <$> texts) +:+ "]"
                 +:+ newline
    ∧ (∀ t, t ∈ texts → plain_text t = true →
         py_repr t = String single_quote t +:+ String single_quote "")
    ∧ (∀ r, r ∈ submission_results ++ comment_results →
         plain_text (analysis r) = true →
         universal_newlines (analysis r) = analysis r).
Proof.
  intros Hkey Hsome _ Hsub Hcom texts.
  destruct (combined_prompt_shape name) as [head Hhead].
  exists ((combine E output_dir name submission_results comment_results o
             submission_coverage comment_coverage w).2),
    (combined_prompt_text name texts), head.
  assert (Hrun : ∃ w', combine E output_dir name submission_results
                         comment_results o submission_coverage comment_coverage w
                       = (Ok (), w')
                     ∧ requests w'
                       = requests w ++ [combined_prompt_text name texts]).
  { assert (Hne : texts ≠ []).
    { unfold texts. by destruct submission_results. }
    assert (Hpresent : ∀ w1, files w1 = files w →
              Forall2 (λ path text, ∃ written, files w1 !! path = Some written
                                               ∧ text = universal_newlines written)
                (analysis_paths output_dir "submissions" name submission_results
                 ++ analysis_paths output_dir "comments" name comment_results)
                texts).
    { intros w1 Hf1. unfold texts. rewrite fmap_app.
      apply Forall2_app; apply analysis_paths_present; by rewrite Hf1. }
    clearbody texts. unfold combine.
    unfold mbind at 1, run_bind at 1, path_exists at 1. cbv beta iota.
    set (found := _ || _ || _).
    assert (Hdir : ∃ w1, (if found then mret ()
                          else makedirs (path_join output_dir "combined")) w
                         = (Ok (), w1)
                         ∧ files w1 = files w ∧ requests w1 = requests w).
    { destruct found; eexists; (split; [reflexivity|done]). }
    destruct Hdir as (w1 & Hdir & Hf1 & Hr1).
    unfold mbind at 1, run_bind at 1. rewrite Hdir.
    unfold mbind at 1, run_bind at 1.
    rewrite (read_existing_present E _ texts [] w1 (Hpresent w1 Hf1)).
    rewrite app_nil_l.
    destruct texts as [|t rest]; [done|].
    unfold analyze_with_openai. rewrite Hkey.
    unfold mbind, run_bind, write_file, mret, run_ret.
    cbn [files dirs requests].
    destruct (falsy (completion E _ _));
      eexists; (split; [reflexivity|]); cbn [requests]; by rewrite Hr1. }
  destruct Hrun as (w' & Hrun & Hreq). rewrite Hrun. cbn [snd].
  split; [done|]. split; [done|]. split; [done|]. split.
  { rewrite Hhead. unfold py_repr_list. f_equal.
    change ("[" +:+ join ", " (py_repr <$> texts) +:+ "]")
      with (("[" +:+ join ", " (py_repr <$> texts)) +:+ "]").
    by rewrite !append_assoc. }
  split.
  - intros t _. apply py_repr_plain.
  - intros r _ Hplain. clear -Hplain.
    induction (analysis r) as [|c t IH]; [done|].
    apply plain_text_cons in Hplain as ([Hlow _] & _ & _ & Ht).
    cbn [universal_newlines].
    assert (Hcr : Ascii.eqb c carriage_return = false).
    { apply Ascii.eqb_neq. intros ->. vm_compute in Hlow. lia. }
    by rewrite Hcr, (IH Ht).
Qed.

Lemma combined_prompt_complete_witness :
  let E := {| OPENAI_API_KEY := Some "sk-live"; archives := ∅;
              completion := λ _ _, Some "Trains run late.";
              today := "2025-03-01"; json_dump := λ _, "{}" |} in
  let md := {| post_count := 1; date_earliest := None; date_latest := None;
               authors := []; avg_score := NInt 0; total_score := 0;
               unique_authors := 0 |} in
  let result (k : Z) (text : string) :=
    {| chunk_id := k; result_metadata := md; analysis := text |} in
  let o := {| overall_total_items_estimate := 3; overall_items_processed := 3;
              overall_coverage_percentage := NInt 0 |} in
  let w := {| files :=
                <["out/trains/submissions/trains_chunk_1_analysis.md" := "Delays."]>
                  (<["out/trains/submissions/trains_chunk_2_analysis.md" := "Fares."]>
                     {[ "out/trains/comments/trains_chunk_1_analysis.md" := "Strikes." ]});
              dirs := ∅; requests := [] |} in
  ∃ w' head,
    combine E "out/trains" "trains" [result 1 "Delays."; result 2 "Fares."]
      [result 1 "Strikes."] o None None w = (Ok (), w')
    ∧ requests w' = [head +:+ "['Delays.', 'Fares.', 'Strikes.']" +:+ newline].
Proof.
  intros E md result o w.
  destruct (combined_prompt_complete E "out/trains" "trains"
              [result 1 "Delays."; result 2 "Fares."] [result 1 "Strikes."]
              o None None w)
    as (w' & prompt & head & Hrun & Hreq & _ & Hprompt & _).
  - reflexivity.
  - discriminate.
  - repeat constructor.
  - intros [|[|i]] r Hr; simpl in Hr; simplify_eq; split; reflexivity.
  - intros [|i] r Hr; simpl in Hr; simplify_eq; split; reflexivity.
  - exists w', head. split; [exact Hrun|]. rewrite Hreq, Hprompt. reflexivity.
Defined.

(** ** The figures of a chunk *)

Lemma scan_item_authors acc it acc' :
  scan_item acc it = Ok acc' →
  (size (acc_authors acc') ≤ size (acc_authors acc) + 1)%nat.
Proof.
  unfold scan_item. intros (acc1 & Hdate & Hscore)%bind_Ok.
  apply scan_date_spec in Hdate.
  apply scan_score_keeps in Hscore as (_ & _ & ->).
  assert (Hsame : acc_authors acc1 = acc_authors acc)
    by (subst acc1; by destruct (timestamp_of it)).
  unfold scan_author. destruct (it !! "author") as [a|]; [|rewrite Hsame; lia].
  case_bool_decide; [|rewrite Hsame; lia]. simpl.
  rewrite size_union_alt, Hsame.
  assert (size ({[a]} ∖ acc_authors acc : gset value) ≤ 1)%nat; [|lia].
  rewrite <- (size_singleton (C := gset value) a).
  apply subseteq_size. set_solver.
Qed.

Lemma scan_authors chunk : ∀ acc acc',
  for_each scan_item acc chunk = Ok acc' →
  (size (acc_authors acc') ≤ size (acc_authors acc) + length chunk)%nat.
Proof.
  induction chunk as [|it chunk IH]; intros acc acc' Hrun.
  - injection Hrun as <-. simpl. lia.
  - rewrite for_each_cons in Hrun.
    apply bind_Ok in Hrun as (acc1 & Hit & Hrest).
    apply scan_item_authors in Hit. apply IH in Hrest. simpl. lia.
Qed.

(** X18.  The figures [extract_metadata] returns are consistent:
    [post_count] is the size of the chunk, the number of unique authors
    never exceeds it, and the average score is the total score divided
    by the number of posts in double precision (the integer 0 for an
    empty chunk). *)
Theorem metadata_figures (chunk : list item) (md : metadata) :
  extract_metadata chunk = Ok md →
  post_count md = len chunk
  ∧ 0 <= unique_authors md <= post_count md
  ∧ (if decide (chunk = []) then avg_score md = NInt 0
     else ∃ x, int_truediv (total_score md) (post_count md) = Ok x
               ∧ avg_score md = NFloat x).
Proof.
  unfold extract_metadata.
  intros (acc & Hacc & (avg & Havg & [= <-])%bind_Ok)%bind_Ok.
  cbn [post_count unique_authors avg_score total_score].
  split; [done|]. split.
  - apply scan_authors in Hacc.
    change (acc_authors meta_init) with (∅ : gset value) in Hacc.
    rewrite size_empty in Hacc.
    change (size (acc_authors acc))
      with (length (elements (acc_authors acc))) in Hacc.
    unfold len. lia.
  - destruct (decide (chunk = [])) as [->|Hne].
    + by injection Havg as <-.
    + assert (Hpos : (0 <? len chunk) = true).
      { apply Z.ltb_lt. unfold len. destruct chunk; [done|]. simpl. lia. }
      rewrite Hpos in Havg.
      destruct (int_truediv _ _) as [x|]; [|done].
      injection Havg as <-. by exists x.
Qed.

Lemma metadata_figures_witness :
  let post (a : string) (s : Z) : item :=
    <["author" := VStr a]> (<["score" := VInt s]> ∅) in
  ∃ md, extract_metadata [post "ann" 3; post "bob" 4; post "ann" 5] = Ok md
    ∧ unique_authors md <= post_count md.
Proof.
  intros post.
  destruct (extract_metadata [post "ann" 3; post "bob" 4; post "ann" 5])
    as [md|] eqn:Hmd; [|by vm_compute in Hmd].
  exists md. split; [done|].
  destruct (metadata_figures _ md Hmd) as (_ & [_ Hle] & _). exact Hle.
Defined.

(** ** A run without archives *)

(** X19.  When neither of the two paths [main] ends up with names an
    existing archive, the run ends normally and has done nothing: no
    directory is created, no file written, no request sent. *)
Theorem nothing_to_process (E : env) (a : args) (w : world) :
  falsy (arg_submissions a) && falsy (arg_comments a)
    && falsy (arg_subreddit a) = false →
  (∀ p, (archive_paths a).1 = Some p → archives E !! p = None) →
  (∀ p, (archive_paths a).2 = Some p → archives E !! p = None) →
  main E a w = (Ok (), w).
Proof.
  intros Hgiven Hsub Hcom. unfold main. rewrite Hgiven.
  assert (Hnone : ∀ path output_dir is_submission w0,
            (∀ p, path = Some p → archives E !! p = None) →
            process_archive E path output_dir (arg_chunk_size a)
              (arg_max_chunks a) is_submission w0 = (Ok None, w0)).
  { intros path output_dir is_submission w0 Hpath. unfold process_archive.
    destruct path as [p|]; [|done]. simpl.
    case_bool_decide; [done|]. by rewrite (Hpath p eq_refl). }
  unfold mbind at 1, run_bind at 1. rewrite Hnone by done.
  unfold mbind at 1, run_bind at 1. rewrite Hnone by done.
  reflexivity.
Qed.

Lemma nothing_to_process_witness :
  let E := {| OPENAI_API_KEY := Some "sk-live"; archives := ∅;
              completion := λ _ _, Some "analysis"; today := "2025-03-01";
              json_dump := λ _, "{}" |} in
  let a := {| arg_submissions := None; arg_comments := None;
              arg_subreddit := Some "books"; arg_data_dir := "data";
              arg_output_dir := "out";
              arg_chunk_size := 100; arg_max_chunks := 5 |} in
  let w := {| files := ∅; dirs := ∅; requests := [] |} in
  main E a w = (Ok (), w).
Proof.
  intros E a w.
  apply (nothing_to_process E a w); [reflexivity | |]; intros p _; done.
Defined.

(** ** The record of the chunk analyses *)

(** X20.  Whenever there is at least one result, the aggregator leaves
    the whole list of results in [<name>_all_analyses.json], whatever
    happens afterwards: a meta request that is answered, one that is
    not, or the client raising for want of a credential. *)
Theorem results_are_recorded (E : env) (output_dir name : string)
    (results : list chunk_result) (pct : num) (cov : coverage)
    (w w' : world) (r : result ()) :
  results ≠ [] →
  summarize E output_dir name results pct cov w = (r, w') →
  files w' !! path_join output_dir (name +:+ "_all_analyses.json")
  = Some (json_dump E (JArr (chunk_result_json <$> results))).
Proof.
  intros Hsome Hrun. destruct results as [|first rest]; [done|].
  unfold summarize, analyze_with_openai, write_file in Hrun.
  run_cases Hrun;
    repeat (rewrite lookup_insert_ne
              by (let Heq := fresh in
                  intros Heq; unfold summary_file in Heq;
                  by apply path_join_inj in Heq));
    apply lookup_insert_eq.
Qed.

Lemma results_are_recorded_witness :
  let E := {| OPENAI_API_KEY := None; archives := ∅;
              completion := λ _ _, None; today := "2025-03-01";
              json_dump := λ j, match j with
                                | JArr l => pretty (length l)
                                | _ => ""
                                end |} in
  let md := {| post_count := 1; date_earliest := None; date_latest := None;
               authors := []; avg_score := NInt 0; total_score := 0;
               unique_authors := 0 |} in
  let results := [ {| chunk_id := 1; result_metadata := md;
                      analysis := "Slow refunds." |};
                   {| chunk_id := 2; result_metadata := md;
                      analysis := "Lost parcels." |} ] in
  let out := summarize E "out" "books" results (NInt 0)
               (file_coverage 2 2 (NInt 0) 64)
               {| files := ∅; dirs := ∅; requests := [] |} in
  files out.2 !! "out/books_all_analyses.json" = Some "2".
Proof.
  intros E md results out.
  apply (results_are_recorded E "out" "books" results (NInt 0)
           (file_coverage 2 2 (NInt 0) 64)
           {| files := ∅; dirs := ∅; requests := [] |} out.2 out.1);
    [discriminate | apply surjective_pairing].
Defined.

(** *** Checks of the driver's primitives against CPython *)

Example pattern_on_file_names :
  get_subreddit_from_filename "books_comments.zst" = Some "books"
  ∧ get_subreddit_from_filename "a_b_comments.zst" = None
  ∧ get_subreddit_from_filename "books_submissions.zst.bak" = Some "books"
  ∧ get_subreddit_from_filename "_comments.zst" = None
  ∧ get_subreddit_from_filename "books_comment.zst" = None.
Proof. repeat split. Qed.

Example sorted_names :
  merge_sort string_le ["b"; "B"; "a_"; "a"; "Z"; "aa"; "_"]
  = ["B"; "Z"; "_"; "a"; "a_"; "aa"; "b"].
Proof. reflexivity. Qed.
